(** * busca_similaridade: similarity search over pre-computed embeddings

    A shallow embedding of [src/src/busca_similaridade.py] (class
    [BuscadorSimilaridade] and the menu dispatch of [main]).

    Conventions of the embedding.
    - numbers are real numbers ([R]) and the arithmetic is exact.  The
      code computes in [float32]: it rounds, it overflows to [inf] and
      underflows to zero, and a quotient by a zero norm is NaN.  The model
      has none of these.  The properties of the search and of the anomaly
      ranking are therefore stated for the vectors [nao_degenerado], on
      which [float32] yields finite numbers too, and they are properties
      that the results of the code have whatever the rounding: how many
      results there are, which labels occur among them, that the scores
      returned with them decrease.
    - a Python call either returns a value or raises: [resultado].
    - the collaborators that are not part of the repository (the sentence
      encoder, the ordering used inside the faiss index, the file system,
      the JSON parser and numpy's array conversion) are parameters.

    The converter that writes the files the search reads
    ([src/src/converte_embeddings.py]) is embedded after the search, with
    the same conventions; there the encoder applied to a list of texts
    gives the embedding of each text, row by row. *)

From Stdlib Require Import String Bool Arith.
From Stdlib Require Import List ZArith Reals Lra Lia Permutation Sorted.
Import ListNotations.

Open Scope R_scope.

(** ** Python outcomes *)

(** An exception is identified by the name of its class. *)
Record excecao : Type := Exc { classe : string }.

Inductive resultado (A : Type) : Type :=
| Retorna (a : A)
| Levanta (e : excecao).

Arguments Retorna {A} a.
Arguments Levanta {A} e.

Definition liga {A B : Type} (r : resultado A) (f : A -> resultado B)
  : resultado B :=
  match r with
  | Retorna a => f a
  | Levanta e => Levanta e
  end.

Notation "x <- r ;; k" := (liga r (fun x => k))
  (at level 61, r at next level, right associativity).

Definition IndexError : excecao := Exc "IndexError".
Definition KeyError : excecao := Exc "KeyError".
Definition TypeError : excecao := Exc "TypeError".
Definition AssertionError : excecao := Exc "AssertionError".
Definition AxisError : excecao := Exc "AxisError".

(** ** numpy, over the reals

    The operations below are the exact ones.  They part from numpy on a
    zero norm ([x / 0] is [0] in [R]; numpy gives NaN or [inf]), on numbers
    too large or too small for [float32], in the last bits of every result,
    and on two arrays of different lengths, of which [dot] reads the common
    prefix where [np.dot] raises; the rows of a two-dimensional array have
    one length. *)

Module Numpy.

Definition vetor : Type := list R.

(** A two-dimensional array, as the list of its rows. *)
Definition matriz : Type := list vetor.

(** [np.dot] of two one-dimensional arrays. *)
Fixpoint dot (a b : vetor) : R :=
  match a, b with
  | x :: a', y :: b' => x * y + dot a' b'
  | _, _ => 0
  end.

(** [np.linalg.norm] of one row: the square root of the sum of squares. *)
Definition norm (v : vetor) : R := sqrt (dot v v).

(** [v / n], a one-dimensional array divided by a scalar. *)
Definition div_escalar (v : vetor) (n : R) : vetor :=
  map (fun x => x / n) v.

Definition soma (l : list R) : R := fold_right Rplus 0 l.

(** [np.mean] of a list of numbers. *)
Definition mean (l : list R) : R := soma l / INR (length l).

(** [embeddings.shape[1]].  The empty list of rows stands for the array
    that [np.array] builds from an empty list, which has one dimension
    only: its shape has no second entry. *)
Definition shape1 (m : matriz) : resultado nat :=
  match m with
  | [] => Levanta IndexError
  | v :: _ => Retorna (length v)
  end.

End Numpy.

Import Numpy.

(** ** Python's [list.sort(key=...)]

    The sort is stable and compares keys with [<] only; insertion from the
    right is one such sort. *)

Section Ordenacao.

Context {A : Type}.
Variable menor : A -> A -> bool.

Fixpoint insere (x : A) (l : list A) : list A :=
  match l with
  | [] => [x]
  | y :: r => if menor y x then y :: insere x r else x :: y :: r
  end.

Fixpoint ordenar (l : list A) : list A :=
  match l with
  | [] => []
  | x :: r => insere x (ordenar r)
  end.

(** [a] may stand before [b]: [b] is not smaller. *)
Definition nao_depois (a b : A) : Prop := menor b a = false.

End Ordenacao.

Definition Rltb (x y : R) : bool := if Rlt_dec x y then true else false.

(** ** faiss.IndexFlatIP

    The exact inner-product index of the faiss library, as its Python
    wrapper behaves: [add] and [search] assert that the rows have the
    dimension of the index, [search] asserts [k > 0] and returns two arrays
    with [k] columns, the results by decreasing inner product; when fewer
    than [k] vectors are stored, the missing results carry the label [-1]
    and the lowest [float32].  How the library orders equal scores is not
    fixed here: the ordering is the parameter [ordena].  A score that is
    NaN is outside the model: the index leaves the vector that has it out
    of the results, and the row is filled with the label [-1]. *)

Module Faiss.

Record IndexFlatIP : Type := { d : nat; xb : matriz }.

Definition novo (dimensao : nat) : IndexFlatIP :=
  {| d := dimensao; xb := [] |}.

Definition dimensao_ok (dimensao : nat) (x : matriz) : bool :=
  forallb (fun v => Nat.eqb (length v) dimensao) x.

Definition add (indice : IndexFlatIP) (x : matriz) : resultado IndexFlatIP :=
  if dimensao_ok (d indice) x
  then Retorna {| d := d indice; xb := xb indice ++ x |}
  else Levanta AssertionError.

(** [-FLT_MAX], the score of a missing result. *)
Definition lowest : R := - ((2 - / 2 ^ 23) * 2 ^ 127).

Definition ausente : R * Z := (lowest, (-1)%Z).

(** Every stored vector with its inner product against [q] and its
    position. *)
Definition pontuar (indice : IndexFlatIP) (q : vetor) : list (R * Z) :=
  combine (map (dot q) (xb indice))
          (map Z.of_nat (seq 0 (length (xb indice)))).

Section Busca.

Variable ordena : list (R * Z) -> list (R * Z).

Definition linha (indice : IndexFlatIP) (k : nat) (q : vetor)
  : list (R * Z) :=
  let melhores := firstn k (ordena (pontuar indice q)) in
  melhores ++ repeat ausente (k - length melhores).

Definition search (indice : IndexFlatIP) (x : matriz) (k : nat)
  : resultado (list (list R) * list (list Z)) :=
  if dimensao_ok (d indice) x && (0 <? k)%nat
  then Retorna (map (fun q => map fst (linha indice k q)) x,
                map (fun q => map snd (linha indice k q)) x)
  else Levanta AssertionError.

End Busca.

(** What is assumed of the ordering inside the index: it rearranges the
    scored vectors by decreasing score. *)
Definition decrescente (p1 p2 : R * Z) : Prop := fst p2 <= fst p1.

Definition ordenacao_decrescente (ordena : list (R * Z) -> list (R * Z))
  : Prop :=
  forall l, Permutation (ordena l) l /\ StronglySorted decrescente (ordena l).

(** One such ordering: the stable one. *)
Definition ordena_estavel : list (R * Z) -> list (R * Z) :=
  ordenar (fun p1 p2 => Rltb (fst p2) (fst p1)).

End Faiss.

(** ** Text typed at the console

    A Python [str] read by [input()], as its code points. *)

Definition texto : Type := list N.

(** [str.isspace] on one character. *)
Definition isspace (c : N) : bool :=
  (((9 <=? c) && (c <=? 13)) || ((28 <=? c) && (c <=? 32))
   || (c =? 133) || (c =? 160) || (c =? 5760)
   || ((8192 <=? c) && (c <=? 8202))
   || (c =? 8232) || (c =? 8233) || (c =? 8239) || (c =? 8287)
   || (c =? 12288))%N.

Fixpoint lstrip (s : texto) : texto :=
  match s with
  | [] => []
  | c :: r => if isspace c then lstrip r else s
  end.

(** [str.strip()]. *)
Definition strip (s : texto) : texto := rev (lstrip (rev (lstrip s))).

(** ** JSON documents and the dictionary the loader returns *)

#[local] Unset Elimination Schemes.

Inductive json : Type :=
| JNull
| JBool (b : bool)
| JNum (x : R)
| JStr (s : texto)
| JArr (l : list json)
| JObj (campos : list (string * json)).

#[local] Set Elimination Schemes.

Fixpoint obter {V : Type} (chave : string) (campos : list (string * V))
  : option V :=
  match campos with
  | [] => None
  | (c, v) :: r => if String.eqb c chave then Some v else obter chave r
  end.

(** The dictionary [carregar_embeddings] returns: the parsed document in
    which the field [embeddings] has been replaced by the array built from
    it.  [outros] holds the remaining fields, each key once. *)
Record Dados : Type := { embeddings : matriz; outros : list (string * json) }.

(** [lista[i]] with Python's negative positions. *)
Definition py_index {A : Type} (l : list A) (i : Z) : resultado A :=
  let n := Z.of_nat (length l) in
  let j := (if i <? 0 then i + n else i)%Z in
  if ((0 <=? j) && (j <? n))%Z
  then match nth_error l (Z.to_nat j) with
       | Some a => Retorna a
       | None => Levanta IndexError
       end
  else Levanta IndexError.

(** [json_valor[chave]] for a string key. *)
Definition subscrito (j : json) (chave : string) : resultado json :=
  match j with
  | JObj campos =>
      match obter chave campos with
      | Some v => Retorna v
      | None => Levanta KeyError
      end
  | _ => Levanta TypeError
  end.

(** [dados[chave][idx]] on a field of the loaded dictionary. *)
Definition metadado (dados : Dados) (chave : string) (idx : Z)
  : resultado json :=
  match obter chave (outros dados) with
  | None => Levanta KeyError
  | Some (JArr l) => py_index l idx
  | Some (JStr s) => c <- py_index s idx ;; Retorna (JStr [c])
  | Some (JObj _) => Levanta KeyError
  | Some _ => Levanta TypeError
  end.

(** [valor[:n]] followed by [len(valor) > n], as the rows are formatted:
    the prefix and whether an ellipsis follows.  A dictionary is not
    sliceable either (interpreters whose slices are hashable report it as a
    [KeyError]). *)
Definition cortar (n : nat) (j : json) : resultado (json * bool) :=
  match j with
  | JStr s => Retorna (JStr (firstn n s), (n <? length s)%nat)
  | JArr l => Retorna (JArr (firstn n l), (n <? length l)%nat)
  | _ => Levanta TypeError
  end.

(** ** Console and library calls as a trace *)

(** What [print] shows.  [Cabecalho] stands for the header of a mode and
    the lines of introduction under it, [Texto] for a line of fixed text
    (with the rules around it), the others for the formatted lines. *)
Inductive mensagem : Type :=
| Cabecalho (titulo : string)
| Texto (s : string)
| Buscando (query : texto)
| LinhaFonte (i : nat) (fonte : json)
| LinhaPergunta (pergunta : json)
| LinhaResposta (recorte : json * bool)
| LinhaTitulo (i : nat) (titulo : json)
| LinhaDescricao (recorte : json * bool)
| TotalFeedbacks (total : nat)
| Anomalia (rank : nat) (feedback_id usuario data texto_feedback : json)
| ErroCarregar (erro : excecao).

(** The calls that reach outside: the console, the faiss index
    ([faiss.IndexFlatIP(d)], [indice.add], [indice.search]) and the
    sentence encoder ([self.modelo.encode]). *)
Inductive evento : Type :=
| EvPrint (m : mensagem)
| EvInput (pergunta : string)
| EvIndexFlatIP (dimensao : nat)
| EvAdd (x : matriz)
| EvEncode (query : texto)
| EvSearch (x : matriz) (k : nat).

(** A run: what happened, and how it ended. *)
Definition prog (A : Type) : Type := (list evento * resultado A)%type.

Definition pret {A : Type} (a : A) : prog A := ([], Retorna a).

Definition pliga {A B : Type} (p : prog A) (f : A -> prog B) : prog B :=
  match snd p with
  | Retorna a => (fst p ++ fst (f a), snd (f a))
  | Levanta e => (fst p, Levanta e)
  end.

Definition emite (e : evento) : prog unit := ([e], Retorna tt).

Definition eleva {A : Type} (r : resultado A) : prog A := ([], r).

Notation "x <~ p ;; k" := (pliga p (fun x => k))
  (at level 61, p at next level, right associativity).
Notation "p ;;; k" := (pliga p (fun _ => k))
  (at level 61, right associativity).

Definition print (m : mensagem) : prog unit := emite (EvPrint m).

(** The classes caught by [except Exception]: all but the ones that derive
    from [BaseException] directly. *)
Definition eh_Exception (e : excecao) : bool :=
  negb (String.eqb (classe e) "KeyboardInterrupt"
        || String.eqb (classe e) "SystemExit"
        || String.eqb (classe e) "GeneratorExit"
        || String.eqb (classe e) "BaseException").

(** [try: corpo  except Exception as erro: trata(erro)]. *)
Definition tentar {A : Type} (corpo : prog A) (trata : excecao -> prog A)
  : prog A :=
  match snd corpo with
  | Retorna _ => corpo
  | Levanta e =>
      if eh_Exception e
      then (fst corpo ++ fst (trata e), snd (trata e))
      else corpo
  end.

(** [for x in l: corpo(x)]. *)
Fixpoint para_cada {A : Type} (l : list A) (corpo : A -> prog unit)
  : prog unit :=
  match l with
  | [] => pret tt
  | x :: r => corpo x ;;; para_cada r corpo
  end.

(** [enumerate(l, 1)]. *)
Definition enumerate1 {A : Type} (l : list A) : list (nat * A) :=
  combine (seq 1 (length l)) l.

(** ** class BuscadorSimilaridade *)

(** [normalizar_embeddings]: every row divided by its norm.  The norms
    are taken along axis 1, which the one-dimensional empty array does not
    have. *)
Definition normalizar_embeddings (embeddings : matriz) : resultado matriz :=
  match embeddings with
  | [] => Levanta AxisError
  | _ =>
      let normas := map norm embeddings in
      Retorna (map (fun par => div_escalar (fst par) (snd par))
                   (combine embeddings normas))
  end.

(** [calcular_similaridade_cosseno]. *)
Definition calcular_similaridade_cosseno (embedding1 embedding2 : vetor) : R :=
  let emb1_norm := div_escalar embedding1 (norm embedding1) in
  let emb2_norm := div_escalar embedding2 (norm embedding2) in
  let similaridade := dot emb1_norm emb2_norm in
  similaridade.

(** [criar_indice_faiss]. *)
Definition criar_indice_faiss (embeddings : matriz) : prog Faiss.IndexFlatIP :=
  dimensao <~ eleva (shape1 embeddings) ;;
  emite (EvIndexFlatIP dimensao) ;;;
  let indice := Faiss.novo dimensao in
  embeddings_normalizados <~ eleva (normalizar_embeddings embeddings) ;;
  let embeddings_float32 := embeddings_normalizados in
  emite (EvAdd embeddings_float32) ;;;
  eleva (Faiss.add indice embeddings_float32).

Section Buscador.

(** [self.modelo.encode([query])[0]]: the embedding of one text. *)
Variable encode : texto -> vetor.

(** The ordering inside the faiss index. *)
Variable ordena : list (R * Z) -> list (R * Z).

(** [buscar_similares]. *)
Definition buscar_similares (query : texto) (indice : Faiss.IndexFlatIP)
  (k : nat) : prog (list R * list Z) :=
  emite (EvEncode query) ;;;
  let query_embedding := [encode query] in
  query_normalizado <~ eleva (normalizar_embeddings query_embedding) ;;
  emite (EvSearch query_normalizado k) ;;;
  res <~ eleva (Faiss.search ordena indice query_normalizado k) ;;
  similaridades0 <~ eleva (py_index (fst res) 0) ;;
  indices0 <~ eleva (py_index (snd res) 0) ;;
  pret (similaridades0, indices0).

(** [modo_faq]; [digitado] is the line [input] reads. *)
Definition modo_faq (dados_embeddings : Dados) (digitado : texto)
  : prog unit :=
  print (Cabecalho "📄 MODO FAQ - BUSCA SEMÂNTICA") ;;;
  indice <~ criar_indice_faiss (embeddings dados_embeddings) ;;
  emite (EvInput "❓ Digite sua pergunta: ") ;;;
  let query := strip digitado in
  match query with
  | [] => print (Texto "⚠️  Query vazia. Encerrando modo FAQ.")
  | _ =>
      print (Buscando query) ;;;
      res <~ buscar_similares query indice 3 ;;
      print (Texto "🏆 TOP 3 RESPOSTAS MAIS RELEVANTES") ;;;
      para_cada (enumerate1 (combine (fst res) (snd res)))
        (fun entrada =>
           let i := fst entrada in
           let idx := snd (snd entrada) in
           pergunta <~ eleva (metadado dados_embeddings "perguntas" idx) ;;
           resposta <~ eleva (metadado dados_embeddings "respostas" idx) ;;
           fonte <~ eleva (metadado dados_embeddings "fontes" idx) ;;
           print (LinhaFonte i fonte) ;;;
           print (LinhaPergunta pergunta) ;;;
           recorte <~ eleva (cortar 200 resposta) ;;
           print (LinhaResposta recorte))
  end.

(** [len(dados_embeddings['titulos'])]. *)
Definition len_campo (dados : Dados) (chave : string) : resultado nat :=
  match obter chave (outros dados) with
  | None => Levanta KeyError
  | Some (JArr l) => Retorna (length l)
  | Some (JStr s) => Retorna (length s)
  | Some (JObj campos) => Retorna (length campos)
  | Some _ => Levanta TypeError
  end.

(** [modo_filmes]. *)
Definition modo_filmes (dados_embeddings : Dados) (digitado : texto)
  : prog unit :=
  print (Cabecalho "🎬 MODO FILMES - RECOMENDAÇÃO POR DESCRIÇÃO") ;;;
  indice <~ criar_indice_faiss (embeddings dados_embeddings) ;;
  emite (EvInput "🎥 Descreva o filme que procura: ") ;;;
  let query := strip digitado in
  match query with
  | [] => print (Texto "⚠️  Descrição vazia. Encerrando modo filmes.")
  | _ =>
      print (Buscando query) ;;;
      total_filmes <~ eleva (len_campo dados_embeddings "titulos") ;;
      res <~ buscar_similares query indice total_filmes ;;
      print (Texto "🎬 FILMES RANQUEADOS POR SIMILARIDADE") ;;;
      para_cada (enumerate1 (combine (fst res) (snd res)))
        (fun entrada =>
           let i := fst entrada in
           let idx := snd (snd entrada) in
           titulo <~ eleva (metadado dados_embeddings "titulos" idx) ;;
           descricao <~ eleva (metadado dados_embeddings "descricoes" idx) ;;
           print (LinhaTitulo i titulo) ;;;
           recorte <~ eleva (cortar 150 descricao) ;;
           print (LinhaDescricao recorte))
  end.

End Buscador.

(** The inner loop of [modo_anomalias]: the similarities of item [i] to
    the others. *)
Definition similaridades_de (embeddings : matriz) (total i : nat) : list R :=
  let embedding_atual := nth i embeddings [] in
  fold_left
    (fun similaridades j =>
       if negb (Nat.eqb i j)
       then
         let embedding_outro := nth j embeddings [] in
         let similaridade :=
           calcular_similaridade_cosseno embedding_atual embedding_outro in
         similaridades ++ [similaridade]
       else similaridades)
    (seq 0 total) [].

(** The outer loop: [scores_medios] before it is sorted. *)
Definition scores_medios (embeddings : matriz) : list (nat * R) :=
  let total := length embeddings in
  fold_left
    (fun acumulado i =>
       let score_medio := mean (similaridades_de embeddings total i) in
       acumulado ++ [(i, score_medio)])
    (seq 0 total) [].

(** [scores_medios.sort(key=lambda x: x[1])]. *)
Definition scores_ordenados (embeddings : matriz) : list (nat * R) :=
  ordenar (fun x y => Rltb (snd x) (snd y)) (scores_medios embeddings).

(** [scores_medios[:3]], the rows that are shown. *)
Definition anomalias (embeddings : matriz) : list (nat * R) :=
  firstn 3 (scores_ordenados embeddings).

(** [modo_anomalias]. *)
Definition modo_anomalias (dados_embeddings : Dados) : prog unit :=
  print (Cabecalho "⚠️  MODO DETECÇÃO DE ANOMALIAS") ;;;
  let total := length (embeddings dados_embeddings) in
  print (TotalFeedbacks total) ;;;
  print (Texto "🔄 Calculando similaridade média de cada feedback...") ;;;
  print (Texto "🚨 TOP 5 FEEDBACKS ANÔMALOS DETECTADOS") ;;;
  para_cada (enumerate1 (anomalias (embeddings dados_embeddings)))
    (fun entrada =>
       let rank := fst entrada in
       let idx := Z.of_nat (fst (snd entrada)) in
       feedback_id <~ eleva (metadado dados_embeddings "ids" idx) ;;
       usuario <~ eleva (metadado dados_embeddings "usuarios" idx) ;;
       data <~ eleva (metadado dados_embeddings "datas" idx) ;;
       texto_feedback <~ eleva (metadado dados_embeddings "textos" idx) ;;
       print (Anomalia rank feedback_id usuario data texto_feedback)).

(** A trace in which the encoder is not called and the index is not
    searched. *)
Definition sem_busca (eventos : list evento) : Prop :=
  (forall query, ~ In (EvEncode query) eventos)
  /\ (forall x k, ~ In (EvSearch x k) eventos).

(** ** Loading, and the body of the menu loop *)

Section Principal.

Variable encode : texto -> vetor.
Variable ordena : list (R * Z) -> list (R * Z).

(** [open(caminho, 'r', encoding='utf-8')] and the text it gives. *)
Variable abrir : string -> resultado string.

(** [json.load]. *)
Variable json_load : string -> resultado json.

(** [np.array(valor, dtype=np.float32)] on a list of rows. *)
Variable np_array : json -> resultado matriz.

(** [carregar_embeddings]. *)
Definition carregar_embeddings (caminho : string) : prog (option Dados) :=
  tentar
    (arquivo <~ eleva (abrir caminho) ;;
     dados <~ eleva (json_load arquivo) ;;
     bruto <~ eleva (subscrito dados "embeddings") ;;
     convertido <~ eleva (np_array bruto) ;;
     match dados with
     | JObj campos =>
         pret (Some {| embeddings := convertido;
                       outros := filter
                         (fun c => negb (String.eqb (fst c) "embeddings"))
                         campos |})
     | _ => eleva (Levanta TypeError)
     end)
    (fun erro => print (ErroCarregar erro) ;;; pret None).

(** Where loading can fail: opening the file, parsing it, reading its
    field [embeddings], converting that field. *)
Definition falha_na_carga (caminho : string) (erro : excecao) : Prop :=
  abrir caminho = Levanta erro
  \/ (exists arquivo,
        abrir caminho = Retorna arquivo /\ json_load arquivo = Levanta erro)
  \/ (exists arquivo dados,
        abrir caminho = Retorna arquivo /\ json_load arquivo = Retorna dados
        /\ subscrito dados "embeddings" = Levanta erro)
  \/ (exists arquivo dados bruto,
        abrir caminho = Retorna arquivo /\ json_load arquivo = Retorna dados
        /\ subscrito dados "embeddings" = Retorna bruto
        /\ np_array bruto = Levanta erro).

(** The three files, relative to the base directory. *)
Definition caminho_faq : string := "embeddings/faq/faq_embeddings.json".
Definition caminho_filmes : string := "embeddings/filmes/filmes_embeddings.json".
Definition caminho_avaliacoes : string :=
  "embeddings/avaliacoes/feedbacks_embeddings.json".

(** [if dados: modo(dados)]: [None] is false, the loaded dictionary, which
    holds the key [embeddings], is true. *)
Definition se_dados (dados : option Dados) (modo : Dados -> prog unit)
  : prog unit :=
  match dados with
  | Some carregado => modo carregado
  | None => pret tt
  end.

Definition texto_eqb (a b : texto) : bool :=
  if list_eq_dec N.eq_dec a b then true else false.

(** One turn of the loop of [main] after [exibir_menu] returned [escolha];
    the result tells whether the loop goes on. *)
Definition turno (escolha : texto) (digitado : texto) : prog bool :=
  if texto_eqb escolha [49%N] then
    dados <~ carregar_embeddings caminho_faq ;;
    se_dados dados (fun c => modo_faq encode ordena c digitado) ;;;
    emite (EvInput "⏸️  Pressione ENTER para voltar ao menu...") ;;;
    pret true
  else if texto_eqb escolha [50%N] then
    dados <~ carregar_embeddings caminho_filmes ;;
    se_dados dados (fun c => modo_filmes encode ordena c digitado) ;;;
    emite (EvInput "⏸️  Pressione ENTER para voltar ao menu...") ;;;
    pret true
  else if texto_eqb escolha [51%N] then
    dados <~ carregar_embeddings caminho_avaliacoes ;;
    se_dados dados modo_anomalias ;;;
    emite (EvInput "⏸️  Pressione ENTER para voltar ao menu...") ;;;
    pret true
  else if texto_eqb escolha [48%N] then
    print (Texto "👋 Encerrando sistema. Até logo!") ;;;
    pret false
  else
    print (Texto "⚠️  Opção inválida. Tente novamente.") ;;;
    emite (EvInput "⏸️  Pressione ENTER para voltar ao menu...") ;;;
    pret true.

End Principal.

(** ** Data for the examples *)

Module Exemplos.

#[local] Open Scope string_scope.

(** The code points of an ASCII string. *)
Definition pontos (s : string) : texto :=
  map Ascii.N_of_ascii (list_ascii_of_string s).

Definition colecao2 : matriz := [[1; 0]; [0; 1]].

Definition colecao4 : matriz := [[1; 0]; [0; 1]; [1; 1]; [1; 2]].

(** The index [criar_indice_faiss] builds from [colecao2]. *)
Definition indice2 : Faiss.IndexFlatIP :=
  {| Faiss.d := 2;
     Faiss.xb := map (fun v => div_escalar v (norm v)) colecao2 |}.

(** An encoder that gives every text the same embedding. *)
Definition encode_fixo (query : texto) : vetor := [3; 4].

Definition faq2 : Dados :=
  {| embeddings := colecao2;
     outros :=
       [("tipo", JStr (pontos "faq"));
        ("total", JNum 2);
        ("perguntas", JArr [JStr (pontos "P1"); JStr (pontos "P2")]);
        ("respostas", JArr [JStr (pontos "R1"); JStr (pontos "R2")]);
        ("fontes", JArr [JStr (pontos "F1"); JStr (pontos "F2")])] |}.

Definition filmes2 : Dados :=
  {| embeddings := colecao2;
     outros :=
       [("tipo", JStr (pontos "filmes"));
        ("total", JNum 2);
        ("titulos", JArr [JStr (pontos "T1"); JStr (pontos "T2")]);
        ("descricoes", JArr [JStr (pontos "D1"); JStr (pontos "D2")])] |}.

(** A document that announces three items and holds two rows. *)
Definition documento_curto : json :=
  JObj [("tipo", JStr (pontos "faq"));
        ("total", JNum 3);
        ("perguntas", JArr [JStr (pontos "P1"); JStr (pontos "P2");
                            JStr (pontos "P3")]);
        ("respostas", JArr [JStr (pontos "R1"); JStr (pontos "R2");
                            JStr (pontos "R3")]);
        ("fontes", JArr [JStr (pontos "F1"); JStr (pontos "F2");
                         JStr (pontos "F3")]);
        ("embeddings", JArr [JArr [JNum 1; JNum 0]; JArr [JNum 0; JNum 1]])].

(** A file system that holds the FAQ file only. *)
Definition abrir_faq (caminho : string) : resultado string :=
  if String.eqb caminho "embeddings/faq/faq_embeddings.json"
  then Retorna "faq"
  else Levanta (Exc "FileNotFoundError").

(** A parser that reads [documento_curto] in the FAQ file. *)
Definition json_load_curto (arquivo : string) : resultado json :=
  if String.eqb arquivo "faq"
  then Retorna documento_curto
  else Levanta (Exc "JSONDecodeError").

Fixpoint numeros (l : list json) : option vetor :=
  match l with
  | [] => Some []
  | JNum x :: r => option_map (cons x) (numeros r)
  | _ => None
  end.

Fixpoint fileiras (l : list json) : option matriz :=
  match l with
  | [] => Some []
  | JArr v :: r =>
      match numeros v, fileiras r with
      | Some linha, Some resto => Some (linha :: resto)
      | _, _ => None
      end
  | _ => None
  end.

(** An array conversion that accepts the lists of rows of numbers of one
    length. *)
Definition np_array_fileiras (valor : json) : resultado matriz :=
  match valor with
  | JArr l =>
      match fileiras l with
      | Some m =>
          if Faiss.dimensao_ok (length (hd [] m)) m
          then Retorna m
          else Levanta (Exc "ValueError")
      | None => Levanta (Exc "ValueError")
      end
  | _ => Levanta (Exc "ValueError")
  end.

End Exemplos.

(** ** Vectors that float32 normalises to finite numbers

    A vector whose components are zero or between [10^-12] and [10^12] in
    absolute value, not all zero: in [float32] its squares neither overflow
    nor underflow, its norm is finite and not zero, and its quotient by the
    norm has finite components.  With such vectors stored and such a query,
    every score the index computes is a finite number. *)

Definition componente_segura (x : R) : Prop :=
  x = 0 \/ (1 / 1000000000000 <= Rabs x <= 1000000000000).

Definition nao_degenerado (v : vetor) : Prop :=
  Forall componente_segura v /\ norm v <> 0.

(** A collection of such vectors, all of one length, as the rows of a
    two-dimensional array are. *)
Definition colecao_regular (m : matriz) : Prop :=
  Forall nao_degenerado m
  /\ Forall (fun v => length v = length (hd [] m)) m.

(** An ordering of the index other than the stable one: by decreasing
    score, equal scores in the reverse of the order in which they were
    stored, which is how equal scores leave the heap where the index keeps
    its best results. *)
Definition ordena_invertida (l : list (R * Z)) : list (R * Z) :=
  Faiss.ordena_estavel (rev l).

(** Two equal stored vectors, and the index built from them. *)
Definition colecao_igual : matriz := [[1; 0]; [1; 0]].

Definition indice_igual : Faiss.IndexFlatIP :=
  {| Faiss.d := 2;
     Faiss.xb := map (fun v => div_escalar v (norm v)) colecao_igual |}.

(** ** Notions used to state further properties *)

(** [l[idx]] where Python defines it, and [d] elsewhere. *)
Definition py_get {A : Type} (l : list A) (idx : Z) (d : A) : A :=
  nth (Z.to_nat (if (idx <? 0)%Z then (idx + Z.of_nat (length l))%Z else idx))
      l d.

(** The values [valor[:n]] accepts. *)
Definition fatiavel (j : json) : Prop :=
  match j with
  | JStr _ | JArr _ => True
  | _ => False
  end.

(** What [cortar] returns on such a value. *)
Definition recorte (n : nat) (j : json) : json * bool :=
  match j with
  | JStr s => (JStr (firstn n s), (n <? length s)%nat)
  | JArr l => (JArr (firstn n l), (n <? length l)%nat)
  | _ => (j, false)
  end.

(** The rows the FAQ mode prints for one result. *)
Definition linhas_faq (perguntas respostas fontes : list json)
  (entrada : nat * (R * Z)) : list evento :=
  let idx := snd (snd entrada) in
  [EvPrint (LinhaFonte (fst entrada) (py_get fontes idx JNull));
   EvPrint (LinhaPergunta (py_get perguntas idx JNull));
   EvPrint (LinhaResposta (recorte 200 (py_get respostas idx JNull)))].

(** The rows the film mode prints for one result. *)
Definition linhas_filme (titulos descricoes : list json)
  (entrada : nat * (R * Z)) : list evento :=
  let idx := snd (snd entrada) in
  [EvPrint (LinhaTitulo (fst entrada) (py_get titulos idx JNull));
   EvPrint (LinhaDescricao (recorte 150 (py_get descricoes idx JNull)))].


(** The titles on the rows of a trace, in the order they are printed. *)
Definition titulos_mostrados (eventos : list evento) : list json :=
  flat_map (fun e => match e with
                     | EvPrint (LinhaTitulo _ titulo) => [titulo]
                     | _ => []
                     end) eventos.

(** * converte_embeddings: from documents to the files of embeddings

    A shallow embedding of [src/src/converte_embeddings.py] (class
    [ConversorEmbeddings]): the extraction of questions and answers from
    the text of a FAQ, and the two conversions whose files the FAQ mode and
    the film mode read. *)

(** ** Operations on [str] *)

(** [s.split('\n')]. *)
Fixpoint split_linhas (s : texto) : list texto :=
  match s with
  | [] => [[]]
  | c :: r =>
      if (c =? 10)%N then [] :: split_linhas r
      else match split_linhas r with
           | l :: ls => (c :: l) :: ls
           | [] => [[c]]
           end
  end.

(** [s.split('\n', 1)]: the text before the first line break and, when
    there is one, the text after it. *)
Fixpoint split_uma_vez (s : texto) : texto * option texto :=
  match s with
  | [] => ([], None)
  | c :: r =>
      if (c =? 10)%N then ([], Some r)
      else let (antes, depois) := split_uma_vez r in (c :: antes, depois)
  end.

(** [sep.join(partes)]. *)
Fixpoint join (sep : texto) (partes : list texto) : texto :=
  match partes with
  | [] => []
  | p :: r =>
      match r with
      | [] => p
      | _ :: _ => p ++ sep ++ join sep r
      end
  end.

(** [s.endswith(c)] for a suffix of one character. *)
Definition endswith (c : N) (s : texto) : bool :=
  match rev s with
  | u :: _ => (u =? c)%N
  | [] => false
  end.

(** ** Paths, console and library calls of the converter *)

(** A [pathlib.Path] of a listing: [str(p)], [p.name] and [p.stem]. *)
Record Path : Type := { str : string; name : texto; stem : texto }.

(** What the converter prints. *)
Inductive nota : Type :=
| NotaCabecalho (titulo : string)
| NotaTexto (s : string)
| NotaProcessando (nome : texto)
| NotaErroLer (tipo caminho : string) (erro : excecao)
| NotaTotalPerguntas (n : nat)
| NotaTotalFilmes (n : nat)
| NotaGerando (n : nat)
| NotaSalvos (caminho : string).

(** The calls that reach outside: the console, the sentence encoder on a
    batch of texts, and [json.dump] into the output file. *)
Inductive efeito : Type :=
| EfPrint (n : nota)
| EfEncode (textos : list texto)
| EfDump (dados : json) (caminho : string).

(** A run of the converter. *)
Definition conv (A : Type) : Type := (list efeito * resultado A)%type.

Definition cret {A : Type} (a : A) : conv A := ([], Retorna a).

Definition cliga {A B : Type} (p : conv A) (f : A -> conv B) : conv B :=
  match snd p with
  | Retorna a => (fst p ++ fst (f a), snd (f a))
  | Levanta e => (fst p, Levanta e)
  end.

Definition cemite (e : efeito) : conv unit := ([e], Retorna tt).

Definition celeva {A : Type} (r : resultado A) : conv A := ([], r).

Notation "x <~~ p ;; k" := (cliga p (fun x => k))
  (at level 61, p at next level, right associativity).
Notation "p ;;~ k" := (cliga p (fun _ => k))
  (at level 61, right associativity).

Definition cprint (n : nota) : conv unit := cemite (EfPrint n).

(** [try: corpo  except Exception as erro: trata(erro)]. *)
Definition ctentar {A : Type} (corpo : conv A) (trata : excecao -> conv A)
  : conv A :=
  match snd corpo with
  | Retorna _ => corpo
  | Levanta e =>
      if eh_Exception e
      then (fst corpo ++ fst (trata e), snd (trata e))
      else corpo
  end.

(** [embeddings.tolist()]. *)
Definition tolist (m : matriz) : json :=
  JArr (map (fun v => JArr (map JNum v)) m).

(** The code points of [' '], ['\n'], ['.'] and ['?']. *)
Definition espaco : N := 32%N.
Definition quebra : N := 10%N.
Definition ponto : N := 46%N.
Definition interrogacao : N := 63%N.

(** ** class ConversorEmbeddings *)

Section Conversor.

(** The class [\d] of the regular expressions: the decimal digits of
    Unicode. *)
Variable digito : N -> bool.

(** [self.modelo.encode] on one text; on a list of texts the encoder gives
    the array of the embeddings of each. *)
Variable encode : texto -> vetor.

(** [sorted(Path(diretorio).glob(padrao))]. *)
Variable listar : string -> string -> list Path.

(** [open(caminho, 'r', encoding='utf-8')] followed by [read()]. *)
Variable ler_txt : string -> resultado texto.

(** [PdfReader(caminho)] and [extract_text()] on each of its pages. *)
Variable ler_pdf : string -> resultado (list texto).

(** Creating the directory, opening the file and [json.dump] into it. *)
Variable json_dump : json -> string -> resultado unit.

(** [extrair_texto_pdf]. *)
Definition extrair_texto_pdf (caminho : string) : conv texto :=
  ctentar
    (paginas <~~ celeva (ler_pdf caminho) ;;
     let texto_completo := join [quebra] paginas in
     cret (strip texto_completo))
    (fun erro => cprint (NotaErroLer "PDF" caminho erro) ;;~ cret []).

(** [extrair_texto_txt]. *)
Definition extrair_texto_txt (caminho : string) : conv texto :=
  ctentar
    (conteudo <~~ celeva (ler_txt caminho) ;;
     cret (strip conteudo))
    (fun erro => cprint (NotaErroLer "TXT" caminho erro) ;;~ cret []).

(** [gerar_embeddings]. *)
Definition gerar_embeddings (textos : list texto) : conv matriz :=
  cprint (NotaGerando (length textos)) ;;~
  cemite (EfEncode textos) ;;~
  let embeddings := map encode textos in
  cprint (NotaTexto "✅ Embeddings gerados!") ;;~
  cret embeddings.

(** [salvar_embeddings]. *)
Definition salvar_embeddings (dados : json) (caminho_saida : string)
  : conv unit :=
  cemite (EfDump dados caminho_saida) ;;~
  celeva (json_dump dados caminho_saida) ;;~
  cprint (NotaSalvos caminho_saida).

(** [padrao_numero.match(linha)] for [re.compile(r'^\d+\.')]: one digit,
    then digits up to a full stop.  [resto_do_numero] is the match after
    the first digit. *)
Fixpoint resto_do_numero (s : texto) : bool :=
  match s with
  | [] => false
  | c :: r => (c =? ponto)%N || (digito c && resto_do_numero r)
  end.

Definition padrao_numero (linha : texto) : bool :=
  match linha with
  | [] => false
  | c :: r => digito c && resto_do_numero r
  end.

(** The first loop of [extrair_perguntas_respostas_de_texto]: one turn,
    on the pair of [pulou_titulo] and [linhas_limpas]. *)
Definition limpar_linha (estado : bool * list texto) (linha : texto)
  : bool * list texto :=
  let (pulou_titulo, linhas_limpas) := estado in
  let linha_limpa := strip linha in
  match linha_limpa with
  | [] => estado
  | _ :: _ =>
      if negb pulou_titulo then (true, linhas_limpas)
      else (pulou_titulo, linhas_limpas ++ [linha_limpa])
  end.

Definition limpar_linhas (linhas : list texto) : list texto :=
  snd (fold_left limpar_linha linhas (false, [])).

(** The loop that gathers a question.  [restantes] is [linhas_limpas[i:]]
    and [anterior] is [linhas_limpas[i-1]]; the result is [pergunta_partes]
    and the lines from the position where the loop stops. *)
Fixpoint acumular_pergunta (anterior : texto)
  (pergunta_partes restantes : list texto) : list texto * list texto :=
  match restantes with
  | [] => (pergunta_partes, [])
  | proxima :: seguintes =>
      if negb (endswith interrogacao anterior)
      then acumular_pergunta proxima (pergunta_partes ++ [proxima]) seguintes
      else (pergunta_partes, restantes)
  end.

(** The loop that gathers an answer. *)
Fixpoint acumular_resposta (resposta_partes restantes : list texto)
  : list texto * list texto :=
  match restantes with
  | [] => (resposta_partes, [])
  | proxima :: seguintes =>
      if negb (padrao_numero proxima)
      then acumular_resposta (resposta_partes ++ [proxima]) seguintes
      else (resposta_partes, restantes)
  end.

(** The main loop, for at most [voltas] turns: the lines from the
    position [i] where it stops, and the two lists. *)
Fixpoint laco_principal (voltas : nat)
  (restantes perguntas respostas : list texto)
  : list texto * (list texto * list texto) :=
  match voltas, restantes with
  | S v, linha :: seguintes =>
      if padrao_numero linha then
        let (pergunta_partes, apos_pergunta) :=
          acumular_pergunta linha [linha] seguintes in
        let pergunta_completa := join [espaco] pergunta_partes in
        let (resposta_partes, apos_resposta) :=
          acumular_resposta [] apos_pergunta in
        let resposta_completa := join [espaco] resposta_partes in
        match strip pergunta_completa, strip resposta_completa with
        | _ :: _, _ :: _ =>
            laco_principal v apos_resposta
              (perguntas ++ [strip pergunta_completa])
              (respostas ++ [strip resposta_completa])
        | _, _ => laco_principal v apos_resposta perguntas respostas
        end
      else laco_principal v seguintes perguntas respostas
  | _, _ => (restantes, (perguntas, respostas))
  end.

(** [extrair_perguntas_respostas_de_texto].  Every turn of the main loop
    moves [i] forward, so the number of lines bounds the turns. *)
Definition extrair_perguntas_respostas_de_texto (texto_faq : texto)
  : list texto * list texto :=
  let linhas := split_linhas texto_faq in
  let linhas_limpas := limpar_linhas linhas in
  snd (laco_principal (length linhas_limpas) linhas_limpas [] []).

(** The dictionary [processar_faqs] saves. *)
Definition dados_faq (perguntas_todas respostas_todas fontes_todas
                        : list texto) (embeddings : matriz) : json :=
  JObj [("tipo"%string, JStr [102; 97; 113]%N);
        ("total"%string, JNum (INR (length perguntas_todas)));
        ("perguntas"%string, JArr (map JStr perguntas_todas));
        ("respostas"%string, JArr (map JStr respostas_todas));
        ("fontes"%string, JArr (map JStr fontes_todas));
        ("embeddings"%string, tolist embeddings)].

(** The loop of [processar_faqs] over the files. *)
Fixpoint ler_faqs (arquivos_pdf : list Path)
  (perguntas_todas respostas_todas fontes_todas : list texto)
  : conv (list texto * list texto * list texto) :=
  match arquivos_pdf with
  | [] => cret (perguntas_todas, respostas_todas, fontes_todas)
  | arquivo_pdf :: resto =>
      cprint (NotaProcessando (name arquivo_pdf)) ;;~
      texto_faq <~~ extrair_texto_pdf (str arquivo_pdf) ;;
      match texto_faq with
      | [] => ler_faqs resto perguntas_todas respostas_todas fontes_todas
      | _ :: _ =>
          let (perguntas, respostas) :=
            extrair_perguntas_respostas_de_texto texto_faq in
          ler_faqs resto
            (perguntas_todas ++ perguntas)
            (respostas_todas ++ respostas)
            (fontes_todas ++ repeat (stem arquivo_pdf) (length perguntas))
      end
  end.

(** [processar_faqs]. *)
Definition processar_faqs (diretorio_entrada caminho_saida : string)
  : conv unit :=
  cprint (NotaCabecalho "📄 PROCESSANDO FAQs") ;;~
  let arquivos_pdf := listar diretorio_entrada "*.pdf" in
  match arquivos_pdf with
  | [] => cprint (NotaTexto "⚠️  Nenhum arquivo PDF encontrado!")
  | _ :: _ =>
      lidos <~~ ler_faqs arquivos_pdf [] [] [] ;;
      let '(perguntas_todas, respostas_todas, fontes_todas) := lidos in
      cprint (NotaTotalPerguntas (length perguntas_todas)) ;;~
      match perguntas_todas with
      | [] => cprint (NotaTexto "⚠️  Nenhuma pergunta foi extraída!")
      | _ :: _ =>
          embeddings <~~ gerar_embeddings respostas_todas ;;
          let dados :=
            dados_faq perguntas_todas respostas_todas fontes_todas
                      embeddings in
          salvar_embeddings dados caminho_saida
      end
  end.

(** The dictionary [processar_filmes] saves. *)
Definition dados_filmes (titulos descricoes : list texto)
  (embeddings : matriz) : json :=
  JObj [("tipo"%string, JStr [102; 105; 108; 109; 101; 115]%N);
        ("total"%string, JNum (INR (length titulos)));
        ("titulos"%string, JArr (map JStr titulos));
        ("descricoes"%string, JArr (map JStr descricoes));
        ("embeddings"%string, tolist embeddings)].

(** The loop of [processar_filmes] over the files. *)
Fixpoint ler_filmes (arquivos_txt : list Path)
  (titulos descricoes : list texto) : conv (list texto * list texto) :=
  match arquivos_txt with
  | [] => cret (titulos, descricoes)
  | arquivo_txt :: resto =>
      cprint (NotaProcessando (name arquivo_txt)) ;;~
      texto_filme <~~ extrair_texto_txt (str arquivo_txt) ;;
      match texto_filme with
      | [] => ler_filmes resto titulos descricoes
      | _ :: _ =>
          let linhas := split_uma_vez texto_filme in
          let titulo := strip (fst linhas) in
          let descricao :=
            match snd linhas with
            | Some segunda => strip segunda
            | None => texto_filme
            end in
          ler_filmes resto (titulos ++ [titulo]) (descricoes ++ [descricao])
      end
  end.

(** [processar_filmes]. *)
Definition processar_filmes (diretorio_entrada caminho_saida : string)
  : conv unit :=
  cprint (NotaCabecalho "🎬 PROCESSANDO FILMES") ;;~
  let arquivos_txt := listar diretorio_entrada "*.txt" in
  match arquivos_txt with
  | [] => cprint (NotaTexto "⚠️  Nenhum arquivo TXT encontrado!")
  | _ :: _ =>
      lidos <~~ ler_filmes arquivos_txt [] [] ;;
      let (titulos, descricoes) := lidos in
      cprint (NotaTotalFilmes (length titulos)) ;;~
      match descricoes with
      | [] => cprint (NotaTexto "⚠️  Nenhuma descrição foi extraída!")
      | _ :: _ =>
          embeddings <~~ gerar_embeddings descricoes ;;
          let dados := dados_filmes titulos descricoes embeddings in
          salvar_embeddings dados caminho_saida
      end
  end.

End Conversor.

(** ** Notions used to state properties of the converter *)

(** A text that is not empty and has no white space at either end. *)
Definition limpa (s : texto) : Prop := s <> [] /\ strip s = s.

(** The truth value of a [str]. *)
Definition nao_vazio (s : texto) : bool :=
  match s with
  | [] => false
  | _ :: _ => true
  end.

(** A question and its answer as a formatted FAQ holds them: the lines of
    the question, of which the first is numbered and only the last ends in a
    question mark, and the lines of the answer, none of which is numbered. *)
Definition bloco_bem_formado (digito : N -> bool)
  (bloco : list texto * list texto) : Prop :=
  (exists inicio fim,
      fst bloco = inicio ++ [fim]
      /\ Forall (fun l => endswith interrogacao l = false) inicio
      /\ endswith interrogacao fim = true)
  /\ padrao_numero digito (hd [] (fst bloco)) = true
  /\ snd bloco <> []
  /\ Forall (fun l => padrao_numero digito l = false) (snd bloco)
  /\ Forall (fun l => limpa l /\ ~ In quebra l) (fst bloco ++ snd bloco).

(** The lines of a formatted FAQ: a title and the blocks. *)
Definition linhas_do_faq (titulo : texto)
  (blocos : list (list texto * list texto)) : list texto :=
  titulo :: flat_map (fun bloco => fst bloco ++ snd bloco) blocos.

(** A trace of the converter in which nothing but printing happens. *)
Definition so_imprime (eventos : list efeito) : Prop :=
  forall e, In e eventos -> exists n, e = EfPrint n.

(** ** Data for the examples of the converter *)

Module ExemplosConversor.

#[local] Open Scope string_scope.

(** The ASCII digits. *)
Definition digito_ascii (c : N) : bool := ((48 <=? c) && (c <=? 57))%N.

(** A FAQ of one question, the answer on two lines. *)
Definition bloco1 : list texto * list texto :=
  ([Exemplos.pontos "1. Como abrir"; Exemplos.pontos "a conta?"],
   [Exemplos.pontos "Pelo aplicativo."; Exemplos.pontos "Ou na agencia."]).

Definition faq1 : texto :=
  join [quebra] (linhas_do_faq (Exemplos.pontos "FAQ do banco") [bloco1]).

(** A directory of two films, the second of one line, and one of a FAQ. *)
Definition alien : Path :=
  {| str := "dados/filmes/alien.txt";
     name := Exemplos.pontos "alien.txt";
     stem := Exemplos.pontos "alien" |}.

Definition brazil : Path :=
  {| str := "dados/filmes/brazil.txt";
     name := Exemplos.pontos "brazil.txt";
     stem := Exemplos.pontos "brazil" |}.

Definition banco : Path :=
  {| str := "dados/faq/banco.pdf";
     name := Exemplos.pontos "banco.pdf";
     stem := Exemplos.pontos "banco" |}.

Definition listar_dados (diretorio padrao : string) : list Path :=
  if String.eqb diretorio "dados/filmes" && String.eqb padrao "*.txt"
  then [alien; brazil]
  else if String.eqb diretorio "dados/faq" && String.eqb padrao "*.pdf"
  then [banco]
  else [].

Definition ler_txt_dados (caminho : string) : resultado texto :=
  if String.eqb caminho "dados/filmes/alien.txt"
  then Retorna (Exemplos.pontos "Alien"
                  ++ quebra
                     :: Exemplos.pontos "Uma nave encontra um passageiro. ")%list
  else if String.eqb caminho "dados/filmes/brazil.txt"
  then Retorna (Exemplos.pontos "Brazil")
  else Levanta (Exc "FileNotFoundError").

Definition ler_pdf_dados (caminho : string) : resultado (list texto) :=
  if String.eqb caminho "dados/faq/banco.pdf"
  then Retorna [faq1]
  else Levanta (Exc "FileNotFoundError").

(** A disk that accepts every file. *)
Definition json_dump_ok (dados : json) (caminho : string) : resultado unit :=
  Retorna tt.

(** The file of films the converter writes on these data. *)
Definition filmes_salvos : json :=
  dados_filmes
    [Exemplos.pontos "Alien"; Exemplos.pontos "Brazil"]
    [Exemplos.pontos "Uma nave encontra um passageiro.";
     Exemplos.pontos "Brazil"]
    [[3; 4]; [3; 4]].

(** A file system and a parser that hold that file. *)
Definition abrir_filmes (caminho : string) : resultado string :=
  if String.eqb caminho "embeddings/filmes/filmes_embeddings.json"
  then Retorna "filmes"
  else Levanta (Exc "FileNotFoundError").

Definition json_load_filmes (arquivo : string) : resultado json :=
  if String.eqb arquivo "filmes"
  then Retorna filmes_salvos
  else Levanta (Exc "JSONDecodeError").

End ExemplosConversor.

(** ** Tactics for the runs of the converter *)

(** Case analysis on the place of a call of [json.dump] in a trace. *)
Ltac caca_dump H :=
  repeat
    (match type of H with
     | In _ (_ ++ _) => apply in_app_or in H; destruct H as [H|H]
     | In _ (_ :: _) => destruct H as [H|H]
     | In _ [] => destruct H
     | _ \/ _ => destruct H as [H|H]
     | False => destruct H
     | EfPrint _ = EfDump _ _ => discriminate H
     | EfEncode _ = EfDump _ _ => discriminate H
     end).

(** Unfolding of a run of the converter. *)
Ltac roda_conv :=
  unfold gerar_embeddings, salvar_embeddings;
  unfold cprint, cemite, celeva, cret;
  repeat (unfold cliga; cbn [fst snd app]);
  cbn [fst snd app].
(** * Properties *)

(** ** Inner products and norms *)

Lemma dot_div_escalar (u v : vetor) (a b : R) :
  dot (div_escalar u a) (div_escalar v b) = dot u v / (a * b).
Proof.
  revert v; induction u as [|x u IH]; intros [|y v]; simpl;
    try (unfold Rdiv; ring).
  rewrite IH. unfold Rdiv. rewrite Rinv_mult. ring.
Qed.

Lemma normalizar_embeddings_linhas (embeddings : matriz) :
  embeddings <> [] ->
  normalizar_embeddings embeddings
  = Retorna (map (fun v => div_escalar v (norm v)) embeddings).
Proof.
  intros Hne. unfold normalizar_embeddings.
  destruct embeddings as [|v m]; [contradiction|]. f_equal.
  generalize (v :: m). intros l. induction l as [|w l IH]; simpl; [reflexivity|].
  rewrite IH. reflexivity.
Qed.

(** ** The stable insertion sort *)

Section OrdenarCorreto.

Context {A : Type}.
Variable menor : A -> A -> bool.

Hypothesis menor_assimetrico :
  forall a b, menor a b = true -> menor b a = false.
Hypothesis nao_depois_trans :
  forall a b c,
    nao_depois menor a b -> nao_depois menor b c -> nao_depois menor a c.

Lemma insere_perm (x : A) (l : list A) :
  Permutation (insere menor x l) (x :: l).
Proof.
  induction l as [|y r IH]; simpl; [reflexivity|].
  destruct (menor y x); [|reflexivity].
  rewrite IH. apply perm_swap.
Qed.

Lemma ordenar_perm (l : list A) : Permutation (ordenar menor l) l.
Proof.
  induction l as [|x r IH]; simpl; [reflexivity|].
  rewrite insere_perm. now constructor.
Qed.

Lemma insere_sorted (x : A) (l : list A) :
  StronglySorted (nao_depois menor) l ->
  StronglySorted (nao_depois menor) (insere menor x l).
Proof.
  induction 1 as [|y r Hs IH Hall]; simpl.
  - constructor; constructor.
  - destruct (menor y x) eqn:Hyx.
    + constructor; [exact IH|].
      eapply Permutation_Forall; [symmetry; apply insere_perm|].
      constructor; [|exact Hall].
      apply menor_assimetrico, Hyx.
    + constructor; [constructor; assumption|].
      constructor; [exact Hyx|].
      eapply Forall_impl; [|exact Hall].
      intros z Hz. eapply nao_depois_trans; [exact Hyx|exact Hz].
Qed.

Lemma ordenar_sorted (l : list A) :
  StronglySorted (nao_depois menor) (ordenar menor l).
Proof.
  induction l as [|x r IH]; simpl; [constructor|].
  apply insere_sorted, IH.
Qed.

End OrdenarCorreto.

Lemma Rltb_true (x y : R) : Rltb x y = true <-> x < y.
Proof. unfold Rltb. destruct (Rlt_dec x y); split; intros; try lra; congruence. Qed.

Lemma Rltb_false (x y : R) : Rltb x y = false <-> y <= x.
Proof. unfold Rltb. destruct (Rlt_dec x y); split; intros; try lra; congruence. Qed.

Lemma sorted_impl {A : Type} (rel rel' : A -> A -> Prop) (l : list A) :
  (forall a b, rel a b -> rel' a b) ->
  StronglySorted rel l -> StronglySorted rel' l.
Proof.
  intros Himp. induction 1 as [|x r Hs IH Hall]; constructor; [exact IH|].
  eapply Forall_impl; [|exact Hall]. intros b. apply Himp.
Qed.

Lemma in_firstn {A : Type} (n : nat) (l : list A) (x : A) :
  In x (firstn n l) -> In x l.
Proof.
  intros H. rewrite <- (firstn_skipn n l). apply in_or_app. now left.
Qed.

Lemma in_skipn {A : Type} (n : nat) (l : list A) (x : A) :
  In x (skipn n l) -> In x l.
Proof.
  intros H. rewrite <- (firstn_skipn n l). apply in_or_app. now right.
Qed.

(** A sorted list cut in two: nothing in the front part comes after
    anything in the rest. *)
Lemma sorted_firstn_skipn {A : Type} (rel : A -> A -> Prop) (n : nat)
  (l : list A) :
  StronglySorted rel l ->
  forall a b, In a (firstn n l) -> In b (skipn n l) -> rel a b.
Proof.
  intros Hs. revert n. induction Hs as [|x r Hs IH Hall]; intros n a b Ha Hb.
  - destruct n; contradiction.
  - destruct n as [|n]; simpl in *; [contradiction|].
    destruct Ha as [<-|Ha].
    + rewrite Forall_forall in Hall. apply Hall.
      eapply in_skipn; exact Hb.
    + eapply IH; eassumption.
Qed.

Lemma sorted_firstn {A : Type} (rel : A -> A -> Prop) (n : nat) (l : list A) :
  StronglySorted rel l -> StronglySorted rel (firstn n l).
Proof.
  intros Hs. revert n. induction Hs as [|x r Hs IH Hall]; intros [|n]; simpl;
    try constructor.
  - apply IH.
  - rewrite Forall_forall in *. intros y Hy. apply Hall.
    eapply in_firstn; exact Hy.
Qed.

(** ** The index *)

Lemma length_pontuar (indice : Faiss.IndexFlatIP) (q : vetor) :
  length (Faiss.pontuar indice q) = length (Faiss.xb indice).
Proof.
  unfold Faiss.pontuar.
  rewrite length_combine, !length_map, length_seq. apply Nat.min_id.
Qed.

Lemma map_snd_pontuar (indice : Faiss.IndexFlatIP) (q : vetor) :
  map snd (Faiss.pontuar indice q)
  = map Z.of_nat (seq 0 (length (Faiss.xb indice))).
Proof.
  unfold Faiss.pontuar. generalize 0%nat.
  induction (Faiss.xb indice) as [|x r IH]; intros s; simpl; [reflexivity|].
  now rewrite IH.
Qed.

(** The score that stands beside a label is the inner product with the
    vector stored at that position. *)
Lemma in_pontuar (indice : Faiss.IndexFlatIP) (q : vetor) (s : R) (i : Z) :
  In (s, i) (Faiss.pontuar indice q) ->
  (0 <= i < Z.of_nat (length (Faiss.xb indice)))%Z
  /\ s = dot q (nth (Z.to_nat i) (Faiss.xb indice) []).
Proof.
  unfold Faiss.pontuar.
  assert (G : forall (l : matriz) (start : nat),
             In (s, i) (combine (map (dot q) l)
                                (map Z.of_nat (seq start (length l)))) ->
             (Z.of_nat start <= i < Z.of_nat (start + length l))%Z
             /\ s = dot q (nth (Z.to_nat i - start) l [])).
  { induction l as [|x r IH]; intros start Hin; simpl in Hin; [contradiction|].
    destruct Hin as [Heq|Hin].
    - inversion Heq; subst. split; [simpl; lia|].
      rewrite Nat2Z.id, Nat.sub_diag. reflexivity.
    - apply IH in Hin. destruct Hin as [Hr Hs]. split; [simpl; lia|].
      rewrite Hs.
      replace (Z.to_nat i - start)%nat with (S (Z.to_nat i - S start)) by lia.
      reflexivity. }
  intros Hin. apply G in Hin. simpl in Hin. rewrite Nat.sub_0_r in Hin.
  exact Hin.
Qed.

Lemma pontuar_in (indice : Faiss.IndexFlatIP) (q : vetor) (j : nat) :
  (j < length (Faiss.xb indice))%nat ->
  In (dot q (nth j (Faiss.xb indice) []), Z.of_nat j)
     (Faiss.pontuar indice q).
Proof.
  unfold Faiss.pontuar.
  assert (G : forall (l : matriz) (p start : nat),
             (p < length l)%nat ->
             In (dot q (nth p l []), Z.of_nat (start + p))
                (combine (map (dot q) l)
                         (map Z.of_nat (seq start (length l))))).
  { induction l as [|x r IH]; intros p start Hp; simpl in Hp; [lia|].
    destruct p as [|p']; cbn [nth length seq map combine In].
    - left. now rewrite Nat.add_0_r.
    - right. replace (start + S p')%nat with (S start + p')%nat by lia.
      apply IH. lia. }
  intros Hj. apply (G _ j 0%nat Hj).
Qed.

Lemma nodup_firstn {A : Type} (n : nat) (l : list A) :
  NoDup l -> NoDup (firstn n l).
Proof.
  intros Hnd. revert n. induction Hnd as [|x r Hx Hnd IH]; intros [|n]; simpl;
    try constructor.
  - intros Hin. apply Hx. eapply in_firstn; exact Hin.
  - apply IH.
Qed.

Lemma nodup_posicoes (n : nat) : NoDup (map Z.of_nat (seq 0 n)).
Proof.
  apply Finite.Injective_map_NoDup; [|apply seq_NoDup].
  intros a b Hab. now apply Nat2Z.inj.
Qed.

Section LinhaDoIndice.

Variable ordena : list (R * Z) -> list (R * Z).
Hypothesis ordena_ok : Faiss.ordenacao_decrescente ordena.

Variable indice : Faiss.IndexFlatIP.
Variable q : vetor.

#[local] Abbreviation N := (length (Faiss.xb indice)).
#[local] Abbreviation todos := (ordena (Faiss.pontuar indice q)).

Lemma length_todos : length todos = N.
Proof.
  destruct (ordena_ok (Faiss.pontuar indice q)) as [Hp _].
  rewrite (Permutation_length Hp). apply length_pontuar.
Qed.

Lemma length_melhores (k : nat) : length (firstn k todos) = Nat.min k N.
Proof. rewrite length_firstn, length_todos. reflexivity. Qed.

Lemma length_linha (k : nat) : length (Faiss.linha ordena indice k q) = k.
Proof.
  unfold Faiss.linha.
  rewrite length_app, repeat_length, length_melhores. lia.
Qed.

Lemma firstn_linha (k : nat) :
  firstn (Nat.min k N) (Faiss.linha ordena indice k q) = firstn k todos.
Proof.
  unfold Faiss.linha.
  rewrite firstn_app, length_melhores, Nat.sub_diag. simpl.
  rewrite app_nil_r. apply firstn_all2. rewrite length_melhores. lia.
Qed.

Lemma skipn_linha (k : nat) :
  skipn (Nat.min k N) (Faiss.linha ordena indice k q)
  = repeat Faiss.ausente (k - Nat.min k N).
Proof.
  unfold Faiss.linha.
  rewrite skipn_app, length_melhores, Nat.sub_diag. simpl.
  rewrite skipn_all2 by (rewrite length_melhores; lia). reflexivity.
Qed.

Lemma melhores_sorted (k : nat) :
  StronglySorted Faiss.decrescente (firstn k todos).
Proof.
  apply sorted_firstn. apply (ordena_ok (Faiss.pontuar indice q)).
Qed.

Lemma todos_labels : Permutation (map snd todos) (map Z.of_nat (seq 0 N)).
Proof.
  rewrite <- (map_snd_pontuar indice q).
  apply Permutation_map. apply (ordena_ok (Faiss.pontuar indice q)).
Qed.

Lemma melhores_nodup (k : nat) : NoDup (map snd (firstn k todos)).
Proof.
  rewrite <- firstn_map. apply nodup_firstn.
  eapply Permutation_NoDup; [symmetry; apply todos_labels|].
  apply nodup_posicoes.
Qed.

Lemma in_todos (s : R) (i : Z) :
  In (s, i) todos ->
  (0 <= i < Z.of_nat N)%Z /\ s = dot q (nth (Z.to_nat i) (Faiss.xb indice) []).
Proof.
  intros Hin. apply in_pontuar.
  eapply Permutation_in; [apply (ordena_ok (Faiss.pontuar indice q))|].
  exact Hin.
Qed.

(** A stored vector that is not among the [k] results scores no more than
    any of them. *)
Lemma melhores_top (k j : nat) (s : R) :
  (j < N)%nat ->
  ~ In (Z.of_nat j) (map snd (firstn k todos)) ->
  In s (map fst (firstn k todos)) ->
  dot q (nth j (Faiss.xb indice) []) <= s.
Proof.
  intros Hj Hout Hs.
  apply in_map_iff in Hs. destruct Hs as [[s' i] [Hfst Hin]].
  simpl in Hfst. subst s'.
  assert (Hall : In (dot q (nth j (Faiss.xb indice) []), Z.of_nat j) todos).
  { eapply Permutation_in;
      [symmetry; apply (ordena_ok (Faiss.pontuar indice q))|].
    apply pontuar_in. exact Hj. }
  rewrite <- (firstn_skipn k todos) in Hall. apply in_app_or in Hall.
  destruct Hall as [Hfront|Hrest].
  - exfalso. apply Hout. apply in_map_iff.
    exists (dot q (nth j (Faiss.xb indice) []), Z.of_nat j). now split.
  - pose proof (sorted_firstn_skipn Faiss.decrescente k todos
                  (proj2 (ordena_ok (Faiss.pontuar indice q))) _ _ Hin Hrest)
      as Hrel.
    exact Hrel.
Qed.

End LinhaDoIndice.

(** ** Building the index and searching it *)

Lemma length_div_escalar (v : vetor) (n : R) :
  length (div_escalar v n) = length v.
Proof. apply length_map. Qed.

Lemma criar_indice_faiss_inv (embeddings : matriz)
  (indice : Faiss.IndexFlatIP) :
  snd (criar_indice_faiss embeddings) = Retorna indice ->
  embeddings <> []
  /\ Faiss.d indice = length (hd [] embeddings)
  /\ Faiss.xb indice = map (fun v => div_escalar v (norm v)) embeddings.
Proof.
  unfold criar_indice_faiss.
  destruct embeddings as [|v m]; [discriminate|].
  rewrite normalizar_embeddings_linhas by discriminate.
  unfold pliga, eleva, emite, shape1, Faiss.add, Faiss.novo.
  cbn [fst snd Faiss.d Faiss.xb app hd].
  match goal with |- context [if ?c then _ else _] => destruct c end;
    cbn [fst snd]; intros H; inversion H; subst; clear H.
  split; [discriminate|]. split; reflexivity.
Qed.

Lemma buscar_similares_run (encode : texto -> vetor)
  (ordena : list (R * Z) -> list (R * Z)) (query : texto)
  (indice : Faiss.IndexFlatIP) (k : nat) :
  length (encode query) = Faiss.d indice ->
  (1 <= k)%nat ->
  let q := div_escalar (encode query) (norm (encode query)) in
  buscar_similares encode ordena query indice k
  = ([EvEncode query; EvSearch [q] k],
     Retorna (map fst (Faiss.linha ordena indice k q),
              map snd (Faiss.linha ordena indice k q))).
Proof.
  intros Hd Hk q. subst q. unfold buscar_similares.
  rewrite normalizar_embeddings_linhas by discriminate.
  unfold Faiss.search, Faiss.dimensao_ok.
  cbn [pliga eleva emite pret fst snd app map forallb].
  rewrite length_div_escalar, Hd, Nat.eqb_refl.
  replace (0 <? k)%nat with true by (symmetry; apply Nat.ltb_lt; lia).
  reflexivity.
Qed.

(** ** The loops of the anomaly mode *)

Lemma fold_left_acrescenta {A B : Type} (f : A -> list B) (l : list A)
  (inicio : list B) :
  fold_left (fun acc x => acc ++ f x) l inicio = inicio ++ flat_map f l.
Proof.
  revert inicio. induction l as [|x r IH]; intros inicio; simpl.
  - now rewrite app_nil_r.
  - rewrite IH. now rewrite app_assoc.
Qed.

Lemma fold_left_ext {A B : Type} (f g : B -> A -> B) (l : list A) (b : B) :
  (forall acc x, f acc x = g acc x) -> fold_left f l b = fold_left g l b.
Proof.
  intros Hfg. revert b. induction l as [|x r IH]; intros b; simpl;
    [reflexivity|].
  rewrite Hfg. apply IH.
Qed.

Lemma flat_map_unitario {A B : Type} (f : A -> B) (l : list A) :
  flat_map (fun x => [f x]) l = map f l.
Proof. induction l as [|x r IH]; simpl; [reflexivity|]. now rewrite IH. Qed.

Lemma flat_map_filtra {A B : Type} (p : A -> bool) (f : A -> B)
  (l : list A) :
  flat_map (fun x => if p x then [f x] else []) l = map f (filter p l).
Proof.
  induction l as [|x r IH]; simpl; [reflexivity|].
  rewrite IH. destruct (p x); reflexivity.
Qed.

Lemma filter_depois (i n inicio : nat) :
  (i < inicio)%nat ->
  filter (fun j => negb (Nat.eqb i j)) (seq inicio n) = seq inicio n.
Proof.
  revert inicio. induction n as [|n IH]; intros inicio Hi; simpl;
    [reflexivity|].
  destruct (Nat.eqb i inicio) eqn:E; [apply Nat.eqb_eq in E; lia|].
  simpl. now rewrite IH by lia.
Qed.

(** The positions other than [i]. *)
Lemma filter_outros (i n inicio : nat) :
  (inicio <= i < inicio + n)%nat ->
  filter (fun j => negb (Nat.eqb i j)) (seq inicio n)
  = seq inicio (i - inicio) ++ seq (S i) (inicio + n - S i).
Proof.
  revert inicio. induction n as [|n IH]; intros inicio Hi; [lia|].
  simpl. destruct (Nat.eqb i inicio) eqn:E.
  - apply Nat.eqb_eq in E. subst inicio. simpl.
    rewrite Nat.sub_diag. simpl.
    replace (i + S n - S i)%nat with n by lia.
    apply filter_depois. lia.
  - apply Nat.eqb_neq in E. simpl.
    rewrite IH by lia.
    replace (i - inicio)%nat with (S (i - S inicio)) by lia.
    cbn [seq app]. do 3 f_equal. lia.
Qed.

Lemma similaridades_de_outros (embeddings : matriz) (total i : nat) :
  (i < total)%nat ->
  similaridades_de embeddings total i
  = map (fun j => calcular_similaridade_cosseno
                    (nth i embeddings []) (nth j embeddings []))
        (seq 0 i ++ seq (S i) (total - S i)).
Proof.
  intros Hi. unfold similaridades_de.
  rewrite (fold_left_ext _
    (fun acc j => acc ++ (if negb (Nat.eqb i j)
                          then [calcular_similaridade_cosseno
                                  (nth i embeddings []) (nth j embeddings [])]
                          else []))).
  - rewrite fold_left_acrescenta. simpl.
    rewrite flat_map_filtra, filter_outros by lia.
    now rewrite Nat.sub_0_r.
  - intros acc j. destruct (negb (Nat.eqb i j)); [reflexivity|].
    now rewrite app_nil_r.
Qed.

Lemma length_similaridades_de (embeddings : matriz) (total i : nat) :
  (i < total)%nat ->
  length (similaridades_de embeddings total i) = (total - 1)%nat.
Proof.
  intros Hi. rewrite similaridades_de_outros by exact Hi.
  rewrite length_map, length_app, !length_seq. lia.
Qed.

Lemma scores_medios_map (embeddings : matriz) :
  scores_medios embeddings
  = map (fun i => (i, mean (similaridades_de embeddings
                              (length embeddings) i)))
        (seq 0 (length embeddings)).
Proof.
  unfold scores_medios. rewrite fold_left_acrescenta. simpl.
  apply flat_map_unitario.
Qed.

Lemma map_fst_scores_medios (embeddings : matriz) :
  map fst (scores_medios embeddings) = seq 0 (length embeddings).
Proof.
  rewrite scores_medios_map, map_map. simpl. apply map_id.
Qed.

Lemma scores_ordenados_perm (embeddings : matriz) :
  Permutation (scores_ordenados embeddings) (scores_medios embeddings).
Proof. apply ordenar_perm. Qed.

Lemma Rltb_assimetrico {A : Type} (chave : A -> R) (a b : A) :
  Rltb (chave a) (chave b) = true -> Rltb (chave b) (chave a) = false.
Proof. intros H. apply Rltb_true in H. apply Rltb_false. lra. Qed.

Lemma Rltb_nao_depois_trans {A : Type} (chave : A -> R) (a b c : A) :
  nao_depois (fun x y => Rltb (chave x) (chave y)) a b ->
  nao_depois (fun x y => Rltb (chave x) (chave y)) b c ->
  nao_depois (fun x y => Rltb (chave x) (chave y)) a c.
Proof.
  unfold nao_depois. intros Hab Hbc.
  apply Rltb_false in Hab. apply Rltb_false in Hbc. apply Rltb_false. lra.
Qed.

Lemma scores_ordenados_sorted (embeddings : matriz) :
  StronglySorted (fun a b => snd a <= snd b) (scores_ordenados embeddings).
Proof.
  unfold scores_ordenados.
  eapply sorted_impl;
    [|apply (ordenar_sorted (fun x y : nat * R => Rltb (snd x) (snd y)))].
  - intros a b Hab. apply Rltb_false in Hab. exact Hab.
  - intros a b. apply (Rltb_assimetrico snd).
  - intros a b c. apply (Rltb_nao_depois_trans snd).
Qed.

Lemma norm_34 : norm [3; 4] = 5.
Proof.
  unfold norm. simpl.
  replace (3 * 3 + (4 * 4 + 0)) with (5 * 5) by ring.
  apply sqrt_square. lra.
Qed.

Lemma norm_zeros : norm [0; 0] = 0.
Proof.
  unfold norm. simpl.
  replace (0 * 0 + (0 * 0 + 0)) with 0 by ring.
  apply sqrt_0.
Qed.

(** ** Normalisation *)

(** C5, as the code has it.  [normalizar_embeddings] has no guard for a
    zero norm: on every non-empty array it returns the rows divided by
    their norms, a row of norm zero included (its components are then
    quotients by zero), and the only exception it raises is the axis error
    of the empty array. *)
Theorem C5_normalizar_embeddings_sem_guarda (embeddings : matriz) :
  (forall e, normalizar_embeddings embeddings = Levanta e ->
             embeddings = [] /\ e = AxisError)
  /\ (forall v resto, embeddings = v :: resto ->
        normalizar_embeddings embeddings
        = Retorna (map (fun w => div_escalar w (norm w)) embeddings)).
Proof.
  split.
  - intros e He. destruct embeddings as [|v m]; simpl in He.
    + inversion He. now split.
    + discriminate.
  - intros v resto ->. apply normalizar_embeddings_linhas. discriminate.
Qed.

(** C5 fails on the code: the array with the single row [[0, 0]], whose
    norm is zero, is normalised without any error. *)
Lemma C5_counterexample :
  norm [0; 0] = 0
  /\ normalizar_embeddings [[0; 0]]
     = Retorna [[0 / norm [0; 0]; 0 / norm [0; 0]]]
  /\ normalizar_embeddings [[0; 0]]
     <> Levanta (Exc "DegenerateVectorError").
Proof.
  split; [apply norm_zeros|]. split; [reflexivity|discriminate].
Qed.

(** ** Top-k search *)

Lemma ordena_estavel_ok : Faiss.ordenacao_decrescente Faiss.ordena_estavel.
Proof.
  intros l. unfold Faiss.ordena_estavel. split; [apply ordenar_perm|].
  eapply sorted_impl;
    [|apply (ordenar_sorted (fun p1 p2 : R * Z => Rltb (fst p2) (fst p1)))].
  - intros a b Hab. unfold nao_depois in Hab. apply Rltb_false in Hab.
    exact Hab.
  - intros a b Hab. apply Rltb_true in Hab. apply Rltb_false. lra.
  - intros a b c Hab Hbc. unfold nao_depois in *.
    apply Rltb_false in Hab. apply Rltb_false in Hbc. apply Rltb_false. lra.
Qed.

Lemma sorted_map_fst (l : list (R * Z)) :
  StronglySorted Faiss.decrescente l ->
  StronglySorted (fun a b => b <= a) (map fst l).
Proof.
  induction 1 as [|x r Hs IH Hall]; simpl; constructor; [exact IH|].
  rewrite Forall_forall in *. intros s Hs'.
  apply in_map_iff in Hs'. destruct Hs' as [p [<- Hp]]. apply (Hall p Hp).
Qed.

Lemma map_repeat {A B : Type} (f : A -> B) (a : A) (n : nat) :
  map f (repeat a n) = repeat (f a) n.
Proof. induction n as [|n IH]; simpl; [reflexivity|]. now rewrite IH. Qed.

(** Two rearrangements of one list by decreasing score are equal when no
    two of its entries have the same score. *)
Lemma ordenacao_unica (l1 l2 : list (R * Z)) :
  Permutation l1 l2 ->
  StronglySorted Faiss.decrescente l1 ->
  StronglySorted Faiss.decrescente l2 ->
  (forall a b, In a l1 -> In b l1 -> fst a = fst b -> a = b) ->
  l1 = l2.
Proof.
  revert l2. induction l1 as [|a t1 IH]; intros l2 Hp Hs1 Hs2 Hinj.
  - apply Permutation_nil in Hp. now subst.
  - destruct l2 as [|b t2];
      [apply Permutation_sym, Permutation_nil in Hp; discriminate|].
    apply StronglySorted_inv in Hs1. destruct Hs1 as [Hs1 Ha].
    apply StronglySorted_inv in Hs2. destruct Hs2 as [Hs2 Hb].
    rewrite Forall_forall in Ha, Hb.
    assert (Hba : In b (a :: t1))
      by (eapply Permutation_in; [symmetry; exact Hp|now left]).
    assert (Hab : In a (b :: t2))
      by (eapply Permutation_in; [exact Hp|now left]).
    assert (Heq : a = b).
    { apply Hinj; [now left|exact Hba|].
      apply Rle_antisym.
      - destruct Hab as [->|Hab]; [lra|]. apply (Hb a Hab).
      - destruct Hba as [->|Hba]; [lra|]. apply (Ha b Hba). }
    subst b. f_equal. apply IH; try assumption.
    + eapply Permutation_cons_inv. exact Hp.
    + intros x y Hx Hy. apply Hinj; now right.
Qed.

Lemma norm_10 : norm [1; 0] = 1.
Proof.
  unfold norm. simpl.
  replace (1 * 1 + (0 * 0 + 0)) with 1 by ring. apply sqrt_1.
Qed.

Lemma norm_01 : norm [0; 1] = 1.
Proof.
  unfold norm. simpl.
  replace (0 * 0 + (1 * 1 + 0)) with 1 by ring. apply sqrt_1.
Qed.

(** ** Vectors and orderings of the examples *)

Lemma norm_nao_nula (v : vetor) : 0 < dot v v -> norm v <> 0.
Proof.
  intros H. unfold norm. pose proof (sqrt_lt_R0 _ H) as Hs. lra.
Qed.

Lemma componente_segura_pos (x : R) :
  1 / 1000000000000 <= x <= 1000000000000 -> componente_segura x.
Proof. intros H. right. rewrite Rabs_pos_eq by lra. exact H. Qed.

Lemma componente_segura_0 : componente_segura 0.
Proof. now left. Qed.

Lemma componente_segura_1 : componente_segura 1.
Proof. apply componente_segura_pos. lra. Qed.

Lemma nao_degenerado_34 : nao_degenerado [3; 4].
Proof.
  split.
  - apply Forall_cons; [apply componente_segura_pos; lra|].
    apply Forall_cons; [apply componente_segura_pos; lra|].
    apply Forall_nil.
  - apply norm_nao_nula. simpl. lra.
Qed.

Lemma nao_degenerado_par (x y : R) :
  componente_segura x -> componente_segura y -> 0 < x * x + y * y ->
  nao_degenerado [x; y].
Proof.
  intros Hx Hy Hn. split.
  - apply Forall_cons; [exact Hx|].
    apply Forall_cons; [exact Hy|]. apply Forall_nil.
  - apply norm_nao_nula. simpl. lra.
Qed.

Lemma colecao2_nao_degenerada : Forall nao_degenerado Exemplos.colecao2.
Proof.
  apply Forall_cons;
    [apply nao_degenerado_par;
     [apply componente_segura_1|apply componente_segura_0|lra]|].
  apply Forall_cons;
    [apply nao_degenerado_par;
     [apply componente_segura_0|apply componente_segura_1|lra]|].
  apply Forall_nil.
Qed.

Lemma colecao4_regular : colecao_regular Exemplos.colecao4.
Proof.
  split.
  - apply Forall_cons;
      [apply nao_degenerado_par;
       [apply componente_segura_1|apply componente_segura_0|lra]|].
    apply Forall_cons;
      [apply nao_degenerado_par;
       [apply componente_segura_0|apply componente_segura_1|lra]|].
    apply Forall_cons;
      [apply nao_degenerado_par;
       [apply componente_segura_1|apply componente_segura_1|lra]|].
    apply Forall_cons;
      [apply nao_degenerado_par;
       [apply componente_segura_1|apply componente_segura_pos; lra|lra]|].
    apply Forall_nil.
  - repeat (apply Forall_cons; [reflexivity|]). apply Forall_nil.
Qed.

Lemma ordena_invertida_ok : Faiss.ordenacao_decrescente ordena_invertida.
Proof.
  intros l. unfold ordena_invertida.
  destruct (ordena_estavel_ok (rev l)) as [Hp Hs].
  split; [|exact Hs].
  rewrite Hp. symmetry. apply Permutation_rev.
Qed.

(** The search of two equal stored vectors under that ordering: the
    later one comes first. *)
Lemma busca_em_dois_iguais :
  exists s,
    snd (buscar_similares Exemplos.encode_fixo ordena_invertida
           (Exemplos.pontos "ola") indice_igual 2)
    = Retorna ([s; s], [1%Z; 0%Z]).
Proof.
  pose proof (buscar_similares_run Exemplos.encode_fixo ordena_invertida
                (Exemplos.pontos "ola") indice_igual 2 eq_refl
                (le_S _ _ (le_n 1))) as Hrun.
  cbv zeta in Hrun. rewrite Hrun. clear Hrun. cbn [snd].
  set (q := div_escalar (Exemplos.encode_fixo (Exemplos.pontos "ola"))
                        (norm (Exemplos.encode_fixo (Exemplos.pontos "ola")))).
  set (s := dot q (div_escalar [1; 0] (norm [1; 0]))).
  exists s.
  assert (Hscores : Faiss.pontuar indice_igual q = [(s, 0%Z); (s, 1%Z)])
    by reflexivity.
  unfold Faiss.linha. rewrite Hscores.
  unfold ordena_invertida, Faiss.ordena_estavel.
  cbn [rev app ordenar insere fst snd].
  replace (Rltb s s) with false
    by (symmetry; apply Rltb_false; lra).
  reflexivity.
Qed.

(** C1, as the code has it.  On an index built from [N] vectors, and for
    [k >= 1], [buscar_similares] returns [k] scores and [k] labels.  The
    first [min k N] labels are distinct positions of stored vectors, and
    the scores beside them decrease; the other [k - min k N] entries are
    the filler of the index: the label [-1] with the lowest score.  The
    order among equal scores is the one of the ordering inside the index.
    The stored vectors and the embedding of the query are [nao_degenerado],
    so that every score is a number. *)
Theorem C1_buscar_similares_top_k
  (encode : texto -> vetor) (ordena : list (R * Z) -> list (R * Z))
  (embeddings : matriz) (indice : Faiss.IndexFlatIP) (query : texto)
  (k : nat) :
  Faiss.ordenacao_decrescente ordena ->
  (1 <= k)%nat ->
  Forall nao_degenerado embeddings ->
  nao_degenerado (encode query) ->
  snd (criar_indice_faiss embeddings) = Retorna indice ->
  length (encode query) = Faiss.d indice ->
  let n := Nat.min k (length embeddings) in
  exists scores indices,
    snd (buscar_similares encode ordena query indice k)
    = Retorna (scores, indices)
    /\ length scores = k /\ length indices = k
    /\ StronglySorted (fun a b => b <= a) (firstn n scores)
    /\ NoDup (firstn n indices)
    /\ Forall (fun i => (0 <= i < Z.of_nat (length embeddings))%Z)
              (firstn n indices)
    /\ skipn n scores = repeat Faiss.lowest (k - n)
    /\ skipn n indices = repeat (-1)%Z (k - n).
Proof.
  intros Hord Hk _ _ Hidx Hd n.
  apply criar_indice_faiss_inv in Hidx. destruct Hidx as [Hne [Hdim Hxb]].
  assert (HN : length (Faiss.xb indice) = length embeddings)
    by (rewrite Hxb; apply length_map).
  pose proof (buscar_similares_run encode ordena query indice k Hd Hk) as Hrun.
  cbv zeta in Hrun.
  set (q := div_escalar (encode query) (norm (encode query))) in *.
  exists (map fst (Faiss.linha ordena indice k q)),
         (map snd (Faiss.linha ordena indice k q)).
  rewrite Hrun. cbn [snd].
  assert (Hfront : firstn n (Faiss.linha ordena indice k q)
                   = firstn k (ordena (Faiss.pontuar indice q))).
  { unfold n. rewrite <- HN. apply firstn_linha. exact Hord. }
  assert (Hback : skipn n (Faiss.linha ordena indice k q)
                  = repeat Faiss.ausente (k - n)).
  { unfold n. rewrite <- HN. apply skipn_linha. exact Hord. }
  split; [reflexivity|].
  split; [rewrite length_map; apply length_linha; exact Hord|].
  split; [rewrite length_map; apply length_linha; exact Hord|].
  rewrite !firstn_map, !skipn_map, Hfront, Hback.
  split; [apply sorted_map_fst, melhores_sorted, Hord|].
  split; [apply melhores_nodup, Hord|].
  split.
  { apply Forall_forall. intros i Hi. apply in_map_iff in Hi.
    destruct Hi as [[s i'] [Hi' Hin]]. cbn [snd] in Hi'. subst i'.
    apply in_firstn in Hin. apply (in_todos ordena Hord) in Hin.
    rewrite HN in Hin. apply Hin. }
  split; rewrite map_repeat; reflexivity.
Qed.

Lemma C1_witness :
  exists scores indices,
    snd (buscar_similares Exemplos.encode_fixo Faiss.ordena_estavel
           (Exemplos.pontos "ola") Exemplos.indice2 3)
    = Retorna (scores, indices)
    /\ length scores = 3%nat /\ length indices = 3%nat
    /\ StronglySorted (fun a b => b <= a) (firstn 2 scores)
    /\ NoDup (firstn 2 indices)
    /\ skipn 2 indices = [(-1)%Z].
Proof.
  destruct (C1_buscar_similares_top_k Exemplos.encode_fixo
              Faiss.ordena_estavel Exemplos.colecao2 Exemplos.indice2
              (Exemplos.pontos "ola") 3 ordena_estavel_ok
              (le_S _ _ (le_S _ _ (le_n 1)))
              colecao2_nao_degenerada nao_degenerado_34 eq_refl eq_refl)
    as [scores [indices [Hrun [Hls [Hli [Hs [Hnd [_ [_ Hfill]]]]]]]]].
  exists scores, indices. repeat split; assumption.
Defined.

(** The search of the two-item collection with [k = 3], in full. *)
Lemma busca_em_dois_itens :
  buscar_similares Exemplos.encode_fixo Faiss.ordena_estavel
    (Exemplos.pontos "ola") Exemplos.indice2 3
  = ([EvEncode (Exemplos.pontos "ola");
      EvSearch [div_escalar [3; 4] (norm [3; 4])] 3],
     Retorna ([4 / 5; 3 / 5; Faiss.lowest], [1%Z; 0%Z; (-1)%Z])).
Proof.
  pose proof (buscar_similares_run Exemplos.encode_fixo Faiss.ordena_estavel
                (Exemplos.pontos "ola") Exemplos.indice2 3 eq_refl
                (le_S _ _ (le_S _ _ (le_n 1)))) as Hrun.
  cbv zeta in Hrun. rewrite Hrun. clear Hrun.
  change (Exemplos.encode_fixo (Exemplos.pontos "ola")) with [3; 4].
  set (q := div_escalar [3; 4] (norm [3; 4])).
  assert (Hscores : Faiss.pontuar Exemplos.indice2 q
                    = [(3 / 5, 0%Z); (4 / 5, 1%Z)]).
  { unfold Faiss.pontuar, Exemplos.indice2, Exemplos.colecao2, q.
    cbn [Faiss.xb map length seq combine Z.of_nat div_escalar dot].
    rewrite norm_10, norm_01, norm_34.
    replace (3 / 5 * (1 / 1) + (4 / 5 * (0 / 1) + 0)) with (3 / 5) by field.
    replace (3 / 5 * (0 / 1) + (4 / 5 * (1 / 1) + 0)) with (4 / 5) by field.
    reflexivity. }
  assert (Hsort : Faiss.ordena_estavel (Faiss.pontuar Exemplos.indice2 q)
                  = [(4 / 5, 1%Z); (3 / 5, 0%Z)]).
  { rewrite Hscores.
    destruct (ordena_estavel_ok [(3 / 5, 0%Z); (4 / 5, 1%Z)]) as [Hp Hs].
    apply ordenacao_unica.
    - rewrite Hp. apply perm_swap.
    - exact Hs.
    - repeat constructor; unfold Faiss.decrescente; cbn [fst]; lra.
    - intros a b Ha Hb Hab.
      apply (Permutation_in _ Hp) in Ha. apply (Permutation_in _ Hp) in Hb.
      cbn [In] in Ha, Hb.
      destruct Ha as [<-|[<-|[]]]; destruct Hb as [<-|[<-|[]]];
        cbn [fst] in Hab; try reflexivity; exfalso; lra. }
  unfold Faiss.linha. rewrite Hsort. reflexivity.
Qed.

(** C1 fails on the code in two ways.  With two stored vectors and
    [k = 3] the search returns three entries, not [min 3 2 = 2]: the third
    is the filler, with the label [-1].  And the code does not put equal
    scores in the order of insertion: it returns them as the index orders
    them, and with an ordering by decreasing score that takes equal scores
    off a heap, two equal stored vectors come back as [1, 0]. *)
Lemma C1_counterexample :
  (snd (criar_indice_faiss Exemplos.colecao2) = Retorna Exemplos.indice2
   /\ (exists scores,
         snd (buscar_similares Exemplos.encode_fixo Faiss.ordena_estavel
                (Exemplos.pontos "ola") Exemplos.indice2 3)
         = Retorna (scores, [1%Z; 0%Z; (-1)%Z])
         /\ length scores = 3%nat)
   /\ Nat.min 3 (length Exemplos.colecao2) = 2%nat)
  /\ (Faiss.ordenacao_decrescente ordena_invertida
      /\ snd (criar_indice_faiss colecao_igual) = Retorna indice_igual
      /\ exists s,
           snd (buscar_similares Exemplos.encode_fixo ordena_invertida
                  (Exemplos.pontos "ola") indice_igual 2)
           = Retorna ([s; s], [1%Z; 0%Z])).
Proof.
  split.
  - split; [reflexivity|]. split; [|reflexivity].
    eexists. rewrite busca_em_dois_itens. split; reflexivity.
  - split; [exact ordena_invertida_ok|]. split; [reflexivity|].
    exact busca_em_dois_iguais.
Qed.

(** ** Traces *)

Lemma in_pliga_l {A B : Type} (p : prog A) (f : A -> prog B) (e : evento) :
  In e (fst p) -> In e (fst (pliga p f)).
Proof.
  intros Hin. unfold pliga. destruct (snd p); cbn [fst]; [|exact Hin].
  apply in_or_app. now left.
Qed.

Lemma in_pliga_r {A B : Type} (p : prog A) (f : A -> prog B) (a : A)
  (e : evento) :
  snd p = Retorna a -> In e (fst (f a)) -> In e (fst (pliga p f)).
Proof.
  intros Hp Hin. unfold pliga. rewrite Hp. cbn [fst].
  apply in_or_app. now right.
Qed.

Lemma criar_indice_faiss_run (embeddings : matriz)
  (indice : Faiss.IndexFlatIP) :
  snd (criar_indice_faiss embeddings) = Retorna indice ->
  criar_indice_faiss embeddings
  = ([EvIndexFlatIP (Faiss.d indice); EvAdd (Faiss.xb indice)],
     Retorna indice).
Proof.
  unfold criar_indice_faiss.
  destruct embeddings as [|v m]; [discriminate|].
  rewrite normalizar_embeddings_linhas by discriminate.
  unfold pliga, eleva, emite, shape1, Faiss.add, Faiss.novo.
  cbn [fst snd Faiss.d Faiss.xb app hd].
  match goal with |- context [if ?c then _ else _] => destruct c end;
    cbn [fst snd]; intros H; inversion H; subst; clear H.
  reflexivity.
Qed.

(** ** Full ranking *)

(** C8.  In the film mode, when the query is not blank and [titulos] has
    as many entries as there are stored vectors, the search is run with
    [k = N] and the labels it returns are the positions [0 .. N-1], each
    exactly once.  The stored vectors and the embedding of the query are
    [nao_degenerado], so that every score is a number: a score that is NaN
    leaves its vector out of the results of the index. *)
Theorem C8_modo_filmes_permutacao
  (encode : texto -> vetor) (ordena : list (R * Z) -> list (R * Z))
  (dados : Dados) (digitado : texto) (indice : Faiss.IndexFlatIP) :
  Faiss.ordenacao_decrescente ordena ->
  Forall nao_degenerado (embeddings dados) ->
  nao_degenerado (encode (strip digitado)) ->
  strip digitado <> [] ->
  snd (criar_indice_faiss (embeddings dados)) = Retorna indice ->
  length (encode (strip digitado)) = Faiss.d indice ->
  len_campo dados "titulos" = Retorna (length (embeddings dados)) ->
  let N := length (embeddings dados) in
  let q := div_escalar (encode (strip digitado))
                       (norm (encode (strip digitado))) in
  exists scores indices,
    snd (buscar_similares encode ordena (strip digitado) indice N)
    = Retorna (scores, indices)
    /\ Permutation indices (map Z.of_nat (seq 0 N))
    /\ In (EvSearch [q] N) (fst (modo_filmes encode ordena dados digitado)).
Proof.
  intros Hord _ _ Hq Hidx Hd Hlen N q.
  pose proof (criar_indice_faiss_inv _ _ Hidx) as [Hne [_ Hxb]].
  assert (HN : length (Faiss.xb indice) = N)
    by (rewrite Hxb; apply length_map).
  assert (Hk : (1 <= N)%nat).
  { unfold N. destruct (embeddings dados); [contradiction|simpl; lia]. }
  pose proof (buscar_similares_run encode ordena (strip digitado) indice N
                Hd Hk) as Hrun.
  cbv zeta in Hrun. fold q in Hrun.
  exists (map fst (Faiss.linha ordena indice N q)),
         (map snd (Faiss.linha ordena indice N q)).
  split; [rewrite Hrun; reflexivity|].
  split.
  - assert (Hl : Faiss.linha ordena indice N q
                 = ordena (Faiss.pontuar indice q)).
    { pose proof (firstn_linha ordena Hord indice q N) as Hf.
      rewrite HN, Nat.min_id in Hf.
      rewrite firstn_all2 in Hf
        by (rewrite (length_linha ordena Hord); lia).
      rewrite Hf. apply firstn_all2.
      rewrite (length_todos ordena Hord). lia. }
    rewrite Hl. rewrite <- HN. apply todos_labels. exact Hord.
  - unfold modo_filmes.
    apply in_pliga_r with (a := tt); [reflexivity|].
    eapply in_pliga_r; [exact Hidx|].
    apply in_pliga_r with (a := tt); [reflexivity|].
    destruct (strip digitado) as [|c r] eqn:Hs; [contradiction|].
    apply in_pliga_r with (a := tt); [reflexivity|].
    eapply in_pliga_r; [unfold eleva; cbn [snd]; exact Hlen|].
    apply in_pliga_l. fold N. rewrite Hrun. cbn [fst]. right. now left.
Qed.

Lemma C8_witness :
  exists scores indices,
    snd (buscar_similares Exemplos.encode_fixo Faiss.ordena_estavel
           (strip (Exemplos.pontos " ola ")) Exemplos.indice2 2)
    = Retorna (scores, indices)
    /\ Permutation indices [0%Z; 1%Z].
Proof.
  destruct (C8_modo_filmes_permutacao Exemplos.encode_fixo
              Faiss.ordena_estavel Exemplos.filmes2
              (Exemplos.pontos " ola ") Exemplos.indice2 ordena_estavel_ok
              colecao2_nao_degenerada nao_degenerado_34)
    as [scores [indices [Hrun [Hperm _]]]].
  - vm_compute. discriminate.
  - reflexivity.
  - reflexivity.
  - reflexivity.
  - exists scores, indices. split; assumption.
Defined.

(** ** The entries of a row of results *)

(** An entry of a result row is a scored stored vector or the filler. *)
Lemma in_linha (ordena : list (R * Z) -> list (R * Z))
  (indice : Faiss.IndexFlatIP) (k : nat) (q : vetor) (s : R) (i : Z) :
  Faiss.ordenacao_decrescente ordena ->
  In (s, i) (Faiss.linha ordena indice k q) ->
  ((0 <= i < Z.of_nat (length (Faiss.xb indice)))%Z
   /\ s = dot q (nth (Z.to_nat i) (Faiss.xb indice) []))
  \/ (s, i) = Faiss.ausente.
Proof.
  intros Hord Hin. unfold Faiss.linha in Hin. apply in_app_or in Hin.
  destruct Hin as [Hin|Hin].
  - left. apply in_firstn in Hin. apply (in_todos ordena Hord) in Hin.
    exact Hin.
  - right. apply repeat_spec in Hin. exact Hin.
Qed.

Lemma calcular_similaridade_cosseno_formula (a b : vetor) :
  calcular_similaridade_cosseno a b = dot a b / (norm a * norm b).
Proof. unfold calcular_similaridade_cosseno. apply dot_div_escalar. Qed.

(** ** Anomaly ranking *)

(** C2.  For a collection of [N >= 2] items, the score of item [i] is the
    arithmetic mean of its cosine similarities to the [N - 1] items at the
    other positions (the positions before [i], then the ones after it; the
    pair of [i] with itself is left out), and the items are put in
    ascending order of that score before the first ones are taken.  The
    collection is [colecao_regular], so that every cosine and every mean is
    a number: a list of means that are NaN is left by the sort of Python
    in the order it had. *)
Theorem C2_modo_anomalias_media (embeddings : matriz) :
  let N := length embeddings in
  (2 <= N)%nat ->
  colecao_regular embeddings ->
  (forall i, (i < N)%nat ->
     let outros := seq 0 i ++ seq (S i) (N - S i) in
     let similaridades := similaridades_de embeddings N i in
     ~ In i outros
     /\ length outros = (N - 1)%nat
     /\ similaridades
        = map (fun j => calcular_similaridade_cosseno
                          (nth i embeddings []) (nth j embeddings []))
              outros
     /\ nth_error (scores_medios embeddings) i
        = Some (i, soma similaridades / INR (N - 1)))
  /\ Permutation (scores_ordenados embeddings) (scores_medios embeddings)
  /\ StronglySorted (fun a b => snd a <= snd b) (scores_ordenados embeddings)
  /\ anomalias embeddings = firstn 3 (scores_ordenados embeddings).
Proof.
  intros N HN _. split; [|split; [|split]].
  - intros i Hi outros similaridades.
    split.
    { unfold outros. intros Hin. apply in_app_or in Hin.
      destruct Hin as [Hin|Hin]; apply in_seq in Hin; lia. }
    split.
    { unfold outros. rewrite length_app, !length_seq. lia. }
    split.
    { unfold similaridades. apply similaridades_de_outros. exact Hi. }
    rewrite scores_medios_map. fold N.
    rewrite nth_error_map, nth_error_seq.
    replace (i <? N)%nat with true by (symmetry; apply Nat.ltb_lt; exact Hi).
    cbn [option_map Nat.add]. unfold mean. fold similaridades.
    unfold similaridades at 2.
    rewrite length_similaridades_de by exact Hi. reflexivity.
  - apply scores_ordenados_perm.
  - apply scores_ordenados_sorted.
  - reflexivity.
Qed.

Lemma C2_witness :
  Permutation (scores_ordenados Exemplos.colecao4)
              (scores_medios Exemplos.colecao4)
  /\ StronglySorted (fun a b => snd a <= snd b)
                    (scores_ordenados Exemplos.colecao4).
Proof.
  destruct (C2_modo_anomalias_media Exemplos.colecao4
              (le_S _ _ (le_S _ _ (le_n 2))) colecao4_regular)
    as [_ [Hperm [Hsorted _]]].
  split; assumption.
Defined.

Lemma length_scores_ordenados (embeddings : matriz) :
  length (scores_ordenados embeddings) = length embeddings.
Proof.
  rewrite (Permutation_length (scores_ordenados_perm embeddings)).
  rewrite scores_medios_map, length_map, length_seq. reflexivity.
Qed.

Lemma nodup_scores_ordenados (embeddings : matriz) :
  NoDup (map fst (scores_ordenados embeddings)).
Proof.
  eapply Permutation_NoDup.
  - symmetry. apply Permutation_map. apply scores_ordenados_perm.
  - rewrite map_fst_scores_medios. apply seq_NoDup.
Qed.

(** ** The rows the anomaly mode shows *)

Lemma py_index_nat {A : Type} (l : list A) (i : nat) (d : A) :
  (i < length l)%nat -> py_index l (Z.of_nat i) = Retorna (nth i l d).
Proof.
  intros Hi. unfold py_index.
  replace (Z.of_nat i <? 0)%Z with false by (symmetry; apply Z.ltb_ge; lia).
  replace ((0 <=? Z.of_nat i) && (Z.of_nat i <? Z.of_nat (length l)))%Z
    with true
    by (symmetry; apply andb_true_iff; split;
        [apply Z.leb_le|apply Z.ltb_lt]; lia).
  rewrite Nat2Z.id, (nth_error_nth' l d Hi). reflexivity.
Qed.

Lemma metadado_lista (dados : Dados) (chave : string) (l : list json)
  (i : nat) :
  obter chave (outros dados) = Some (JArr l) ->
  (i < length l)%nat ->
  metadado dados chave (Z.of_nat i) = Retorna (nth i l JNull).
Proof.
  intros Ho Hi. unfold metadado. rewrite Ho. apply py_index_nat. exact Hi.
Qed.

Lemma para_cada_prints {A : Type} (l : list A) (corpo : A -> prog unit)
  (msg : A -> mensagem) :
  (forall x, In x l -> corpo x = ([EvPrint (msg x)], Retorna tt)) ->
  para_cada l corpo = (map (fun x => EvPrint (msg x)) l, Retorna tt).
Proof.
  induction l as [|x r IH]; intros Hc; simpl; [reflexivity|].
  rewrite (Hc x (or_introl eq_refl)).
  rewrite IH by (intros y Hy; apply Hc; now right).
  reflexivity.
Qed.

Lemma anomalias_posicoes (embeddings : matriz) (par : nat * R) :
  In par (anomalias embeddings) -> (fst par < length embeddings)%nat.
Proof.
  intros Hin. unfold anomalias in Hin. apply in_firstn in Hin.
  apply (Permutation_in _ (scores_ordenados_perm embeddings)) in Hin.
  apply (in_map fst) in Hin. rewrite map_fst_scores_medios in Hin.
  apply in_seq in Hin. lia.
Qed.

(** With the four parallel arrays in place, the mode shows one row for
    each of the items taken, in their order, and returns. *)
Lemma modo_anomalias_run (dados : Dados)
  (ids usuarios datas textos : list json) :
  let N := length (embeddings dados) in
  obter "ids" (outros dados) = Some (JArr ids) ->
  obter "usuarios" (outros dados) = Some (JArr usuarios) ->
  obter "datas" (outros dados) = Some (JArr datas) ->
  obter "textos" (outros dados) = Some (JArr textos) ->
  length ids = N -> length usuarios = N ->
  length datas = N -> length textos = N ->
  modo_anomalias dados
  = ([EvPrint (Cabecalho "⚠️  MODO DETECÇÃO DE ANOMALIAS");
      EvPrint (TotalFeedbacks N);
      EvPrint (Texto "🔄 Calculando similaridade média de cada feedback...");
      EvPrint (Texto "🚨 TOP 5 FEEDBACKS ANÔMALOS DETECTADOS")]
     ++ map (fun entrada =>
               let idx := fst (snd entrada) in
               EvPrint (Anomalia (fst entrada) (nth idx ids JNull)
                          (nth idx usuarios JNull) (nth idx datas JNull)
                          (nth idx textos JNull)))
            (enumerate1 (anomalias (embeddings dados))),
     Retorna tt).
Proof.
  intros N Hi Hu Hd Ht Li Lu Ld Lt. unfold modo_anomalias.
  rewrite (para_cada_prints _ _
             (fun entrada =>
                let idx := fst (snd entrada) in
                Anomalia (fst entrada) (nth idx ids JNull)
                  (nth idx usuarios JNull) (nth idx datas JNull)
                  (nth idx textos JNull))).
  - reflexivity.
  - intros [rank [idx s]] Hin. cbn [fst snd].
    apply in_combine_r in Hin. apply anomalias_posicoes in Hin.
    cbn [fst] in Hin. fold N in Hin.
    rewrite (metadado_lista dados "ids" ids idx Hi) by lia.
    rewrite (metadado_lista dados "usuarios" usuarios idx Hu) by lia.
    rewrite (metadado_lista dados "datas" datas idx Hd) by lia.
    rewrite (metadado_lista dados "textos" textos idx Ht) by lia.
    reflexivity.
Qed.

(** C3.  For a collection of more than three items, the anomaly mode
    takes exactly three items, all different, under a header that says
    five; each of them is an item of the collection with its mean
    similarity, and none has a mean similarity above that of an item that
    was not taken.  When the four parallel arrays are in place, the rows
    shown are those of the three items, and the mode returns.  The
    collection is [colecao_regular], so that every mean similarity is a
    number. *)
Theorem C3_modo_anomalias_tres_menores (dados : Dados) :
  let tomados := anomalias (embeddings dados) in
  (3 < length (embeddings dados))%nat ->
  colecao_regular (embeddings dados) ->
  length tomados = 3%nat
  /\ NoDup (map fst tomados)
  /\ incl tomados (scores_medios (embeddings dados))
  /\ (forall a b, In a tomados ->
        In b (scores_medios (embeddings dados)) ->
        ~ In (fst b) (map fst tomados) ->
        snd a <= snd b)
  /\ In (EvPrint (Texto "🚨 TOP 5 FEEDBACKS ANÔMALOS DETECTADOS"))
        (fst (modo_anomalias dados))
  /\ (forall ids usuarios datas textos,
        obter "ids" (outros dados) = Some (JArr ids) ->
        obter "usuarios" (outros dados) = Some (JArr usuarios) ->
        obter "datas" (outros dados) = Some (JArr datas) ->
        obter "textos" (outros dados) = Some (JArr textos) ->
        length ids = length (embeddings dados) ->
        length usuarios = length (embeddings dados) ->
        length datas = length (embeddings dados) ->
        length textos = length (embeddings dados) ->
        snd (modo_anomalias dados) = Retorna tt
        /\ filter (fun e => match e with
                            | EvPrint (Anomalia _ _ _ _ _) => true
                            | _ => false
                            end)
                  (fst (modo_anomalias dados))
           = map (fun entrada =>
                    let idx := fst (snd entrada) in
                    EvPrint (Anomalia (fst entrada) (nth idx ids JNull)
                               (nth idx usuarios JNull) (nth idx datas JNull)
                               (nth idx textos JNull)))
                 (enumerate1 tomados)).
Proof.
  intros tomados HN _.
  assert (Hrows :
    forall ids usuarios datas textos,
      obter "ids" (outros dados) = Some (JArr ids) ->
      obter "usuarios" (outros dados) = Some (JArr usuarios) ->
      obter "datas" (outros dados) = Some (JArr datas) ->
      obter "textos" (outros dados) = Some (JArr textos) ->
      length ids = length (embeddings dados) ->
      length usuarios = length (embeddings dados) ->
      length datas = length (embeddings dados) ->
      length textos = length (embeddings dados) ->
      snd (modo_anomalias dados) = Retorna tt
      /\ filter (fun e => match e with
                          | EvPrint (Anomalia _ _ _ _ _) => true
                          | _ => false
                          end)
                (fst (modo_anomalias dados))
         = map (fun entrada =>
                  let idx := fst (snd entrada) in
                  EvPrint (Anomalia (fst entrada) (nth idx ids JNull)
                             (nth idx usuarios JNull) (nth idx datas JNull)
                             (nth idx textos JNull)))
               (enumerate1 tomados)).
  { intros ids usuarios datas textos Hi Hu Hd Ht Li Lu Ld Lt.
    rewrite (modo_anomalias_run dados ids usuarios datas textos
               Hi Hu Hd Ht Li Lu Ld Lt).
    split; [reflexivity|]. cbn [fst app filter]. fold tomados.
    generalize (enumerate1 tomados). intros l.
    induction l as [|x r IH]; simpl; [reflexivity|]. now rewrite IH. }
  unfold tomados, anomalias in *.
  split.
  { rewrite length_firstn, length_scores_ordenados. lia. }
  split.
  { rewrite <- firstn_map. apply nodup_firstn, nodup_scores_ordenados. }
  split.
  { intros a Ha. apply in_firstn in Ha.
    eapply Permutation_in; [apply scores_ordenados_perm|exact Ha]. }
  split.
  { intros a b Ha Hb Hout.
    assert (Hb' : In b (scores_ordenados (embeddings dados))).
    { eapply Permutation_in;
        [symmetry; apply scores_ordenados_perm|exact Hb]. }
    rewrite <- (firstn_skipn 3 (scores_ordenados (embeddings dados))) in Hb'.
    apply in_app_or in Hb'. destruct Hb' as [Hfront|Hrest].
    - exfalso. apply Hout. apply in_map. exact Hfront.
    - exact (sorted_firstn_skipn _ 3 _
               (scores_ordenados_sorted (embeddings dados)) a b Ha Hrest). }
  split; [|exact Hrows].
  unfold modo_anomalias.
  apply in_pliga_r with (a := tt); [reflexivity|].
  apply in_pliga_r with (a := tt); [reflexivity|].
  apply in_pliga_r with (a := tt); [reflexivity|].
  apply in_pliga_l. now left.
Qed.

Lemma C3_witness :
  length (anomalias Exemplos.colecao4) = 3%nat
  /\ NoDup (map fst (anomalias Exemplos.colecao4)).
Proof.
  destruct (C3_modo_anomalias_tres_menores
              {| embeddings := Exemplos.colecao4; outros := [] |}
              (le_n 4) colecao4_regular)
    as [Hlen [Hnd _]].
  split; assumption.
Defined.

(** ** Blank queries *)

Lemma lstrip_brancos (s : texto) :
  Forall (fun c => isspace c = true) s -> lstrip s = [].
Proof.
  induction 1 as [|c r Hc _ IH]; simpl; [reflexivity|]. now rewrite Hc.
Qed.

Lemma strip_brancos (s : texto) :
  Forall (fun c => isspace c = true) s -> strip s = [].
Proof. intros H. unfold strip. now rewrite (lstrip_brancos s H). Qed.

(** Building the index neither encodes nor searches. *)
Lemma criar_indice_faiss_eventos (embeddings : matriz) (e : evento) :
  In e (fst (criar_indice_faiss embeddings)) ->
  (exists dimensao, e = EvIndexFlatIP dimensao) \/ (exists x, e = EvAdd x).
Proof.
  unfold criar_indice_faiss.
  destruct embeddings as [|v m]; [intros []|].
  rewrite normalizar_embeddings_linhas by discriminate.
  unfold pliga, eleva, emite, shape1, Faiss.add, Faiss.novo.
  cbn [fst snd Faiss.d Faiss.xb app hd].
  intros [H|[H|[]]]; subst; eauto.
Qed.

Lemma modo_vazio_sem_busca (titulo pergunta aviso : string)
  (embeddings : matriz) :
  sem_busca
    (fst (print (Cabecalho titulo) ;;;
          indice <~ criar_indice_faiss embeddings ;;
          emite (EvInput pergunta) ;;;
          print (Texto aviso))).
Proof.
  unfold pliga at 1. cbn [print emite snd fst app].
  unfold pliga at 1.
  destruct (snd (criar_indice_faiss embeddings)) as [indice|e] eqn:Hcria;
    cbn [fst snd app pliga print emite].
  - split; intros; intros [H|H]; try discriminate;
      apply in_app_or in H; destruct H as [H|[H|[H|[]]]]; try discriminate;
      apply criar_indice_faiss_eventos in H;
      destruct H as [[? H]|[? H]]; discriminate.
  - split; intros; intros [H|H]; try discriminate;
      apply criar_indice_faiss_eventos in H;
      destruct H as [[? H]|[? H]]; discriminate.
Qed.

(** C6, as the code has it.  When the line typed is blank, the FAQ mode
    and the film mode print a notice and return: no exception is raised,
    the encoder is not called and the index is not searched.  The index
    has been built from the collection before the line is read. *)
Theorem C6_query_em_branco
  (encode : texto -> vetor) (ordena : list (R * Z) -> list (R * Z))
  (dados : Dados) (digitado : texto) :
  Forall (fun c => isspace c = true) digitado ->
  sem_busca (fst (modo_faq encode ordena dados digitado))
  /\ sem_busca (fst (modo_filmes encode ordena dados digitado))
  /\ forall indice,
       snd (criar_indice_faiss (embeddings dados)) = Retorna indice ->
       modo_faq encode ordena dados digitado
       = ([EvPrint (Cabecalho "📄 MODO FAQ - BUSCA SEMÂNTICA");
           EvIndexFlatIP (Faiss.d indice); EvAdd (Faiss.xb indice);
           EvInput "❓ Digite sua pergunta: ";
           EvPrint (Texto "⚠️  Query vazia. Encerrando modo FAQ.")],
          Retorna tt)
       /\ modo_filmes encode ordena dados digitado
          = ([EvPrint (Cabecalho "🎬 MODO FILMES - RECOMENDAÇÃO POR DESCRIÇÃO");
              EvIndexFlatIP (Faiss.d indice); EvAdd (Faiss.xb indice);
              EvInput "🎥 Descreva o filme que procura: ";
              EvPrint
                (Texto "⚠️  Descrição vazia. Encerrando modo filmes.")],
             Retorna tt).
Proof.
  intros Hbranco. pose proof (strip_brancos digitado Hbranco) as Hs.
  unfold modo_faq, modo_filmes. rewrite Hs.
  split; [apply modo_vazio_sem_busca|].
  split; [apply modo_vazio_sem_busca|].
  intros indice Hidx. apply criar_indice_faiss_run in Hidx.
  rewrite Hidx. split; reflexivity.
Qed.

Lemma C6_witness :
  sem_busca (fst (modo_faq Exemplos.encode_fixo Faiss.ordena_estavel
                    Exemplos.faq2 (Exemplos.pontos "   ")))
  /\ sem_busca (fst (modo_filmes Exemplos.encode_fixo Faiss.ordena_estavel
                       Exemplos.filmes2 (Exemplos.pontos "   "))).
Proof.
  split.
  - apply (C6_query_em_branco Exemplos.encode_fixo Faiss.ordena_estavel
             Exemplos.faq2 (Exemplos.pontos "   ")).
    repeat constructor.
  - apply (C6_query_em_branco Exemplos.encode_fixo Faiss.ordena_estavel
             Exemplos.filmes2 (Exemplos.pontos "   ")).
    repeat constructor.
Defined.

(** C6 fails on the code: on a line of three spaces the FAQ mode, having
    built the index and added the two vectors to it, returns normally; no
    [EmptyQueryError] is raised. *)
Lemma C6_counterexample :
  modo_faq Exemplos.encode_fixo Faiss.ordena_estavel Exemplos.faq2
    (Exemplos.pontos "   ")
  = ([EvPrint (Cabecalho "📄 MODO FAQ - BUSCA SEMÂNTICA");
      EvIndexFlatIP 2; EvAdd (Faiss.xb Exemplos.indice2);
      EvInput "❓ Digite sua pergunta: ";
      EvPrint (Texto "⚠️  Query vazia. Encerrando modo FAQ.")],
     Retorna tt)
  /\ snd (modo_faq Exemplos.encode_fixo Faiss.ordena_estavel Exemplos.faq2
            (Exemplos.pontos "   "))
     <> Levanta (Exc "EmptyQueryError").
Proof. split; [reflexivity|discriminate]. Qed.

(** ** Loading *)

Section Carga.

Variable abrir : string -> resultado string.
Variable json_load : string -> resultado json.
Variable np_array : json -> resultado matriz.

#[local] Abbreviation carregar :=
  (carregar_embeddings abrir json_load np_array).

(** A failure that [except Exception] catches ends the call with the
    error printed and [None] returned. *)
Lemma carregar_embeddings_falha (caminho : string) (erro : excecao) :
  falha_na_carga abrir json_load np_array caminho erro ->
  eh_Exception erro = true ->
  carregar caminho = ([EvPrint (ErroCarregar erro)], Retorna None).
Proof.
  unfold carregar_embeddings, falha_na_carga.
  intros [H|[[arq [Ha H]]|[[arq [doc [Ha [Hj H]]]]
                          |[arq [doc [bruto [Ha [Hj [Hs H]]]]]]]]] Hexc.
  - rewrite H. unfold tentar. cbn [pliga eleva snd fst]. rewrite Hexc.
    reflexivity.
  - rewrite Ha. cbn [pliga eleva snd fst app]. rewrite H.
    unfold tentar. cbn [pliga eleva snd fst app]. rewrite Hexc. reflexivity.
  - rewrite Ha. cbn [pliga eleva snd fst app]. rewrite Hj.
    cbn [pliga eleva snd fst app]. rewrite H.
    unfold tentar. cbn [pliga eleva snd fst app]. rewrite Hexc. reflexivity.
  - rewrite Ha. cbn [pliga eleva snd fst app]. rewrite Hj.
    cbn [pliga eleva snd fst app]. rewrite Hs.
    cbn [pliga eleva snd fst app]. rewrite H.
    unfold tentar. cbn [pliga eleva snd fst app]. rewrite Hexc. reflexivity.
Qed.

(** A document with a convertible field [embeddings] is returned as it
    is, that field replaced. *)
Lemma carregar_embeddings_sucesso (caminho arquivo : string)
  (campos : list (string * json)) (bruto : json) (convertido : matriz) :
  abrir caminho = Retorna arquivo ->
  json_load arquivo = Retorna (JObj campos) ->
  obter "embeddings" campos = Some bruto ->
  np_array bruto = Retorna convertido ->
  carregar caminho
  = ([], Retorna (Some {| embeddings := convertido;
                          outros := filter
                            (fun c => negb (String.eqb (fst c) "embeddings"))
                            campos |})).
Proof.
  intros Ha Hj Ho Hn. unfold carregar_embeddings.
  rewrite Ha. cbn [pliga eleva snd fst app]. rewrite Hj.
  cbn [pliga eleva snd fst app subscrito]. rewrite Ho.
  cbn [pliga eleva snd fst app]. rewrite Hn. reflexivity.
Qed.

(** The call ends in one of the two ways above, or with an exception that
    [except Exception] does not catch. *)
Lemma carregar_embeddings_casos (caminho : string) :
  (exists arquivo campos bruto convertido,
     abrir caminho = Retorna arquivo
     /\ json_load arquivo = Retorna (JObj campos)
     /\ obter "embeddings" campos = Some bruto
     /\ np_array bruto = Retorna convertido)
  \/ (exists erro, falha_na_carga abrir json_load np_array caminho erro).
Proof.
  unfold falha_na_carga.
  destruct (abrir caminho) as [arq|e] eqn:Ha; [|right; exists e; now left].
  destruct (json_load arq) as [doc|e] eqn:Hj;
    [|right; exists e; right; left; exists arq; now split].
  destruct (subscrito doc "embeddings") as [bruto|e] eqn:Hs;
    [|right; exists e; right; right; left; exists arq, doc; now repeat split].
  destruct (np_array bruto) as [m|e] eqn:Hn;
    [|right; exists e; right; right; right; exists arq, doc, bruto;
      now repeat split].
  left. destruct doc as [| | | |l|campos]; try discriminate.
  simpl in Hs. destruct (obter "embeddings" campos) as [v|] eqn:Ho;
    [|discriminate].
  inversion Hs; subst. exists arq, campos, bruto, m. now repeat split.
Qed.

Lemma subscrito_Exception (j : json) (chave : string) (e : excecao) :
  subscrito j chave = Levanta e -> eh_Exception e = true.
Proof.
  destruct j as [| | | |l|campos]; simpl; intros H;
    try (inversion H; reflexivity).
  destruct (obter chave campos); inversion H; reflexivity.
Qed.

End Carga.

Section Menu.

Variable encode : texto -> vetor.
Variable ordena : list (R * Z) -> list (R * Z).
Variable abrir : string -> resultado string.
Variable json_load : string -> resultado json.
Variable np_array : json -> resultado matriz.

(** When loading ended with [None], the turn runs no mode and the loop
    goes on. *)
Lemma turno_sem_dados (escolha digitado : texto) (caminho : string)
  (erro : excecao) :
  (escolha = [49%N] /\ caminho = caminho_faq)
  \/ (escolha = [50%N] /\ caminho = caminho_filmes)
  \/ (escolha = [51%N] /\ caminho = caminho_avaliacoes) ->
  carregar_embeddings abrir json_load np_array caminho
  = ([EvPrint (ErroCarregar erro)], Retorna None) ->
  turno encode ordena abrir json_load np_array escolha digitado
  = ([EvPrint (ErroCarregar erro);
      EvInput "⏸️  Pressione ENTER para voltar ao menu..."],
     Retorna true).
Proof.
  intros [[-> ->]|[[-> ->]|[-> ->]]] Hc; unfold turno, texto_eqb;
    repeat match goal with
    | |- context [list_eq_dec N.eq_dec ?a ?b] =>
        destruct (list_eq_dec N.eq_dec a b) as [Heq|Hneq];
        [try discriminate Heq|try (exfalso; apply Hneq; reflexivity)]
    end; rewrite Hc; reflexivity.
Qed.

End Menu.

(** C7, as the code has it.  A document that cannot be opened, parsed or
    converted makes [carregar_embeddings] print the error and return
    [None]; no exception is raised.  The menu then runs no mode (no query
    is read, encoded or searched) and goes on to the next turn.  The
    length invariant is not checked: a document whose field [embeddings]
    converts is returned whatever its other fields say. *)
Theorem C7_carregar_embeddings_sem_validacao
  (encode : texto -> vetor) (ordena : list (R * Z) -> list (R * Z))
  (abrir : string -> resultado string)
  (json_load : string -> resultado json)
  (np_array : json -> resultado matriz) :
  (forall caminho erro,
     falha_na_carga abrir json_load np_array caminho erro ->
     eh_Exception erro = true ->
     carregar_embeddings abrir json_load np_array caminho
     = ([EvPrint (ErroCarregar erro)], Retorna None))
  /\ (forall escolha caminho erro digitado,
        (escolha = [49%N] /\ caminho = caminho_faq)
        \/ (escolha = [50%N] /\ caminho = caminho_filmes)
        \/ (escolha = [51%N] /\ caminho = caminho_avaliacoes) ->
        falha_na_carga abrir json_load np_array caminho erro ->
        eh_Exception erro = true ->
        turno encode ordena abrir json_load np_array escolha digitado
        = ([EvPrint (ErroCarregar erro);
            EvInput "⏸️  Pressione ENTER para voltar ao menu..."],
           Retorna true))
  /\ (forall caminho arquivo campos bruto convertido,
        abrir caminho = Retorna arquivo ->
        json_load arquivo = Retorna (JObj campos) ->
        obter "embeddings" campos = Some bruto ->
        np_array bruto = Retorna convertido ->
        carregar_embeddings abrir json_load np_array caminho
        = ([], Retorna (Some {| embeddings := convertido;
                                outros := filter
                                  (fun c => negb (String.eqb (fst c)
                                                    "embeddings"))
                                  campos |}))).
Proof.
  split; [|split].
  - intros caminho erro. apply carregar_embeddings_falha.
  - intros escolha caminho erro digitado Hesc Hf He.
    apply (turno_sem_dados encode ordena abrir json_load np_array
             escolha digitado caminho erro Hesc).
    apply carregar_embeddings_falha; assumption.
  - intros caminho arquivo campos bruto convertido.
    apply carregar_embeddings_sucesso.
Qed.

(** C7 fails on the code: the document that announces [total = 3] and
    holds two rows of embeddings is loaded, and a file that does not exist
    makes the loader return [None] instead of raising. *)
Lemma C7_counterexample :
  carregar_embeddings Exemplos.abrir_faq Exemplos.json_load_curto
    Exemplos.np_array_fileiras caminho_faq
  = ([], Retorna (Some
       {| embeddings := Exemplos.colecao2;
          outros :=
            [("tipo"%string, JStr (Exemplos.pontos "faq"));
             ("total"%string, JNum 3);
             ("perguntas"%string,
              JArr [JStr (Exemplos.pontos "P1"); JStr (Exemplos.pontos "P2");
                    JStr (Exemplos.pontos "P3")]);
             ("respostas"%string,
              JArr [JStr (Exemplos.pontos "R1"); JStr (Exemplos.pontos "R2");
                    JStr (Exemplos.pontos "R3")]);
             ("fontes"%string,
              JArr [JStr (Exemplos.pontos "F1"); JStr (Exemplos.pontos "F2");
                    JStr (Exemplos.pontos "F3")])] |}))
  /\ carregar_embeddings Exemplos.abrir_faq Exemplos.json_load_curto
       Exemplos.np_array_fileiras caminho_filmes
     = ([EvPrint (ErroCarregar (Exc "FileNotFoundError"))], Retorna None).
Proof. split; reflexivity. Qed.

(** ** The loader never raises *)

Lemma abrir_faq_Exception (caminho : string) (e : excecao) :
  Exemplos.abrir_faq caminho = Levanta e -> eh_Exception e = true.
Proof.
  unfold Exemplos.abrir_faq.
  destruct (String.eqb caminho _); intros H; inversion H; reflexivity.
Qed.

Lemma json_load_curto_Exception (arquivo : string) (e : excecao) :
  Exemplos.json_load_curto arquivo = Levanta e -> eh_Exception e = true.
Proof.
  unfold Exemplos.json_load_curto.
  destruct (String.eqb arquivo _); intros H; inversion H; reflexivity.
Qed.

Lemma np_array_fileiras_Exception (valor : json) (e : excecao) :
  Exemplos.np_array_fileiras valor = Levanta e -> eh_Exception e = true.
Proof.
  unfold Exemplos.np_array_fileiras.
  destruct valor as [| | | |l|campos]; try (intros H; inversion H; reflexivity).
  destruct (Exemplos.fileiras l) as [m|];
    [|intros H; inversion H; reflexivity].
  destruct (Faiss.dimensao_ok _ m); intros H; inversion H; reflexivity.
Qed.

(** C9.  Whatever the path and the content of the file, as long as the
    library calls raise exceptions of classes derived from [Exception],
    [carregar_embeddings] returns [None] or the parsed dictionary with its
    field [embeddings] converted to an array; it never raises. *)
Theorem C9_carregar_embeddings_total
  (abrir : string -> resultado string)
  (json_load : string -> resultado json)
  (np_array : json -> resultado matriz) (caminho : string) :
  (forall c e, abrir c = Levanta e -> eh_Exception e = true) ->
  (forall a e, json_load a = Levanta e -> eh_Exception e = true) ->
  (forall j e, np_array j = Levanta e -> eh_Exception e = true) ->
  snd (carregar_embeddings abrir json_load np_array caminho) = Retorna None
  \/ exists arquivo campos bruto convertido,
       abrir caminho = Retorna arquivo
       /\ json_load arquivo = Retorna (JObj campos)
       /\ obter "embeddings" campos = Some bruto
       /\ np_array bruto = Retorna convertido
       /\ snd (carregar_embeddings abrir json_load np_array caminho)
          = Retorna (Some {| embeddings := convertido;
                             outros := filter
                               (fun c => negb (String.eqb (fst c)
                                                 "embeddings"))
                               campos |}).
Proof.
  intros Habrir Hjson Hnp.
  destruct (carregar_embeddings_casos abrir json_load np_array caminho)
    as [[arq [campos [bruto [m [Ha [Hj [Ho Hn]]]]]]]|[erro Hf]].
  - right. exists arq, campos, bruto, m. repeat (split; [assumption|]).
    rewrite (carregar_embeddings_sucesso abrir json_load np_array
               caminho arq campos bruto m Ha Hj Ho Hn).
    reflexivity.
  - left.
    assert (He : eh_Exception erro = true).
    { destruct Hf as [H|[[arq [Ha H]]|[[arq [doc [Ha [Hj H]]]]
                                      |[arq [doc [bruto [Ha [Hj [Hs H]]]]]]]]].
      - eapply Habrir; exact H.
      - eapply Hjson; exact H.
      - eapply subscrito_Exception; exact H.
      - eapply Hnp; exact H. }
    rewrite (carregar_embeddings_falha abrir json_load np_array
               caminho erro Hf He).
    reflexivity.
Qed.

Lemma C9_witness :
  snd (carregar_embeddings Exemplos.abrir_faq Exemplos.json_load_curto
         Exemplos.np_array_fileiras caminho_avaliacoes)
  = Retorna None
  \/ exists arquivo campos bruto convertido,
       Exemplos.abrir_faq caminho_avaliacoes = Retorna arquivo
       /\ Exemplos.json_load_curto arquivo = Retorna (JObj campos)
       /\ obter "embeddings" campos = Some bruto
       /\ Exemplos.np_array_fileiras bruto = Retorna convertido
       /\ snd (carregar_embeddings Exemplos.abrir_faq
                 Exemplos.json_load_curto Exemplos.np_array_fileiras
                 caminho_avaliacoes)
          = Retorna (Some {| embeddings := convertido;
                             outros := filter
                               (fun c => negb (String.eqb (fst c)
                                                 "embeddings"))
                               campos |}).
Proof.
  apply (C9_carregar_embeddings_total Exemplos.abrir_faq
           Exemplos.json_load_curto Exemplos.np_array_fileiras
           caminho_avaliacoes).
  - exact abrir_faq_Exception.
  - exact json_load_curto_Exception.
  - exact np_array_fileiras_Exception.
Defined.

(** * Further properties of the search engine *)

(** ** Cosine similarity *)

Lemma dot_comm (a b : vetor) : dot a b = dot b a.
Proof.
  revert b; induction a as [|x a IH]; intros [|y b]; simpl; try reflexivity.
  rewrite IH. ring.
Qed.

(** The cosine similarity is symmetric. *)
Theorem calcular_similaridade_cosseno_simetrica (a b : vetor) :
  calcular_similaridade_cosseno a b = calcular_similaridade_cosseno b a.
Proof.
  rewrite !calcular_similaridade_cosseno_formula.
  rewrite (dot_comm a b), (Rmult_comm (norm a)). reflexivity.
Qed.

(** * The search modes, further *)

(** ** Searches that the collection can fill *)

(** When [k] does not exceed the number of stored vectors, the search
    returns no filler: [k] distinct positions of stored vectors, by
    decreasing score.  The stored vectors and the embedding of the query
    are [nao_degenerado], so that every score is a number. *)
Theorem buscar_similares_sem_preenchimento
  (encode : texto -> vetor) (ordena : list (R * Z) -> list (R * Z))
  (embeddings : matriz) (indice : Faiss.IndexFlatIP) (query : texto)
  (k : nat) :
  Faiss.ordenacao_decrescente ordena ->
  (1 <= k <= length embeddings)%nat ->
  Forall nao_degenerado embeddings ->
  nao_degenerado (encode query) ->
  snd (criar_indice_faiss embeddings) = Retorna indice ->
  length (encode query) = Faiss.d indice ->
  exists scores indices,
    snd (buscar_similares encode ordena query indice k)
    = Retorna (scores, indices)
    /\ length indices = k
    /\ NoDup indices
    /\ Forall (fun i => (0 <= i < Z.of_nat (length embeddings))%Z) indices
    /\ StronglySorted (fun a b => b <= a) scores.
Proof.
  intros Hord [Hk1 HkN] _ _ Hidx Hd.
  pose proof (criar_indice_faiss_inv _ _ Hidx) as [Hne [_ Hxb]].
  assert (HN : length (Faiss.xb indice) = length embeddings)
    by (rewrite Hxb; apply length_map).
  pose proof (buscar_similares_run encode ordena query indice k Hd Hk1)
    as Hrun.
  cbv zeta in Hrun.
  set (q := div_escalar (encode query) (norm (encode query))) in *.
  assert (Hl : Faiss.linha ordena indice k q
               = firstn k (ordena (Faiss.pontuar indice q))).
  { unfold Faiss.linha.
    rewrite (length_melhores ordena Hord indice q k), HN.
    replace (k - Nat.min k (length embeddings))%nat with 0%nat by lia.
    apply app_nil_r. }
  exists (map fst (Faiss.linha ordena indice k q)),
         (map snd (Faiss.linha ordena indice k q)).
  rewrite Hrun, Hl. cbn [snd].
  split; [reflexivity|].
  split; [rewrite length_map, (length_melhores ordena Hord), HN; lia|].
  split; [apply melhores_nodup, Hord|].
  split.
  - apply Forall_forall. intros i Hi. apply in_map_iff in Hi.
    destruct Hi as [[s i'] [Hi' Hin]]. cbn [snd] in Hi'. subst i'.
    apply in_firstn in Hin. apply (in_todos ordena Hord) in Hin.
    rewrite HN in Hin. apply Hin.
  - apply sorted_map_fst, melhores_sorted, Hord.
Qed.

Lemma buscar_similares_sem_preenchimento_witness :
  exists scores indices,
    snd (buscar_similares Exemplos.encode_fixo Faiss.ordena_estavel
           (Exemplos.pontos "ola") Exemplos.indice2 2)
    = Retorna (scores, indices)
    /\ length indices = 2%nat
    /\ NoDup indices.
Proof.
  destruct (buscar_similares_sem_preenchimento Exemplos.encode_fixo
              Faiss.ordena_estavel Exemplos.colecao2 Exemplos.indice2
              (Exemplos.pontos "ola") 2 ordena_estavel_ok
              (conj (le_S _ _ (le_n 1)) (le_n 2))
              colecao2_nao_degenerada nao_degenerado_34 eq_refl eq_refl)
    as [scores [indices [Hrun [Hlen [Hnd _]]]]].
  exists scores, indices. repeat split; assumption.
Defined.

(** ** Queries the index refuses *)

(** When the embedding of the query has not the dimension of the index,
    or [k] is zero, the encoder is called, the index is asked and its
    assertion fails: [buscar_similares] raises [AssertionError]. *)
Theorem buscar_similares_recusada
  (encode : texto -> vetor) (ordena : list (R * Z) -> list (R * Z))
  (query : texto) (indice : Faiss.IndexFlatIP) (k : nat) :
  length (encode query) <> Faiss.d indice \/ k = 0%nat ->
  buscar_similares encode ordena query indice k
  = ([EvEncode query;
      EvSearch [div_escalar (encode query) (norm (encode query))] k],
     Levanta AssertionError).
Proof.
  intros Hbad. unfold buscar_similares.
  rewrite normalizar_embeddings_linhas by discriminate.
  unfold Faiss.search, Faiss.dimensao_ok.
  cbn [pliga eleva emite pret fst snd app map forallb].
  rewrite length_div_escalar.
  destruct Hbad as [Hd|Hk].
  - apply Nat.eqb_neq in Hd. rewrite Hd. reflexivity.
  - subst k. rewrite andb_false_r. reflexivity.
Qed.

Lemma buscar_similares_recusada_witness :
  buscar_similares (fun _ => [1; 2; 3]) Faiss.ordena_estavel
    (Exemplos.pontos "ola") Exemplos.indice2 3
  = ([EvEncode (Exemplos.pontos "ola");
      EvSearch [div_escalar [1; 2; 3] (norm [1; 2; 3])] 3],
     Levanta AssertionError).
Proof.
  apply (buscar_similares_recusada (fun _ => [1; 2; 3]) Faiss.ordena_estavel
           (Exemplos.pontos "ola") Exemplos.indice2 3).
  left. simpl. discriminate.
Defined.

(** ** What the FAQ mode and the film mode show *)

Lemma py_index_get {A : Type} (l : list A) (idx : Z) (d : A) :
  (- Z.of_nat (length l) <= idx < Z.of_nat (length l))%Z ->
  py_index l idx = Retorna (py_get l idx d).
Proof.
  intros Hr. unfold py_index, py_get.
  set (j := (if (idx <? 0)%Z then (idx + Z.of_nat (length l))%Z else idx)).
  assert (Hj : (0 <= j < Z.of_nat (length l))%Z).
  { unfold j. destruct (idx <? 0)%Z eqn:E.
    - apply Z.ltb_lt in E. lia.
    - apply Z.ltb_ge in E. lia. }
  replace ((0 <=? j) && (j <? Z.of_nat (length l)))%Z with true
    by (symmetry; apply andb_true_iff; split;
        [apply Z.leb_le|apply Z.ltb_lt]; lia).
  rewrite (nth_error_nth' l d) by lia. reflexivity.
Qed.

Lemma py_get_ultimo {A : Type} (l : list A) (d : A) :
  py_get l (-1) d = last l d.
Proof.
  unfold py_get. cbn [Z.ltb Z.compare].
  destruct l as [|x r] using rev_ind; [reflexivity|].
  rewrite length_app, last_last. cbn [length].
  replace (Z.to_nat (-1 + Z.of_nat (length r + 1))) with (length r) by lia.
  rewrite app_nth2 by lia. now rewrite Nat.sub_diag.
Qed.

Lemma py_get_nat {A : Type} (l : list A) (i : nat) (d : A) :
  py_get l (Z.of_nat i) d = nth i l d.
Proof.
  unfold py_get.
  replace (Z.of_nat i <? 0)%Z with false by (symmetry; apply Z.ltb_ge; lia).
  now rewrite Nat2Z.id.
Qed.

Lemma metadado_get (dados : Dados) (chave : string) (l : list json)
  (idx : Z) :
  obter chave (outros dados) = Some (JArr l) ->
  (- Z.of_nat (length l) <= idx < Z.of_nat (length l))%Z ->
  metadado dados chave idx = Retorna (py_get l idx JNull).
Proof.
  intros Ho Hr. unfold metadado. rewrite Ho. apply py_index_get. exact Hr.
Qed.

Lemma cortar_recorte (n : nat) (j : json) :
  fatiavel j -> cortar n j = Retorna (recorte n j).
Proof. destruct j; simpl; intros H; try contradiction; reflexivity. Qed.

Lemma para_cada_run {A : Type} (l : list A) (corpo : A -> prog unit)
  (evs : A -> list evento) :
  (forall x, In x l -> corpo x = (evs x, Retorna tt)) ->
  para_cada l corpo = (flat_map evs l, Retorna tt).
Proof.
  induction l as [|x r IH]; intros Hc; simpl; [reflexivity|].
  rewrite (Hc x (or_introl eq_refl)).
  rewrite IH by (intros y Hy; apply Hc; now right).
  reflexivity.
Qed.

(** Every label of a result row is a position Python accepts in a list
    of [N >= 1] entries: a stored position, or [-1]. *)
Lemma labels_da_linha (ordena : list (R * Z) -> list (R * Z))
  (indice : Faiss.IndexFlatIP) (k : nat) (q : vetor) (s : R) (i : Z) :
  Faiss.ordenacao_decrescente ordena ->
  (1 <= length (Faiss.xb indice))%nat ->
  In (s, i) (Faiss.linha ordena indice k q) ->
  (- Z.of_nat (length (Faiss.xb indice)) <= i
   < Z.of_nat (length (Faiss.xb indice)))%Z.
Proof.
  intros Hord HN Hin. apply (in_linha ordena indice k q s i Hord) in Hin.
  destruct Hin as [[Hr _]|Hf]; [lia|]. inversion Hf. lia.
Qed.

Lemma in_enumerate1 {A : Type} (l : list A) (i : nat) (x : A) :
  In (i, x) (enumerate1 l) -> In x l.
Proof. unfold enumerate1. apply in_combine_r. Qed.

Lemma combine_map_fst_snd {A B : Type} (l : list (A * B)) :
  combine (map fst l) (map snd l) = l.
Proof.
  induction l as [|[a b] r IH]; simpl; [reflexivity|]. now rewrite IH.
Qed.

Lemma match_nao_vazio {T : Type} (l : texto) (vazio cheio : T) :
  l <> [] ->
  match l with
  | [] => vazio
  | _ :: _ => cheio
  end = cheio.
Proof. destruct l; [contradiction|reflexivity]. Qed.

(* The run of the FAQ mode, as the properties below use it. *)
Lemma modo_faq_execucao
  (encode : texto -> vetor) (ordena : list (R * Z) -> list (R * Z))
  (dados : Dados) (digitado : texto) (indice : Faiss.IndexFlatIP)
  (perguntas respostas fontes : list json) :
  Faiss.ordenacao_decrescente ordena ->
  strip digitado <> [] ->
  snd (criar_indice_faiss (embeddings dados)) = Retorna indice ->
  length (encode (strip digitado)) = Faiss.d indice ->
  obter "perguntas" (outros dados) = Some (JArr perguntas) ->
  obter "respostas" (outros dados) = Some (JArr respostas) ->
  obter "fontes" (outros dados) = Some (JArr fontes) ->
  length perguntas = length (embeddings dados) ->
  length respostas = length (embeddings dados) ->
  length fontes = length (embeddings dados) ->
  Forall fatiavel respostas ->
  let N := length (embeddings dados) in
  let q := div_escalar (encode (strip digitado))
                       (norm (encode (strip digitado))) in
  exists scores indices,
    snd (buscar_similares encode ordena (strip digitado) indice 3)
    = Retorna (scores, indices)
    /\ length indices = 3%nat
    /\ modo_faq encode ordena dados digitado
       = ([EvPrint (Cabecalho "📄 MODO FAQ - BUSCA SEMÂNTICA");
           EvIndexFlatIP (Faiss.d indice); EvAdd (Faiss.xb indice);
           EvInput "❓ Digite sua pergunta: ";
           EvPrint (Buscando (strip digitado));
           EvEncode (strip digitado); EvSearch [q] 3;
           EvPrint (Texto "🏆 TOP 3 RESPOSTAS MAIS RELEVANTES")]
          ++ flat_map (linhas_faq perguntas respostas fontes)
                      (enumerate1 (combine scores indices)),
          Retorna tt)
    /\ (forall j, (N <= j < 3)%nat -> nth_error indices j = Some (-1)%Z)
    /\ py_get fontes (-1) JNull = last fontes JNull.
Proof.
  intros Hord Hq Hidx Hd Hp Hr Hf Lp Lr Lf Hfat N q.
  pose proof (criar_indice_faiss_inv _ _ Hidx) as [Hne [_ Hxb]].
  assert (HN : length (Faiss.xb indice) = N)
    by (rewrite Hxb; apply length_map).
  assert (HN1 : (1 <= N)%nat).
  { unfold N. destruct (embeddings dados); [contradiction|simpl; lia]. }
  pose proof (buscar_similares_run encode ordena (strip digitado) indice 3
                Hd (le_S _ _ (le_S _ _ (le_n 1)))) as Hrun.
  cbv zeta in Hrun. fold q in Hrun.
  set (L := Faiss.linha ordena indice 3 q) in *.
  exists (map fst L), (map snd L).
  split; [rewrite Hrun; reflexivity|].
  split; [rewrite length_map; apply length_linha; exact Hord|].
  split.
  - unfold modo_faq. rewrite (criar_indice_faiss_run _ _ Hidx).
    cbn [pliga print emite fst snd app].
    rewrite (match_nao_vazio (strip digitado) _ _ Hq).
    cbn [pliga print emite fst snd app]. rewrite Hrun.
    cbn [pliga print emite fst snd app].
    rewrite combine_map_fst_snd.
    rewrite (para_cada_run _ _ (linhas_faq perguntas respostas fontes)).
    + reflexivity.
    + intros [i [s idx]] Hin. apply in_enumerate1 in Hin.
      apply (labels_da_linha ordena indice 3 q s idx Hord) in Hin;
        [|lia].
      rewrite HN in Hin. cbn [fst snd].
      rewrite (metadado_get dados "perguntas" perguntas idx Hp)
        by (rewrite Lp; exact Hin).
      rewrite (metadado_get dados "respostas" respostas idx Hr)
        by (rewrite Lr; exact Hin).
      rewrite (metadado_get dados "fontes" fontes idx Hf)
        by (rewrite Lf; exact Hin).
      cbn [pliga eleva print emite fst snd app].
      rewrite cortar_recorte.
      * reflexivity.
      * rewrite Forall_forall in Hfat. apply Hfat.
        unfold py_get. apply nth_In. rewrite Lr. fold N.
        destruct (idx <? 0)%Z eqn:E;
          [apply Z.ltb_lt in E|apply Z.ltb_ge in E]; lia.
  - split; [|apply py_get_ultimo].
    intros j Hj.
    pose proof (skipn_linha ordena Hord indice q 3) as Hskip.
    rewrite HN in Hskip. unfold L.
    rewrite nth_error_map.
    rewrite <- (firstn_skipn (Nat.min 3 N) (Faiss.linha ordena indice 3 q)).
    rewrite nth_error_app2
      by (rewrite length_firstn, (length_linha ordena Hord); lia).
    rewrite length_firstn, (length_linha ordena Hord), Hskip.
    replace (Nat.min (Nat.min 3 N) 3) with N by lia.
    replace (3 - Nat.min 3 N)%nat with (3 - N)%nat by lia.
    rewrite (nth_error_repeat Faiss.ausente) by lia. reflexivity.
Qed.

(** The FAQ mode on a line that is not blank: with the three parallel
    arrays in place (as many entries as stored vectors, the answers being
    texts), it always prints three groups of rows, one for each entry the
    search returns, and returns.  A group shows the entries found at the
    label of the result, read as a Python position: the filler's label
    [-1] shows the last item. *)
Theorem modo_faq_run
  (encode : texto -> vetor) (ordena : list (R * Z) -> list (R * Z))
  (dados : Dados) (digitado : texto) (indice : Faiss.IndexFlatIP)
  (perguntas respostas fontes : list json) :
  Faiss.ordenacao_decrescente ordena ->
  strip digitado <> [] ->
  snd (criar_indice_faiss (embeddings dados)) = Retorna indice ->
  length (encode (strip digitado)) = Faiss.d indice ->
  obter "perguntas" (outros dados) = Some (JArr perguntas) ->
  obter "respostas" (outros dados) = Some (JArr respostas) ->
  obter "fontes" (outros dados) = Some (JArr fontes) ->
  length perguntas = length (embeddings dados) ->
  length respostas = length (embeddings dados) ->
  length fontes = length (embeddings dados) ->
  Forall fatiavel respostas ->
  let N := length (embeddings dados) in
  let q := div_escalar (encode (strip digitado))
                       (norm (encode (strip digitado))) in
  exists scores indices,
    snd (buscar_similares encode ordena (strip digitado) indice 3)
    = Retorna (scores, indices)
    /\ length indices = 3%nat
    /\ modo_faq encode ordena dados digitado
       = ([EvPrint (Cabecalho "📄 MODO FAQ - BUSCA SEMÂNTICA");
           EvIndexFlatIP (Faiss.d indice); EvAdd (Faiss.xb indice);
           EvInput "❓ Digite sua pergunta: ";
           EvPrint (Buscando (strip digitado));
           EvEncode (strip digitado); EvSearch [q] 3;
           EvPrint (Texto "🏆 TOP 3 RESPOSTAS MAIS RELEVANTES")]
          ++ flat_map (linhas_faq perguntas respostas fontes)
                      (enumerate1 (combine scores indices)),
          Retorna tt)
    /\ (forall j, (N <= j < 3)%nat -> nth_error indices j = Some (-1)%Z)
    /\ py_get fontes (-1) JNull = last fontes JNull.
Proof.
  exact (modo_faq_execucao encode ordena dados digitado indice
           perguntas respostas fontes).
Qed.

Lemma modo_faq_run_witness :
  exists scores indices,
    snd (buscar_similares Exemplos.encode_fixo Faiss.ordena_estavel
           (strip (Exemplos.pontos " ola ")) Exemplos.indice2 3)
    = Retorna (scores, indices)
    /\ length indices = 3%nat
    /\ snd (modo_faq Exemplos.encode_fixo Faiss.ordena_estavel Exemplos.faq2
              (Exemplos.pontos " ola "))
       = Retorna tt
    /\ nth_error indices 2 = Some (-1)%Z.
Proof.
  destruct (modo_faq_run Exemplos.encode_fixo Faiss.ordena_estavel
              Exemplos.faq2 (Exemplos.pontos " ola ") Exemplos.indice2
              [JStr (Exemplos.pontos "P1"); JStr (Exemplos.pontos "P2")]
              [JStr (Exemplos.pontos "R1"); JStr (Exemplos.pontos "R2")]
              [JStr (Exemplos.pontos "F1"); JStr (Exemplos.pontos "F2")]
              ordena_estavel_ok)
    as [scores [indices [Hrun [Hlen [Hmodo [Hfill _]]]]]];
    try reflexivity.
  - vm_compute. discriminate.
  - repeat constructor.
  - exists scores, indices. split; [exact Hrun|]. split; [exact Hlen|].
    split; [rewrite Hmodo; reflexivity|].
    apply Hfill. simpl. lia.
Defined.

Lemma map_nth_seq {A : Type} (l : list A) (d : A) :
  map (fun i => nth i l d) (seq 0 (length l)) = l.
Proof.
  induction l as [|x r IH]; simpl; [reflexivity|].
  rewrite <- seq_shift, map_map. simpl. now rewrite IH.
Qed.

(* The run of the film mode, as the properties below use it. *)
Lemma modo_filmes_execucao
  (encode : texto -> vetor) (ordena : list (R * Z) -> list (R * Z))
  (dados : Dados) (digitado : texto) (indice : Faiss.IndexFlatIP)
  (titulos descricoes : list json) :
  Faiss.ordenacao_decrescente ordena ->
  strip digitado <> [] ->
  snd (criar_indice_faiss (embeddings dados)) = Retorna indice ->
  length (encode (strip digitado)) = Faiss.d indice ->
  obter "titulos" (outros dados) = Some (JArr titulos) ->
  obter "descricoes" (outros dados) = Some (JArr descricoes) ->
  length titulos = length (embeddings dados) ->
  length descricoes = length (embeddings dados) ->
  Forall fatiavel descricoes ->
  let N := length (embeddings dados) in
  let q := div_escalar (encode (strip digitado))
                       (norm (encode (strip digitado))) in
  exists scores indices,
    snd (buscar_similares encode ordena (strip digitado) indice N)
    = Retorna (scores, indices)
    /\ modo_filmes encode ordena dados digitado
       = ([EvPrint (Cabecalho "🎬 MODO FILMES - RECOMENDAÇÃO POR DESCRIÇÃO");
           EvIndexFlatIP (Faiss.d indice); EvAdd (Faiss.xb indice);
           EvInput "🎥 Descreva o filme que procura: ";
           EvPrint (Buscando (strip digitado));
           EvEncode (strip digitado); EvSearch [q] N;
           EvPrint (Texto "🎬 FILMES RANQUEADOS POR SIMILARIDADE")]
          ++ flat_map (linhas_filme titulos descricoes)
                      (enumerate1 (combine scores indices)),
          Retorna tt)
    /\ Permutation (map (fun idx => py_get titulos idx JNull) indices)
                   titulos
    /\ length scores = length indices.
Proof.
  intros Hord Hq Hidx Hd Ht Hde Lt Ld Hfat N q.
  pose proof (criar_indice_faiss_inv _ _ Hidx) as [Hne [_ Hxb]].
  assert (HN : length (Faiss.xb indice) = N)
    by (rewrite Hxb; apply length_map).
  assert (HN1 : (1 <= N)%nat).
  { unfold N. destruct (embeddings dados); [contradiction|simpl; lia]. }
  pose proof (buscar_similares_run encode ordena (strip digitado) indice N
                Hd HN1) as Hrun.
  cbv zeta in Hrun. fold q in Hrun.
  assert (Hlen : len_campo dados "titulos" = Retorna N)
    by (unfold len_campo; rewrite Ht, Lt; reflexivity).
  exists (map fst (Faiss.linha ordena indice N q)),
         (map snd (Faiss.linha ordena indice N q)).
  split; [rewrite Hrun; reflexivity|].
  split.
  - unfold modo_filmes. rewrite (criar_indice_faiss_run _ _ Hidx).
    cbn [pliga print emite fst snd app].
    rewrite (match_nao_vazio (strip digitado) _ _ Hq).
    cbn [pliga print emite fst snd app]. rewrite Hlen.
    cbn [pliga eleva print emite fst snd app]. rewrite Hrun.
    cbn [pliga print emite fst snd app].
    rewrite combine_map_fst_snd.
    rewrite (para_cada_run _ _ (linhas_filme titulos descricoes)).
    + reflexivity.
    + intros [i [s idx]] Hin. apply in_enumerate1 in Hin.
      apply (labels_da_linha ordena indice N q s idx Hord) in Hin;
        [|lia].
      rewrite HN in Hin. cbn [fst snd].
      rewrite (metadado_get dados "titulos" titulos idx Ht)
        by (rewrite Lt; exact Hin).
      rewrite (metadado_get dados "descricoes" descricoes idx Hde)
        by (rewrite Ld; exact Hin).
      cbn [pliga eleva print emite fst snd app].
      rewrite cortar_recorte.
      * reflexivity.
      * rewrite Forall_forall in Hfat. apply Hfat.
        unfold py_get. apply nth_In. rewrite Ld. fold N.
        destruct (idx <? 0)%Z eqn:E;
          [apply Z.ltb_lt in E|apply Z.ltb_ge in E]; lia.
  - split; [|now rewrite !length_map].
    assert (Hl : Faiss.linha ordena indice N q
                 = ordena (Faiss.pontuar indice q)).
    { pose proof (firstn_linha ordena Hord indice q N) as Hf.
      rewrite HN, Nat.min_id in Hf.
      rewrite firstn_all2 in Hf
        by (rewrite (length_linha ordena Hord); lia).
      rewrite Hf. apply firstn_all2.
      rewrite (length_todos ordena Hord). lia. }
    rewrite Hl.
    pose proof (todos_labels ordena Hord indice q) as Hperm.
    rewrite HN in Hperm.
    rewrite (Permutation_map (fun idx => py_get titulos idx JNull) Hperm).
    rewrite map_map.
    rewrite (map_ext _ (fun i => nth i titulos JNull))
      by (intros i; apply py_get_nat).
    unfold N. rewrite <- Lt, map_nth_seq. reflexivity.
Qed.

(** The film mode on a line that is not blank: with [titulos] and
    [descricoes] in place (as many entries as stored vectors, the
    descriptions being texts), it prints one group of rows for every film,
    each film exactly once, in the order of the search, and returns.  The
    stored vectors and the embedding of the line are [nao_degenerado], so
    that every score is a number. *)
Theorem modo_filmes_run
  (encode : texto -> vetor) (ordena : list (R * Z) -> list (R * Z))
  (dados : Dados) (digitado : texto) (indice : Faiss.IndexFlatIP)
  (titulos descricoes : list json) :
  Faiss.ordenacao_decrescente ordena ->
  Forall nao_degenerado (embeddings dados) ->
  nao_degenerado (encode (strip digitado)) ->
  strip digitado <> [] ->
  snd (criar_indice_faiss (embeddings dados)) = Retorna indice ->
  length (encode (strip digitado)) = Faiss.d indice ->
  obter "titulos" (outros dados) = Some (JArr titulos) ->
  obter "descricoes" (outros dados) = Some (JArr descricoes) ->
  length titulos = length (embeddings dados) ->
  length descricoes = length (embeddings dados) ->
  Forall fatiavel descricoes ->
  let N := length (embeddings dados) in
  let q := div_escalar (encode (strip digitado))
                       (norm (encode (strip digitado))) in
  exists scores indices,
    snd (buscar_similares encode ordena (strip digitado) indice N)
    = Retorna (scores, indices)
    /\ modo_filmes encode ordena dados digitado
       = ([EvPrint (Cabecalho "🎬 MODO FILMES - RECOMENDAÇÃO POR DESCRIÇÃO");
           EvIndexFlatIP (Faiss.d indice); EvAdd (Faiss.xb indice);
           EvInput "🎥 Descreva o filme que procura: ";
           EvPrint (Buscando (strip digitado));
           EvEncode (strip digitado); EvSearch [q] N;
           EvPrint (Texto "🎬 FILMES RANQUEADOS POR SIMILARIDADE")]
          ++ flat_map (linhas_filme titulos descricoes)
                      (enumerate1 (combine scores indices)),
          Retorna tt)
    /\ Permutation (map (fun idx => py_get titulos idx JNull) indices)
                   titulos
    /\ length scores = length indices.
Proof.
  intros Hord _ _.
  exact (modo_filmes_execucao encode ordena dados digitado indice
           titulos descricoes Hord).
Qed.

Lemma modo_filmes_run_witness :
  exists scores indices,
    snd (buscar_similares Exemplos.encode_fixo Faiss.ordena_estavel
           (strip (Exemplos.pontos " ola ")) Exemplos.indice2 2)
    = Retorna (scores, indices)
    /\ snd (modo_filmes Exemplos.encode_fixo Faiss.ordena_estavel
              Exemplos.filmes2 (Exemplos.pontos " ola "))
       = Retorna tt.
Proof.
  destruct (modo_filmes_run Exemplos.encode_fixo Faiss.ordena_estavel
              Exemplos.filmes2 (Exemplos.pontos " ola ") Exemplos.indice2
              [JStr (Exemplos.pontos "T1"); JStr (Exemplos.pontos "T2")]
              [JStr (Exemplos.pontos "D1"); JStr (Exemplos.pontos "D2")]
              ordena_estavel_ok colecao2_nao_degenerada nao_degenerado_34)
    as [scores [indices [Hrun [Hmodo _]]]];
    try reflexivity.
  - vm_compute. discriminate.
  - repeat constructor.
  - exists scores, indices. split; [exact Hrun|].
    rewrite Hmodo. reflexivity.
Defined.

(** ** Empty collections and missing fields *)

(** On a document whose array of embeddings is empty, the FAQ mode and
    the film mode raise [IndexError] right after their header, before the
    index is created and before any line is read; the anomaly mode prints
    its headers, no row, and returns. *)
Theorem modos_colecao_vazia
  (encode : texto -> vetor) (ordena : list (R * Z) -> list (R * Z))
  (dados : Dados) (digitado : texto) :
  embeddings dados = [] ->
  modo_faq encode ordena dados digitado
  = ([EvPrint (Cabecalho "📄 MODO FAQ - BUSCA SEMÂNTICA")],
     Levanta IndexError)
  /\ modo_filmes encode ordena dados digitado
     = ([EvPrint (Cabecalho "🎬 MODO FILMES - RECOMENDAÇÃO POR DESCRIÇÃO")],
        Levanta IndexError)
  /\ modo_anomalias dados
     = ([EvPrint (Cabecalho "⚠️  MODO DETECÇÃO DE ANOMALIAS");
         EvPrint (TotalFeedbacks 0);
         EvPrint
           (Texto "🔄 Calculando similaridade média de cada feedback...");
         EvPrint (Texto "🚨 TOP 5 FEEDBACKS ANÔMALOS DETECTADOS")],
        Retorna tt).
Proof.
  intros He. unfold modo_faq, modo_filmes, modo_anomalias.
  rewrite He. repeat split; reflexivity.
Qed.

Lemma modos_colecao_vazia_witness :
  modo_anomalias {| embeddings := []; outros := [] |}
  = ([EvPrint (Cabecalho "⚠️  MODO DETECÇÃO DE ANOMALIAS");
      EvPrint (TotalFeedbacks 0);
      EvPrint (Texto "🔄 Calculando similaridade média de cada feedback...");
      EvPrint (Texto "🚨 TOP 5 FEEDBACKS ANÔMALOS DETECTADOS")],
     Retorna tt).
Proof.
  apply (modos_colecao_vazia Exemplos.encode_fixo Faiss.ordena_estavel
           {| embeddings := []; outros := [] |} []).
  reflexivity.
Defined.

Lemma para_cada_falha {A : Type} (x : A) (r : list A)
  (corpo : A -> prog unit) (t : list evento) (e : excecao) :
  corpo x = (t, Levanta e) -> para_cada (x :: r) corpo = (t, Levanta e).
Proof. intros Hc. simpl. rewrite Hc. reflexivity. Qed.

(** A FAQ document without the field [perguntas]: the search is made,
    the header of the results is printed, and the first lookup raises
    [KeyError]; no row is shown. *)
Theorem modo_faq_sem_perguntas
  (encode : texto -> vetor) (ordena : list (R * Z) -> list (R * Z))
  (dados : Dados) (digitado : texto) (indice : Faiss.IndexFlatIP) :
  Faiss.ordenacao_decrescente ordena ->
  strip digitado <> [] ->
  snd (criar_indice_faiss (embeddings dados)) = Retorna indice ->
  length (encode (strip digitado)) = Faiss.d indice ->
  obter "perguntas" (outros dados) = None ->
  modo_faq encode ordena dados digitado
  = ([EvPrint (Cabecalho "📄 MODO FAQ - BUSCA SEMÂNTICA");
      EvIndexFlatIP (Faiss.d indice); EvAdd (Faiss.xb indice);
      EvInput "❓ Digite sua pergunta: ";
      EvPrint (Buscando (strip digitado));
      EvEncode (strip digitado);
      EvSearch [div_escalar (encode (strip digitado))
                            (norm (encode (strip digitado)))] 3;
      EvPrint (Texto "🏆 TOP 3 RESPOSTAS MAIS RELEVANTES")],
     Levanta KeyError).
Proof.
  intros Hord Hq Hidx Hd Hp.
  pose proof (buscar_similares_run encode ordena (strip digitado) indice 3
                Hd (le_S _ _ (le_S _ _ (le_n 1)))) as Hrun.
  cbv zeta in Hrun.
  set (q := div_escalar (encode (strip digitado))
                        (norm (encode (strip digitado)))) in *.
  pose proof (length_linha ordena Hord indice q 3) as Hlen.
  unfold modo_faq. rewrite (criar_indice_faiss_run _ _ Hidx).
  cbn [pliga print emite fst snd app].
  rewrite (match_nao_vazio (strip digitado) _ _ Hq).
  cbn [pliga print emite fst snd app]. rewrite Hrun.
  cbn [pliga print emite fst snd app].
  rewrite combine_map_fst_snd.
  destruct (Faiss.linha ordena indice 3 q) as [|[s idx] resto];
    [discriminate Hlen|].
  unfold enumerate1. cbn [length seq combine].
  rewrite (para_cada_falha _ _ _ [] KeyError).
  - reflexivity.
  - cbn [fst snd]. unfold metadado at 1. rewrite Hp. reflexivity.
Qed.

Lemma modo_faq_sem_perguntas_witness :
  snd (modo_faq Exemplos.encode_fixo Faiss.ordena_estavel
         {| embeddings := Exemplos.colecao2; outros := [] |}
         (Exemplos.pontos "ola"))
  = Levanta KeyError.
Proof.
  rewrite (modo_faq_sem_perguntas Exemplos.encode_fixo Faiss.ordena_estavel
             {| embeddings := Exemplos.colecao2; outros := [] |}
             (Exemplos.pontos "ola") Exemplos.indice2 ordena_estavel_ok).
  - reflexivity.
  - vm_compute. discriminate.
  - reflexivity.
  - reflexivity.
  - reflexivity.
Defined.

(** A film document without the field [titulos]: the mode raises
    [KeyError] when it counts the films, before the encoder is called and
    before the index is searched. *)
Theorem modo_filmes_sem_titulos
  (encode : texto -> vetor) (ordena : list (R * Z) -> list (R * Z))
  (dados : Dados) (digitado : texto) (indice : Faiss.IndexFlatIP) :
  strip digitado <> [] ->
  snd (criar_indice_faiss (embeddings dados)) = Retorna indice ->
  obter "titulos" (outros dados) = None ->
  modo_filmes encode ordena dados digitado
  = ([EvPrint (Cabecalho "🎬 MODO FILMES - RECOMENDAÇÃO POR DESCRIÇÃO");
      EvIndexFlatIP (Faiss.d indice); EvAdd (Faiss.xb indice);
      EvInput "🎥 Descreva o filme que procura: ";
      EvPrint (Buscando (strip digitado))],
     Levanta KeyError).
Proof.
  intros Hq Hidx Ht.
  unfold modo_filmes. rewrite (criar_indice_faiss_run _ _ Hidx).
  cbn [pliga print emite fst snd app].
  rewrite (match_nao_vazio (strip digitado) _ _ Hq).
  unfold len_campo. rewrite Ht. reflexivity.
Qed.

Lemma modo_filmes_sem_titulos_witness :
  snd (modo_filmes Exemplos.encode_fixo Faiss.ordena_estavel
         {| embeddings := Exemplos.colecao2; outros := [] |}
         (Exemplos.pontos "ola"))
  = Levanta KeyError.
Proof.
  rewrite (modo_filmes_sem_titulos Exemplos.encode_fixo Faiss.ordena_estavel
             {| embeddings := Exemplos.colecao2; outros := [] |}
             (Exemplos.pontos "ola") Exemplos.indice2).
  - reflexivity.
  - vm_compute. discriminate.
  - reflexivity.
  - reflexivity.
Defined.

(** ** Small collections in the anomaly mode *)

(** With three items or fewer, every item of the collection is among the
    ones the anomaly mode takes, each once. *)
Theorem anomalias_colecao_pequena (embeddings : matriz) :
  (length embeddings <= 3)%nat ->
  Permutation (map fst (anomalias embeddings)) (seq 0 (length embeddings)).
Proof.
  intros HN. unfold anomalias.
  rewrite firstn_all2 by (rewrite length_scores_ordenados; exact HN).
  rewrite (Permutation_map fst (scores_ordenados_perm embeddings)).
  rewrite map_fst_scores_medios. reflexivity.
Qed.

Lemma anomalias_colecao_pequena_witness :
  Permutation (map fst (anomalias Exemplos.colecao2)) [0%nat; 1%nat].
Proof.
  apply (anomalias_colecao_pequena Exemplos.colecao2). simpl. lia.
Defined.

(** ** Exceptions of a mode in the loop of [main] *)

(** An exception raised inside a mode is not caught by the loop of
    [main]: when the file was loaded and the mode ends with an exception,
    the turn ends with that exception, after the events of the mode and
    without the prompt that pauses before the menu. *)
Theorem turno_excecao_do_modo
  (encode : texto -> vetor) (ordena : list (R * Z) -> list (R * Z))
  (abrir : string -> resultado string)
  (json_load : string -> resultado json)
  (np_array : json -> resultado matriz)
  (escolha digitado : texto) (caminho : string) (dados : Dados)
  (modo : prog unit) (rastro : list evento) (erro : excecao) :
  (escolha = [49%N] /\ caminho = caminho_faq
   /\ modo = modo_faq encode ordena dados digitado)
  \/ (escolha = [50%N] /\ caminho = caminho_filmes
      /\ modo = modo_filmes encode ordena dados digitado)
  \/ (escolha = [51%N] /\ caminho = caminho_avaliacoes
      /\ modo = modo_anomalias dados) ->
  carregar_embeddings abrir json_load np_array caminho
  = ([], Retorna (Some dados)) ->
  modo = (rastro, Levanta erro) ->
  turno encode ordena abrir json_load np_array escolha digitado
  = (rastro, Levanta erro).
Proof.
  intros [(-> & -> & ->)|[(-> & -> & ->)|(-> & -> & ->)]] Hc Hm;
    unfold turno, texto_eqb;
    repeat match goal with
    | |- context [list_eq_dec N.eq_dec ?a ?b] =>
        let H := fresh in
        destruct (list_eq_dec N.eq_dec a b) as [H|H];
        [try discriminate H|try (exfalso; apply H; reflexivity)]
    end; rewrite Hc; unfold pliga at 1; cbn [fst snd app se_dados];
    unfold pliga at 1; rewrite Hm; reflexivity.
Qed.

Lemma turno_excecao_do_modo_witness :
  turno Exemplos.encode_fixo Faiss.ordena_estavel
    (fun _ => Retorna "vazio"%string)
    (fun _ => Retorna (JObj [("embeddings"%string, JArr [])]))
    Exemplos.np_array_fileiras [49%N] (Exemplos.pontos "ola")
  = ([EvPrint (Cabecalho "📄 MODO FAQ - BUSCA SEMÂNTICA")],
     Levanta IndexError).
Proof.
  apply (turno_excecao_do_modo Exemplos.encode_fixo Faiss.ordena_estavel
           (fun _ => Retorna "vazio"%string)
           (fun _ => Retorna (JObj [("embeddings"%string, JArr [])]))
           Exemplos.np_array_fileiras [49%N] (Exemplos.pontos "ola")
           caminho_faq {| embeddings := []; outros := [] |}
           (modo_faq Exemplos.encode_fixo Faiss.ordena_estavel
              {| embeddings := []; outros := [] |} (Exemplos.pontos "ola"))).
  - left. repeat split.
  - reflexivity.
  - reflexivity.
Defined.

(** * The converter *)

(** ** White space at the ends of a text *)

Lemma length_lstrip (s : texto) : (length (lstrip s) <= length s)%nat.
Proof.
  induction s as [|c r IH]; simpl; [lia|].
  destruct (isspace c); simpl; lia.
Qed.

Lemma lstrip_cons (c : N) (r : texto) :
  lstrip (c :: r) = c :: r <-> isspace c = false.
Proof.
  simpl. destruct (isspace c) eqn:Hc; split; intros H;
    try reflexivity; try discriminate.
  pose proof (length_lstrip r) as Hl. rewrite H in Hl. simpl in Hl. lia.
Qed.

Lemma lstrip_idem (s : texto) : lstrip (lstrip s) = lstrip s.
Proof.
  induction s as [|c r IH]; [reflexivity|].
  simpl. destruct (isspace c) eqn:Hc; [exact IH|].
  simpl. now rewrite Hc.
Qed.

Lemma lstrip_app (s t : texto) :
  s <> [] -> lstrip s = s -> lstrip (s ++ t) = s ++ t.
Proof.
  destruct s as [|c r]; [congruence|]. intros _ H.
  apply lstrip_cons in H. simpl. now rewrite H.
Qed.

Lemma lstrip_decomp (s : texto) :
  exists brancos,
    s = brancos ++ lstrip s /\ Forall (fun c => isspace c = true) brancos.
Proof.
  induction s as [|c r (b & Hb & Hs)].
  - exists []. split; [reflexivity|constructor].
  - simpl. destruct (isspace c) eqn:Hc.
    + exists (c :: b). split.
      * simpl. now rewrite <- Hb.
      * now constructor.
    + exists []. split; [reflexivity|constructor].
Qed.

Lemma lstrip_nil (s : texto) :
  lstrip s = [] -> Forall (fun c => isspace c = true) s.
Proof.
  intros H. destruct (lstrip_decomp s) as (b & Hb & Hs).
  rewrite H, app_nil_r in Hb. now subst.
Qed.

Lemma strip_nil (s : texto) :
  strip s = [] -> Forall (fun c => isspace c = true) s.
Proof.
  unfold strip. intros H.
  assert (Hr : lstrip (rev (lstrip s)) = []).
  { rewrite <- (rev_involutive (lstrip (rev (lstrip s)))), H. reflexivity. }
  apply lstrip_nil in Hr.
  destruct (lstrip_decomp s) as (b & Hb & Hs).
  rewrite Hb. apply Forall_app. split; [exact Hs|].
  apply Forall_forall. intros c Hc.
  rewrite Forall_forall in Hr. apply Hr. now apply -> in_rev.
Qed.

(** What [strip] returns has no white space at either end. *)
Lemma strip_bordas (s : texto) :
  lstrip (strip s) = strip s /\ lstrip (rev (strip s)) = rev (strip s).
Proof.
  unfold strip. rewrite rev_involutive. split; [|apply lstrip_idem].
  destruct (lstrip_decomp (rev (lstrip s))) as (b & Hb & _).
  destruct (lstrip (rev (lstrip s))) as [|u w] eqn:Hw; [reflexivity|].
  assert (Ha : lstrip s = rev (u :: w) ++ rev b).
  { rewrite <- rev_app_distr, <- Hb, rev_involutive. reflexivity. }
  assert (Hne : rev (u :: w) <> []).
  { intros Hn. apply (f_equal (@length N)) in Hn.
    rewrite length_rev in Hn. discriminate. }
  destruct (rev (u :: w)) as [|c r] eqn:Hrev; [congruence|].
  apply lstrip_cons.
  assert (Hi : lstrip (lstrip s) = lstrip s) by apply lstrip_idem.
  rewrite Ha in Hi. simpl app in Hi. now apply lstrip_cons in Hi.
Qed.

Lemma strip_fixo (s : texto) :
  lstrip s = s -> lstrip (rev s) = rev s -> strip s = s.
Proof.
  intros H1 H2. unfold strip. rewrite H1, H2. apply rev_involutive.
Qed.

Lemma strip_idem (s : texto) : strip (strip s) = strip s.
Proof. destruct (strip_bordas s) as [H1 H2]. now apply strip_fixo. Qed.

Lemma limpa_strip (s : texto) : strip s <> [] -> limpa (strip s).
Proof. intros H. split; [exact H|apply strip_idem]. Qed.

Lemma limpa_bordas (s : texto) :
  limpa s -> s <> [] /\ lstrip s = s /\ lstrip (rev s) = rev s.
Proof.
  intros [Hn Hs]. destruct (strip_bordas s) as [H1 H2].
  rewrite Hs in H1, H2. auto.
Qed.

Lemma rev_nao_vazio {A : Type} (l : list A) : l <> [] -> rev l <> [].
Proof.
  intros H Hr. apply H. apply (f_equal (@length A)) in Hr.
  rewrite length_rev in Hr. now destruct l.
Qed.

Lemma limpa_app (s t meio : texto) :
  limpa s -> limpa t -> limpa (s ++ meio ++ t).
Proof.
  intros Hs Ht.
  apply limpa_bordas in Hs. destruct Hs as (Hsn & Hs1 & _).
  apply limpa_bordas in Ht. destruct Ht as (Htn & _ & Ht2).
  split.
  - destruct s; [congruence|discriminate].
  - apply strip_fixo.
    + now apply lstrip_app.
    + rewrite !rev_app_distr, <- app_assoc.
      apply lstrip_app; [now apply rev_nao_vazio|exact Ht2].
Qed.

(** ** [join] and the pattern of a numbered line *)

Lemma join_cons (sep p : texto) (r : list texto) :
  exists t, join sep (p :: r) = p ++ t.
Proof.
  destruct r as [|q r]; simpl.
  - exists []. now rewrite app_nil_r.
  - eexists. reflexivity.
Qed.

Lemma limpa_join (sep : texto) (partes : list texto) :
  partes <> [] -> Forall limpa partes -> limpa (join sep partes).
Proof.
  induction partes as [|p r IH]; [congruence|].
  intros _ H. inversion H as [|? ? Hp Hr]; subst.
  destruct r as [|q r]; [exact Hp|].
  change (join sep (p :: q :: r)) with (p ++ sep ++ join sep (q :: r)).
  apply limpa_app; [exact Hp|]. apply IH; [discriminate|exact Hr].
Qed.

Section PadraoNumero.

Variable digito : N -> bool.

Lemma resto_do_numero_app (s t : texto) :
  resto_do_numero digito s = true -> resto_do_numero digito (s ++ t) = true.
Proof.
  induction s as [|c r IH]; simpl; [discriminate|].
  intros H. apply orb_true_iff in H. apply orb_true_iff.
  destruct H as [H|H]; [now left|right].
  apply andb_true_iff in H. destruct H as [Hd Hr].
  apply andb_true_iff. split; [exact Hd|now apply IH].
Qed.

Lemma padrao_numero_app (s t : texto) :
  padrao_numero digito s = true -> padrao_numero digito (s ++ t) = true.
Proof.
  destruct s as [|c r]; simpl; [discriminate|].
  intros H. apply andb_true_iff in H. destruct H as [Hd Hr].
  apply andb_true_iff. split; [exact Hd|now apply resto_do_numero_app].
Qed.

(** ** The lines that are kept *)

Lemma fold_limpar_linha (linhas : list texto) (pulou : bool)
  (limpas : list texto) :
  fold_left limpar_linha linhas (pulou, limpas)
  = let ficam := filter nao_vazio (map strip linhas) in
    if pulou then (true, limpas ++ ficam)
    else match ficam with
         | [] => (false, limpas)
         | _ :: depois => (true, limpas ++ depois)
         end.
Proof.
  revert pulou limpas.
  induction linhas as [|l r IH]; intros pulou limpas.
  - simpl. rewrite app_nil_r. now destruct pulou.
  - cbn [fold_left map filter]. unfold limpar_linha at 2.
    destruct (strip l) as [|c w] eqn:Hl.
    + cbn [nao_vazio]. apply IH.
    + cbn [nao_vazio]. destruct pulou; cbn [negb].
      * rewrite IH. cbv zeta. now rewrite <- app_assoc.
      * rewrite IH. reflexivity.
Qed.

Lemma limpar_linhas_filter (linhas : list texto) :
  limpar_linhas linhas = tl (filter nao_vazio (map strip linhas)).
Proof.
  unfold limpar_linhas. rewrite fold_limpar_linha. cbv zeta.
  now destruct (filter nao_vazio (map strip linhas)).
Qed.

Lemma in_tl {A : Type} (x : A) (l : list A) : In x (tl l) -> In x l.
Proof. destruct l; simpl; auto. Qed.

Lemma limpar_linhas_in (linhas : list texto) (l : texto) :
  In l (limpar_linhas linhas) ->
  exists bruta, In bruta linhas /\ l = strip bruta /\ l <> [].
Proof.
  rewrite limpar_linhas_filter. intros H. apply in_tl in H.
  apply filter_In in H. destruct H as [H Hn].
  apply in_map_iff in H. destruct H as (b & Hb & Hin).
  exists b. repeat split; auto. intros ->. discriminate.
Qed.

Lemma limpar_linhas_limpas (linhas : list texto) :
  Forall limpa (limpar_linhas linhas).
Proof.
  apply Forall_forall. intros l H.
  apply limpar_linhas_in in H. destruct H as (b & _ & -> & Hn).
  now apply limpa_strip.
Qed.

(** ** The loops over the lines *)

Lemma acumular_pergunta_partes (restantes : list texto) :
  forall anterior partes,
  exists tomadas,
    restantes
    = tomadas ++ snd (acumular_pergunta anterior partes restantes)
    /\ fst (acumular_pergunta anterior partes restantes) = partes ++ tomadas.
Proof.
  induction restantes as [|p r IH]; intros anterior partes.
  - exists []. simpl. now rewrite app_nil_r.
  - simpl. destruct (endswith interrogacao anterior); cbn [negb].
    + exists []. simpl. now rewrite app_nil_r.
    + destruct (IH p (partes ++ [p])) as (t & Ht & Hf).
      exists (p :: t). split.
      * simpl. now rewrite <- Ht.
      * rewrite Hf, <- app_assoc. reflexivity.
Qed.

Lemma acumular_resposta_partes (restantes : list texto) :
  forall partes,
  exists tomadas,
    restantes = tomadas ++ snd (acumular_resposta digito partes restantes)
    /\ fst (acumular_resposta digito partes restantes) = partes ++ tomadas.
Proof.
  induction restantes as [|p r IH]; intros partes.
  - exists []. simpl. now rewrite app_nil_r.
  - simpl. destruct (padrao_numero digito p); cbn [negb].
    + exists []. simpl. now rewrite app_nil_r.
    + destruct (IH (partes ++ [p])) as (t & Ht & Hf).
      exists (p :: t). split.
      * simpl. now rewrite <- Ht.
      * rewrite Hf, <- app_assoc. reflexivity.
Qed.

Lemma laco_principal_fim (voltas : nat) (perguntas respostas : list texto) :
  laco_principal digito voltas [] perguntas respostas
  = ([], (perguntas, respostas)).
Proof. now destruct voltas. Qed.

(** What the main loop keeps true of the two lists, and that the turns
    given suffice. *)
Lemma laco_principal_inv (voltas : nat) :
  forall restantes perguntas respostas,
    (length restantes <= voltas)%nat ->
    Forall limpa restantes ->
    length perguntas = length respostas ->
    Forall (fun p => limpa p /\ padrao_numero digito p = true) perguntas ->
    Forall limpa respostas ->
    let fim := laco_principal digito voltas restantes perguntas respostas in
    fst fim = []
    /\ length (fst (snd fim)) = length (snd (snd fim))
    /\ Forall (fun p => limpa p /\ padrao_numero digito p = true)
              (fst (snd fim))
    /\ Forall limpa (snd (snd fim)).
Proof.
  induction voltas as [|v IH]; intros restantes perguntas respostas
    Hlen Hlimpas Hpar Hper Hres.
  - destruct restantes; [|simpl in Hlen; lia]. simpl. auto.
  - destruct restantes as [|linha seguintes]; [simpl; auto|].
    inversion Hlimpas as [|? ? Hlinha Hseg]; subst.
    cbn [laco_principal]. cbv zeta.
    destruct (padrao_numero digito linha) eqn:Hnum.
    + destruct (acumular_pergunta_partes seguintes linha [linha])
        as (tp & Htp & Hfp).
      destruct (acumular_pergunta linha [linha] seguintes)
        as [pergunta_partes apos_pergunta].
      cbn [fst snd] in Htp, Hfp.
      destruct (acumular_resposta_partes apos_pergunta [])
        as (tr & Htr & Hfr).
      destruct (acumular_resposta digito [] apos_pergunta)
        as [resposta_partes apos_resposta].
      cbn [fst snd] in Htr, Hfr.
      assert (Hseg2 : Forall limpa tp /\ Forall limpa apos_pergunta).
      { rewrite Htp in Hseg. now apply Forall_app in Hseg. }
      destruct Hseg2 as [Htpl Hapl].
      assert (Hseg3 : Forall limpa tr /\ Forall limpa apos_resposta).
      { rewrite Htr in Hapl. now apply Forall_app in Hapl. }
      destruct Hseg3 as [Htrl Harl].
      assert (Hcurto : (length apos_resposta <= v)%nat).
      { simpl in Hlen. rewrite Htp, Htr in Hlen.
        rewrite !length_app in Hlen. lia. }
      assert (Hpc : limpa (join [espaco] pergunta_partes)).
      { rewrite Hfp. apply limpa_join; [discriminate|].
        constructor; assumption. }
      assert (Hpn : padrao_numero digito (join [espaco] pergunta_partes)
                    = true).
      { rewrite Hfp. cbn [app].
        destruct (join_cons [espaco] linha tp) as (t & ->).
        now apply padrao_numero_app. }
      destruct Hpc as [Hpc1 Hpc2]. rewrite Hpc2.
      destruct (join [espaco] pergunta_partes) as [|c w] eqn:Hj;
        [congruence|]. rewrite <- Hj in *.
      destruct (strip (join [espaco] resposta_partes)) as [|c' w'] eqn:Hr.
      * apply IH; assumption.
      * rewrite <- Hr. apply IH; try assumption.
        -- rewrite !length_app. simpl. lia.
        -- apply Forall_app. split; [assumption|].
           constructor; [|constructor]. split; [|exact Hpn].
           split; assumption.
        -- apply Forall_app. split; [assumption|].
           constructor; [|constructor].
           apply limpa_strip. rewrite Hr. discriminate.
    + apply IH; try assumption. simpl in Hlen. lia.
Qed.

End PadraoNumero.

Lemma extrair_perguntas_respostas_de_texto_inv (digito : N -> bool)
  (texto_faq : texto) :
  length (fst (extrair_perguntas_respostas_de_texto digito texto_faq))
  = length (snd (extrair_perguntas_respostas_de_texto digito texto_faq))
  /\ Forall (fun p => limpa p /\ padrao_numero digito p = true)
            (fst (extrair_perguntas_respostas_de_texto digito texto_faq))
  /\ Forall limpa
            (snd (extrair_perguntas_respostas_de_texto digito texto_faq)).
Proof.
  unfold extrair_perguntas_respostas_de_texto.
  destruct (laco_principal_inv digito
              (length (limpar_linhas (split_linhas texto_faq)))
              (limpar_linhas (split_linhas texto_faq)) [] [])
    as (_ & H2 & H3 & H4); auto using limpar_linhas_limpas.
Qed.

(** The lists of questions and of answers that are extracted from a text
    have the same length, and the main loop stops because it has read
    every line. *)
Theorem extrair_perguntas_respostas_de_texto_pares (digito : N -> bool)
  (texto_faq : texto) :
  let linhas_limpas := limpar_linhas (split_linhas texto_faq) in
  fst (laco_principal digito (length linhas_limpas) linhas_limpas [] []) = []
  /\ length (fst (extrair_perguntas_respostas_de_texto digito texto_faq))
     = length (snd (extrair_perguntas_respostas_de_texto digito texto_faq)).
Proof.
  cbv zeta. unfold extrair_perguntas_respostas_de_texto.
  destruct (laco_principal_inv digito
              (length (limpar_linhas (split_linhas texto_faq)))
              (limpar_linhas (split_linhas texto_faq)) [] [])
    as (H1 & H2 & _); auto using limpar_linhas_limpas.
Qed.

(** Every question that is extracted starts with a number and a full
    stop; no question and no answer is empty or has white space at either
    end. *)
Theorem extrair_perguntas_respostas_de_texto_limpas (digito : N -> bool)
  (texto_faq : texto) :
  Forall (fun p => limpa p /\ padrao_numero digito p = true)
         (fst (extrair_perguntas_respostas_de_texto digito texto_faq))
  /\ Forall limpa
            (snd (extrair_perguntas_respostas_de_texto digito texto_faq)).
Proof.
  unfold extrair_perguntas_respostas_de_texto.
  destruct (laco_principal_inv digito
              (length (limpar_linhas (split_linhas texto_faq)))
              (limpar_linhas (split_linhas texto_faq)) [] [])
    as (_ & _ & H3 & H4); auto using limpar_linhas_limpas.
Qed.

(** ** Lines of a text *)

Lemma split_linhas_sem_quebra (t : texto) :
  ~ In quebra t -> split_linhas t = [t].
Proof.
  induction t as [|c r IH]; [reflexivity|].
  intros H. simpl.
  destruct (c =? 10)%N eqn:Hc.
  - apply N.eqb_eq in Hc. exfalso. apply H. left. now subst.
  - rewrite IH; [reflexivity|]. intros Hin. apply H. now right.
Qed.

Lemma split_linhas_app (t r : texto) :
  ~ In quebra t -> split_linhas (t ++ quebra :: r) = t :: split_linhas r.
Proof.
  induction t as [|c w IH]; [reflexivity|].
  intros H. cbn [app split_linhas].
  destruct (c =? 10)%N eqn:Hc.
  - apply N.eqb_eq in Hc. exfalso. apply H. left. now subst.
  - rewrite IH; [reflexivity|]. intros Hin. apply H. now right.
Qed.

Lemma split_linhas_join (linhas : list texto) :
  linhas <> [] ->
  Forall (fun l => ~ In quebra l) linhas ->
  split_linhas (join [quebra] linhas) = linhas.
Proof.
  induction linhas as [|l r IH]; [congruence|].
  intros _ H. inversion H as [|? ? Hl Hr]; subst.
  destruct r as [|q r]; [now apply split_linhas_sem_quebra|].
  change (join [quebra] (l :: q :: r))
    with (l ++ quebra :: join [quebra] (q :: r)).
  rewrite split_linhas_app by exact Hl.
  rewrite IH; [reflexivity|discriminate|exact Hr].
Qed.

Lemma limpar_linhas_titulo (titulo : texto) (linhas : list texto) :
  strip titulo <> [] ->
  limpar_linhas (titulo :: linhas) = filter nao_vazio (map strip linhas).
Proof.
  intros H. rewrite limpar_linhas_filter. cbn [map filter].
  destruct (strip titulo); [congruence|reflexivity].
Qed.

Lemma filter_limpas (linhas : list texto) :
  Forall limpa linhas -> filter nao_vazio (map strip linhas) = linhas.
Proof.
  induction 1 as [|l r [Hn Hs] _ IH]; [reflexivity|].
  cbn [map filter]. rewrite Hs, IH.
  destruct l; [congruence|reflexivity].
Qed.

(** The first line of the text that is not blank is left out whatever it
    holds: two texts that differ in it only give the same questions and
    answers. *)
Theorem extrair_perguntas_respostas_de_texto_titulo (digito : N -> bool)
  (titulo1 titulo2 corpo : texto) :
  strip titulo1 <> [] -> ~ In quebra titulo1 ->
  strip titulo2 <> [] -> ~ In quebra titulo2 ->
  extrair_perguntas_respostas_de_texto digito (titulo1 ++ quebra :: corpo)
  = extrair_perguntas_respostas_de_texto digito (titulo2 ++ quebra :: corpo).
Proof.
  intros H1 Q1 H2 Q2. unfold extrair_perguntas_respostas_de_texto.
  rewrite !split_linhas_app by assumption.
  rewrite !limpar_linhas_titulo by assumption. reflexivity.
Qed.

Lemma extrair_perguntas_respostas_de_texto_titulo_witness :
  extrair_perguntas_respostas_de_texto ExemplosConversor.digito_ascii
    (Exemplos.pontos "1. Abre?" ++ quebra :: Exemplos.pontos "Sim.")
  = extrair_perguntas_respostas_de_texto ExemplosConversor.digito_ascii
      (Exemplos.pontos "FAQ" ++ quebra :: Exemplos.pontos "Sim.").
Proof.
  apply (extrair_perguntas_respostas_de_texto_titulo
           ExemplosConversor.digito_ascii
           (Exemplos.pontos "1. Abre?") (Exemplos.pontos "FAQ")
           (Exemplos.pontos "Sim."));
    vm_compute; try discriminate; intuition discriminate.
Defined.

(** ** A formatted FAQ *)

Section FaqFormatado.

Variable digito : N -> bool.

Lemma acumular_pergunta_para (anterior : texto)
  (partes restantes : list texto) :
  endswith interrogacao anterior = true ->
  acumular_pergunta anterior partes restantes = (partes, restantes).
Proof.
  intros H. destruct restantes; simpl; [reflexivity|]. now rewrite H.
Qed.

Lemma acumular_pergunta_bloco (inicio : list texto) :
  forall anterior partes fim restantes,
    endswith interrogacao anterior = false ->
    Forall (fun l => endswith interrogacao l = false) inicio ->
    endswith interrogacao fim = true ->
    acumular_pergunta anterior partes (inicio ++ fim :: restantes)
    = (partes ++ inicio ++ [fim], restantes).
Proof.
  induction inicio as [|l r IH]; intros anterior partes fim restantes
    Ha Hi Hf.
  - simpl. rewrite Ha. cbn [negb].
    now rewrite acumular_pergunta_para.
  - inversion Hi as [|? ? Hl Hr]; subst.
    cbn [app acumular_pergunta]. rewrite Ha. cbn [negb].
    rewrite IH by assumption. now rewrite <- app_assoc.
Qed.

Lemma acumular_pergunta_linhas (pergunta restantes : list texto) :
  (exists inicio fim,
      pergunta = inicio ++ [fim]
      /\ Forall (fun l => endswith interrogacao l = false) inicio
      /\ endswith interrogacao fim = true) ->
  acumular_pergunta (hd [] pergunta) [hd [] pergunta]
                    (tl pergunta ++ restantes)
  = (pergunta, restantes).
Proof.
  intros (inicio & fim & -> & Hi & Hf).
  destruct inicio as [|l r].
  - simpl. now apply acumular_pergunta_para.
  - inversion Hi as [|? ? Hl Hr]; subst.
    cbn [app hd tl]. rewrite <- app_assoc. cbn [app].
    now rewrite acumular_pergunta_bloco.
Qed.

Lemma acumular_resposta_bloco (resposta : list texto) :
  forall partes restantes,
    Forall (fun l => padrao_numero digito l = false) resposta ->
    restantes = [] \/ padrao_numero digito (hd [] restantes) = true ->
    acumular_resposta digito partes (resposta ++ restantes)
    = (partes ++ resposta, restantes).
Proof.
  induction resposta as [|l r IH]; intros partes restantes Hr Hn.
  - rewrite app_nil_r. cbn [app].
    destruct Hn as [->|Hn]; [reflexivity|].
    destruct restantes as [|p q]; [reflexivity|].
    cbn [hd] in Hn. simpl. now rewrite Hn.
  - inversion Hr as [|? ? Hl Hr']; subst.
    cbn [app acumular_resposta]. rewrite Hl. cbn [negb].
    rewrite IH by assumption. now rewrite <- app_assoc.
Qed.

Lemma blocos_inicio (blocos : list (list texto * list texto)) :
  Forall (bloco_bem_formado digito) blocos ->
  let restantes := flat_map (fun bloco => fst bloco ++ snd bloco) blocos in
  restantes = [] \/ padrao_numero digito (hd [] restantes) = true.
Proof.
  intros H. destruct H as [|[pergunta resposta] r Hb _]; [now left|].
  right. destruct Hb as ((inicio & fim & Hp & _) & Hn & _).
  cbn [fst snd] in *. cbn [flat_map fst snd].
  rewrite Hp in *. destruct inicio; exact Hn.
Qed.

Lemma laco_principal_blocos (blocos : list (list texto * list texto)) :
  forall voltas perguntas respostas,
    Forall (bloco_bem_formado digito) blocos ->
    (length (flat_map (fun bloco => fst bloco ++ snd bloco) blocos)
     <= voltas)%nat ->
    laco_principal digito voltas
      (flat_map (fun bloco => fst bloco ++ snd bloco) blocos)
      perguntas respostas
    = ([], (perguntas ++ map (fun bloco => join [espaco] (fst bloco)) blocos,
            respostas ++ map (fun bloco => join [espaco] (snd bloco)) blocos)).
Proof.
  induction blocos as [|[pergunta resposta] r IH];
    intros voltas perguntas respostas Hb Hv.
  - simpl. rewrite !app_nil_r. apply laco_principal_fim.
  - inversion Hb as [|? ? Hb1 Hbr]; subst.
    pose proof (blocos_inicio r Hbr) as Hini. cbv zeta in Hini.
    destruct Hb1 as (Hperg & Hnum & Hrn & Hresp & Hlimpas).
    cbn [fst snd] in *.
    cbn [flat_map fst snd] in *.
    set (R := flat_map (fun bloco => fst bloco ++ snd bloco) r) in *.
    assert (Hpne : pergunta <> []).
    { destruct Hperg as (i & f & -> & _). now destruct i. }
    destruct pergunta as [|linha seguintes]; [congruence|].
    cbn [hd] in Hnum.
    destruct voltas as [|v]; [simpl in Hv; lia|].
    rewrite <- !app_assoc. cbn [app laco_principal].
    rewrite Hnum.
    pose proof (acumular_pergunta_linhas (linha :: seguintes)
                  (resposta ++ R) Hperg) as Hacc.
    cbn [hd tl] in Hacc.
    match goal with
    | |- context [acumular_pergunta ?a ?b ?c] =>
        replace (acumular_pergunta a b c)
          with (linha :: seguintes, resposta ++ R)
          by (symmetry; exact Hacc)
    end.
    rewrite (acumular_resposta_bloco resposta [] R Hresp Hini).
    cbn [app].
    apply Forall_app in Hlimpas. destruct Hlimpas as [Hlp Hlr].
    assert (Hjp : limpa (join [espaco] (linha :: seguintes))).
    { apply limpa_join; [discriminate|].
      eapply Forall_impl; [|exact Hlp]. now intros a [Ha _]. }
    assert (Hjr : limpa (join [espaco] resposta)).
    { apply limpa_join; [exact Hrn|].
      eapply Forall_impl; [|exact Hlr]. now intros a [Ha _]. }
    destruct Hjp as [Hjp1 Hjp2]. destruct Hjr as [Hjr1 Hjr2].
    rewrite Hjp2, Hjr2.
    destruct (join [espaco] (linha :: seguintes)) as [|c w] eqn:Ep;
      [congruence|].
    destruct (join [espaco] resposta) as [|c' w'] eqn:Er; [congruence|].
    rewrite IH.
    + cbn [map fst snd]. rewrite Ep, Er, <- !app_assoc. reflexivity.
    + exact Hbr.
    + simpl in Hv. rewrite !length_app in Hv. lia.
Qed.

End FaqFormatado.

(** A formatted FAQ is read back: from a title followed by questions and
    answers, each question numbered and ended by the only line with a
    question mark, the function returns the questions and the answers, the
    lines of each joined by one space. *)
Theorem extrair_perguntas_respostas_de_texto_formatado (digito : N -> bool)
  (titulo : texto) (blocos : list (list texto * list texto)) :
  strip titulo <> [] -> ~ In quebra titulo ->
  Forall (bloco_bem_formado digito) blocos ->
  extrair_perguntas_respostas_de_texto digito
    (join [quebra] (linhas_do_faq titulo blocos))
  = (map (fun bloco => join [espaco] (fst bloco)) blocos,
     map (fun bloco => join [espaco] (snd bloco)) blocos).
Proof.
  intros Ht Hq Hb.
  assert (Hl : Forall (fun l => limpa l /\ ~ In quebra l)
                 (flat_map (fun bloco => fst bloco ++ snd bloco) blocos)).
  { apply Forall_forall. intros l Hin. apply in_flat_map in Hin.
    destruct Hin as (b & Hbin & Hin).
    rewrite Forall_forall in Hb. destruct (Hb b Hbin) as (_ & _ & _ & _ & H).
    rewrite Forall_forall in H. now apply H. }
  unfold extrair_perguntas_respostas_de_texto, linhas_do_faq.
  rewrite split_linhas_join.
  - rewrite limpar_linhas_titulo by exact Ht.
    rewrite filter_limpas.
    + rewrite laco_principal_blocos; [reflexivity|exact Hb|lia].
    + eapply Forall_impl; [|exact Hl]. now intros a [Ha _].
  - discriminate.
  - constructor; [exact Hq|].
    eapply Forall_impl; [|exact Hl]. now intros a [_ Ha].
Qed.

Lemma extrair_perguntas_respostas_de_texto_formatado_witness :
  extrair_perguntas_respostas_de_texto ExemplosConversor.digito_ascii
    ExemplosConversor.faq1
  = ([Exemplos.pontos "1. Como abrir a conta?"],
     [Exemplos.pontos "Pelo aplicativo. Ou na agencia."]).
Proof.
  apply (extrair_perguntas_respostas_de_texto_formatado
           ExemplosConversor.digito_ascii
           (Exemplos.pontos "FAQ do banco") [ExemplosConversor.bloco1]).
  - vm_compute. discriminate.
  - vm_compute. intuition discriminate.
  - constructor; [|constructor].
    split; [|split; [|split; [|split]]].
    + exists [Exemplos.pontos "1. Como abrir"], (Exemplos.pontos "a conta?").
      split; [reflexivity|]. split; [|reflexivity].
      constructor; [reflexivity|constructor].
    + reflexivity.
    + discriminate.
    + repeat constructor.
    + repeat constructor; try (vm_compute; discriminate);
        vm_compute; intuition discriminate.
Defined.

(** ** Questions without a question mark *)

Section SemInterrogacao.

Variable digito : N -> bool.

Lemma acumular_pergunta_tudo (restantes : list texto) :
  forall anterior partes,
    endswith interrogacao anterior = false ->
    Forall (fun l => endswith interrogacao l = false) restantes ->
    acumular_pergunta anterior partes restantes = (partes ++ restantes, []).
Proof.
  induction restantes as [|l r IH]; intros anterior partes Ha Hr.
  - simpl. now rewrite app_nil_r.
  - inversion Hr as [|? ? Hl Hr']; subst.
    cbn [acumular_pergunta]. rewrite Ha. cbn [negb].
    rewrite IH by assumption. now rewrite <- app_assoc.
Qed.

Lemma laco_principal_sem_interrogacao (voltas : nat) :
  forall restantes perguntas respostas,
    Forall (fun l => endswith interrogacao l = false) restantes ->
    snd (laco_principal digito voltas restantes perguntas respostas)
    = (perguntas, respostas).
Proof.
  induction voltas as [|v IH]; intros restantes perguntas respostas H;
    [reflexivity|].
  destruct restantes as [|linha seguintes]; [reflexivity|].
  inversion H as [|? ? Hl Hs]; subst.
  cbn [laco_principal].
  destruct (padrao_numero digito linha); [|now apply IH].
  rewrite acumular_pergunta_tudo by assumption.
  cbn [acumular_resposta join].
  replace (strip []) with (@nil N) by reflexivity.
  rewrite laco_principal_fim.
  now destruct (strip (join [espaco] ([linha] ++ seguintes))).
Qed.

End SemInterrogacao.

(** When no line of the text ends in a question mark, nothing is
    extracted: the first numbered line takes every line after it as its
    question, and a question without an answer is left out. *)
Theorem extrair_perguntas_respostas_de_texto_sem_interrogacao
  (digito : N -> bool) (texto_faq : texto) :
  Forall (fun l => endswith interrogacao (strip l) = false)
         (split_linhas texto_faq) ->
  extrair_perguntas_respostas_de_texto digito texto_faq = ([], []).
Proof.
  intros H. unfold extrair_perguntas_respostas_de_texto.
  apply laco_principal_sem_interrogacao.
  apply Forall_forall. intros l Hl.
  apply limpar_linhas_in in Hl. destruct Hl as (b & Hb & -> & _).
  rewrite Forall_forall in H. now apply H.
Qed.

Lemma extrair_perguntas_respostas_de_texto_sem_interrogacao_witness :
  extrair_perguntas_respostas_de_texto ExemplosConversor.digito_ascii
    (join [quebra] [Exemplos.pontos "FAQ"; Exemplos.pontos "1. Horario";
                    Exemplos.pontos "Das 9 as 17."])
  = ([], []).
Proof.
  apply (extrair_perguntas_respostas_de_texto_sem_interrogacao
           ExemplosConversor.digito_ascii).
  repeat constructor.
Defined.

(** ** The files that are written *)

Lemma split_uma_vez_partes (s : texto) :
  ~ In quebra (fst (split_uma_vez s))
  /\ match snd (split_uma_vez s) with
     | Some depois => s = fst (split_uma_vez s) ++ quebra :: depois
     | None => s = fst (split_uma_vez s)
     end.
Proof.
  induction s as [|c r [IH1 IH2]]; [simpl; auto|].
  simpl. destruct (c =? 10)%N eqn:Hc.
  - apply N.eqb_eq in Hc. subst. simpl. auto.
  - destruct (split_uma_vez r) as [antes depois]. cbn [fst snd] in *.
    split.
    + intros [H|H]; [|contradiction].
      apply N.eqb_neq in Hc. apply Hc. exact H.
    + destruct depois; simpl; f_equal; exact IH2.
Qed.

Lemma limpa_titulo (s : texto) :
  limpa s -> limpa (strip (fst (split_uma_vez s))).
Proof.
  intros Hs. apply limpa_strip. intros Hn. apply strip_nil in Hn.
  apply limpa_bordas in Hs. destruct Hs as (Hne & Hl & _).
  destruct s as [|c r]; [congruence|].
  apply lstrip_cons in Hl.
  simpl in Hn. destruct (c =? 10)%N eqn:Hc.
  - apply N.eqb_eq in Hc. subst. discriminate.
  - destruct (split_uma_vez r). cbn [fst] in Hn.
    inversion Hn; subst. congruence.
Qed.

Lemma limpa_descricao (s depois : texto) :
  limpa s -> snd (split_uma_vez s) = Some depois -> limpa (strip depois).
Proof.
  intros Hs Hd. apply limpa_strip. intros Hn. apply strip_nil in Hn.
  apply limpa_bordas in Hs. destruct Hs as (_ & _ & Hr).
  destruct (split_uma_vez_partes s) as [_ Hp]. rewrite Hd in Hp.
  rewrite Hp in Hr. rewrite rev_app_distr in Hr. cbn [rev] in Hr.
  assert (Hb : Forall (fun c => isspace c = true) (rev depois ++ [quebra])).
  { apply Forall_app. split.
    - apply Forall_forall. intros c Hc. rewrite Forall_forall in Hn.
      apply Hn. now apply in_rev.
    - constructor; [reflexivity|constructor]. }
  destruct (rev depois ++ [quebra]) as [|u w] eqn:Hu.
  - destruct (rev depois); discriminate.
  - cbn [app] in Hr. apply lstrip_cons in Hr.
    inversion Hb; subst. congruence.
Qed.

Section Arquivos.

Variable digito : N -> bool.
Variable encode : texto -> vetor.
Variable listar : string -> string -> list Path.
Variable ler_txt : string -> resultado texto.
Variable ler_pdf : string -> resultado (list texto).
Variable json_dump : json -> string -> resultado unit.

Lemma so_imprime_app (a b : list efeito) :
  so_imprime a -> so_imprime b -> so_imprime (a ++ b).
Proof.
  intros Ha Hb e He. apply in_app_or in He. destruct He; auto.
Qed.

Lemma so_imprime_print (n : nota) : so_imprime [EfPrint n].
Proof. intros e [<-|[]]. now exists n. Qed.

Lemma so_imprime_nil : so_imprime [].
Proof. intros e []. Qed.

Lemma extrair_texto_txt_casos (caminho : string) :
  so_imprime (fst (extrair_texto_txt ler_txt caminho))
  /\ forall lido,
       snd (extrair_texto_txt ler_txt caminho) = Retorna lido ->
       lido = [] \/ limpa lido.
Proof.
  unfold extrair_texto_txt, ctentar, cliga, celeva, cret, cprint, cemite.
  destruct (ler_txt caminho) as [c|e]; cbn [fst snd app].
  - split; [apply so_imprime_nil|].
    intros lido H. inversion H; subst.
    destruct (strip c) eqn:Hc; [now left|right].
    rewrite <- Hc. apply limpa_strip. rewrite Hc. discriminate.
  - destruct (eh_Exception e); cbn [fst snd app].
    + split; [apply so_imprime_print|].
      intros lido H. inversion H. now left.
    + split; [apply so_imprime_nil|discriminate].
Qed.

Lemma extrair_texto_pdf_casos (caminho : string) :
  so_imprime (fst (extrair_texto_pdf ler_pdf caminho))
  /\ forall lido,
       snd (extrair_texto_pdf ler_pdf caminho) = Retorna lido ->
       lido = [] \/ limpa lido.
Proof.
  unfold extrair_texto_pdf, ctentar, cliga, celeva, cret, cprint, cemite.
  destruct (ler_pdf caminho) as [c|e]; cbn [fst snd app].
  - split; [apply so_imprime_nil|].
    intros lido H. inversion H; subst.
    destruct (strip (join [quebra] c)) eqn:Hc; [now left|right].
    rewrite <- Hc. apply limpa_strip. rewrite Hc. discriminate.
  - destruct (eh_Exception e); cbn [fst snd app].
    + split; [apply so_imprime_print|].
      intros lido H. inversion H. now left.
    + split; [apply so_imprime_nil|discriminate].
Qed.

(** What the loop over the film files keeps true. *)
Lemma ler_filmes_inv (arquivos : list Path) :
  forall titulos descricoes,
    length titulos = length descricoes ->
    Forall limpa titulos -> Forall limpa descricoes ->
    so_imprime (fst (ler_filmes ler_txt arquivos titulos descricoes))
    /\ forall titulos' descricoes',
         snd (ler_filmes ler_txt arquivos titulos descricoes)
         = Retorna (titulos', descricoes') ->
         length titulos' = length descricoes'
         /\ (length titulos' <= length titulos + length arquivos)%nat
         /\ Forall limpa titulos' /\ Forall limpa descricoes'.
Proof.
  induction arquivos as [|a r IH]; intros titulos descricoes Hl Ht Hd.
  - simpl. split; [apply so_imprime_nil|].
    intros t' d' H. inversion H; subst. repeat split; auto. lia.
  - cbn [ler_filmes]. unfold cliga at 1, cprint, cemite. cbn [fst snd].
    destruct (extrair_texto_txt_casos (str a)) as [Hp Hc].
    unfold cliga.
    destruct (extrair_texto_txt ler_txt (str a)) as [t [lido|e]];
      cbn [fst snd] in *.
    + specialize (Hc lido eq_refl).
      destruct lido as [|c w].
      * destruct (IH titulos descricoes Hl Ht Hd) as [IH1 IH2].
        split.
        -- apply (so_imprime_app [_]); [apply so_imprime_print|].
           now apply so_imprime_app.
        -- intros t' d' H. destruct (IH2 t' d' H) as (? & ? & ? & ?).
           repeat split; auto. simpl. lia.
      * destruct Hc as [Hc|Hc]; [discriminate|].
        assert (Hd' : limpa
                        match snd (split_uma_vez (c :: w)) with
                        | Some segunda => strip segunda
                        | None => c :: w
                        end).
        { destruct (snd (split_uma_vez (c :: w))) eqn:Hs; [|exact Hc].
          now apply (limpa_descricao (c :: w)). }
        destruct (IH (titulos ++ [strip (fst (split_uma_vez (c :: w)))])
                    (descricoes
                     ++ [match snd (split_uma_vez (c :: w)) with
                         | Some segunda => strip segunda
                         | None => c :: w
                         end])) as [IH1 IH2].
        -- rewrite !length_app. simpl. lia.
        -- apply Forall_app. split; [exact Ht|].
           constructor; [now apply limpa_titulo|constructor].
        -- apply Forall_app. split; [exact Hd|].
           constructor; [exact Hd'|constructor].
        -- split.
           ++ apply (so_imprime_app [_]); [apply so_imprime_print|].
              now apply so_imprime_app.
           ++ intros t' d' H. destruct (IH2 t' d' H) as (? & Hle & ? & ?).
              repeat split; auto.
              rewrite length_app in Hle. simpl in *. lia.
    + split; [|discriminate].
      apply (so_imprime_app [_]); [apply so_imprime_print|exact Hp].
Qed.

(** What the loop over the FAQ files keeps true. *)
Lemma ler_faqs_inv (arquivos : list Path) :
  forall perguntas respostas fontes,
    length respostas = length perguntas ->
    length fontes = length perguntas ->
    Forall (fun p => limpa p /\ padrao_numero digito p = true) perguntas ->
    Forall limpa respostas ->
    so_imprime (fst (ler_faqs digito ler_pdf arquivos
                       perguntas respostas fontes))
    /\ forall perguntas' respostas' fontes',
         snd (ler_faqs digito ler_pdf arquivos perguntas respostas fontes)
         = Retorna (perguntas', respostas', fontes') ->
         length respostas' = length perguntas'
         /\ length fontes' = length perguntas'
         /\ Forall (fun p => limpa p /\ padrao_numero digito p = true)
                   perguntas'
         /\ Forall limpa respostas'
         /\ exists novas,
              fontes' = fontes ++ novas
              /\ Forall (fun f => exists a, In a arquivos /\ f = stem a)
                        novas.
Proof.
  induction arquivos as [|a r IH]; intros perguntas respostas fontes
    Hr Hf Hp Hrl.
  - simpl. split; [apply so_imprime_nil|].
    intros p' r' f' H. inversion H; subst. repeat split; auto.
    exists []. rewrite app_nil_r. split; [reflexivity|constructor].
  - cbn [ler_faqs]. unfold cliga at 1, cprint, cemite. cbn [fst snd].
    destruct (extrair_texto_pdf_casos (str a)) as [Himp Hc].
    unfold cliga.
    destruct (extrair_texto_pdf ler_pdf (str a)) as [t [lido|e]];
      cbn [fst snd] in *.
    + clear Hc. destruct lido as [|c w].
      * destruct (IH perguntas respostas fontes Hr Hf Hp Hrl) as [IH1 IH2].
        split.
        -- apply (so_imprime_app [_]); [apply so_imprime_print|].
           now apply so_imprime_app.
        -- intros p' r' f' H.
           destruct (IH2 p' r' f' H) as (? & ? & ? & ? & n & Hn & Hs).
           repeat split; auto. exists n. split; [exact Hn|].
           eapply Forall_impl; [|exact Hs].
           intros f (b & Hb & ->). exists b. split; [now right|reflexivity].
      * pose proof (extrair_perguntas_respostas_de_texto_inv digito
                      (c :: w)) as (Hpar & Hl1 & Hl2).
        destruct (extrair_perguntas_respostas_de_texto digito (c :: w))
          as [ps rs]. cbn [fst snd] in *.
        destruct (IH (perguntas ++ ps) (respostas ++ rs)
                    (fontes ++ repeat (stem a) (length ps))) as [IH1 IH2].
        -- rewrite !length_app. lia.
        -- rewrite !length_app, repeat_length. lia.
        -- apply Forall_app. now split.
        -- apply Forall_app. now split.
        -- split.
           ++ apply (so_imprime_app [_]); [apply so_imprime_print|].
              now apply so_imprime_app.
           ++ intros p' r' f' H.
              destruct (IH2 p' r' f' H) as (? & ? & ? & ? & n & Hn & Hs).
              repeat split; auto.
              exists (repeat (stem a) (length ps) ++ n).
              split; [now rewrite app_assoc|].
              apply Forall_app. split.
              ** apply Forall_forall. intros f Hin.
                 apply repeat_spec in Hin. exists a.
                 split; [now left|exact Hin].
              ** eapply Forall_impl; [|exact Hs].
                 intros f (b & Hb & ->). exists b.
                 split; [now right|reflexivity].
    + split; [|discriminate].
      apply (so_imprime_app [_]); [apply so_imprime_print|exact Himp].
Qed.

End Arquivos.

(* What the converter writes for the films, as the properties below use
   it. *)
Lemma processar_filmes_salva
  (encode : texto -> vetor) (listar : string -> string -> list Path)
  (ler_txt : string -> resultado texto)
  (json_dump : json -> string -> resultado unit)
  (diretorio_entrada caminho_saida : string)
  (dados : json) (caminho : string) :
  In (EfDump dados caminho)
     (fst (processar_filmes encode listar ler_txt json_dump
             diretorio_entrada caminho_saida)) ->
  caminho = caminho_saida
  /\ exists titulos descricoes,
       dados = dados_filmes titulos descricoes (map encode descricoes)
       /\ descricoes <> []
       /\ length titulos = length descricoes
       /\ (length titulos <= length (listar diretorio_entrada "*.txt"%string))%nat
       /\ Forall limpa titulos /\ Forall limpa descricoes.
Proof.
  unfold processar_filmes.
  destruct (listar diretorio_entrada "*.txt"%string) as [|a r] eqn:Hlista.
  - cbn. intros H. caca_dump H.
  - destruct (ler_filmes_inv ler_txt (a :: r) [] [] eq_refl
                (Forall_nil _) (Forall_nil _)) as [Himp Hres].
    destruct (ler_filmes ler_txt (a :: r) [] []) as [t [[ts ds]|e]].
    + cbn [fst snd] in Himp, Hres.
      destruct (Hres ts ds eq_refl) as (Hlen & Hle & Hts & Hds).
      roda_conv.
      destruct ds as [|d ds'].
      * roda_conv. intros H. caca_dump H.
        destruct (Himp _ H) as (n & Hn). discriminate Hn.
      * roda_conv.
        match goal with
        | |- context [json_dump ?x ?y] => destruct (json_dump x y)
        end; cbn [fst snd app];
          intros H; caca_dump H;
          try (destruct (Himp _ H) as (n & Hn); discriminate Hn);
          inversion H; subst;
          (split; [reflexivity|]);
          exists ts, (d :: ds'); repeat split; auto; discriminate.
    + roda_conv. intros H. caca_dump H.
      destruct (Himp _ H) as (n & Hn). discriminate Hn.
Qed.

(** The file of films that is written holds one title and one description
    for each row of its embeddings, the row being the embedding of the
    description; no title and no description is empty or has white space at
    either end, and nothing is written when no description was read. *)
Theorem processar_filmes_dados
  (encode : texto -> vetor) (listar : string -> string -> list Path)
  (ler_txt : string -> resultado texto)
  (json_dump : json -> string -> resultado unit)
  (diretorio_entrada caminho_saida : string)
  (dados : json) (caminho : string) :
  In (EfDump dados caminho)
     (fst (processar_filmes encode listar ler_txt json_dump
             diretorio_entrada caminho_saida)) ->
  caminho = caminho_saida
  /\ exists titulos descricoes,
       dados = dados_filmes titulos descricoes (map encode descricoes)
       /\ descricoes <> []
       /\ length titulos = length descricoes
       /\ (length titulos <= length (listar diretorio_entrada "*.txt"%string))%nat
       /\ Forall limpa titulos /\ Forall limpa descricoes.
Proof.
  exact (processar_filmes_salva encode listar ler_txt json_dump
           diretorio_entrada caminho_saida dados caminho).
Qed.

Lemma processar_filmes_dados_witness :
  exists titulos descricoes,
    ExemplosConversor.filmes_salvos
    = dados_filmes titulos descricoes (map Exemplos.encode_fixo descricoes)
    /\ length titulos = length descricoes.
Proof.
  destruct (processar_filmes_dados Exemplos.encode_fixo
              ExemplosConversor.listar_dados ExemplosConversor.ler_txt_dados
              ExemplosConversor.json_dump_ok
              "dados/filmes" "embeddings/filmes/filmes_embeddings.json"
              ExemplosConversor.filmes_salvos
              "embeddings/filmes/filmes_embeddings.json")
    as (_ & titulos & descricoes & H1 & _ & H2 & _).
  - vm_compute. do 7 right. left. reflexivity.
  - exists titulos, descricoes. split; assumption.
Defined.

(* What the converter writes for the FAQ, as the properties below use
   it. *)
Lemma processar_faqs_salva
  (digito : N -> bool) (encode : texto -> vetor)
  (listar : string -> string -> list Path)
  (ler_pdf : string -> resultado (list texto))
  (json_dump : json -> string -> resultado unit)
  (diretorio_entrada caminho_saida : string)
  (dados : json) (caminho : string) :
  In (EfDump dados caminho)
     (fst (processar_faqs digito encode listar ler_pdf json_dump
             diretorio_entrada caminho_saida)) ->
  caminho = caminho_saida
  /\ exists perguntas respostas fontes,
       dados = dados_faq perguntas respostas fontes (map encode respostas)
       /\ perguntas <> []
       /\ length respostas = length perguntas
       /\ length fontes = length perguntas
       /\ Forall (fun p => limpa p /\ padrao_numero digito p = true)
                 perguntas
       /\ Forall limpa respostas
       /\ Forall (fun f => exists a,
                      In a (listar diretorio_entrada "*.pdf"%string)
                      /\ f = stem a) fontes.
Proof.
  unfold processar_faqs.
  destruct (listar diretorio_entrada "*.pdf"%string) as [|a r] eqn:Hlista.
  - cbn. intros H. caca_dump H.
  - destruct (ler_faqs_inv digito ler_pdf (a :: r) [] [] [] eq_refl eq_refl
                (Forall_nil _) (Forall_nil _)) as [Himp Hres].
    destruct (ler_faqs digito ler_pdf (a :: r) [] [] [])
      as [t [[[ps rs] fs]|e]].
    + cbn [fst snd] in Himp, Hres.
      destruct (Hres ps rs fs eq_refl)
        as (Hlr & Hlf & Hps & Hrs & novas & Hn & Hnovas).
      cbn [app] in Hn. subst fs.
      roda_conv.
      destruct ps as [|p ps'].
      * roda_conv. intros H. caca_dump H.
        destruct (Himp _ H) as (n & Hn). discriminate Hn.
      * roda_conv.
        match goal with
        | |- context [json_dump ?x ?y] => destruct (json_dump x y)
        end; cbn [fst snd app];
          intros H; caca_dump H;
          try (destruct (Himp _ H) as (n & Hn); discriminate Hn);
          inversion H; subst;
          (split; [reflexivity|]);
          exists (p :: ps'), rs, novas; repeat split; auto; discriminate.
    + roda_conv. intros H. caca_dump H.
      destruct (Himp _ H) as (n & Hn). discriminate Hn.
Qed.

(** The file of the FAQ that is written holds one question, one answer
    and one source for each row of its embeddings, the row being the
    embedding of the answer; every question starts with its number, every
    source is the stem of a file of the directory, and nothing is written
    when no question was extracted. *)
Theorem processar_faqs_dados
  (digito : N -> bool) (encode : texto -> vetor)
  (listar : string -> string -> list Path)
  (ler_pdf : string -> resultado (list texto))
  (json_dump : json -> string -> resultado unit)
  (diretorio_entrada caminho_saida : string)
  (dados : json) (caminho : string) :
  In (EfDump dados caminho)
     (fst (processar_faqs digito encode listar ler_pdf json_dump
             diretorio_entrada caminho_saida)) ->
  caminho = caminho_saida
  /\ exists perguntas respostas fontes,
       dados = dados_faq perguntas respostas fontes (map encode respostas)
       /\ perguntas <> []
       /\ length respostas = length perguntas
       /\ length fontes = length perguntas
       /\ Forall (fun p => limpa p /\ padrao_numero digito p = true)
                 perguntas
       /\ Forall limpa respostas
       /\ Forall (fun f => exists a,
                      In a (listar diretorio_entrada "*.pdf"%string)
                      /\ f = stem a) fontes.
Proof.
  exact (processar_faqs_salva digito encode listar ler_pdf json_dump
           diretorio_entrada caminho_saida dados caminho).
Qed.

Lemma processar_faqs_dados_witness :
  exists perguntas respostas fontes,
    dados_faq [Exemplos.pontos "1. Como abrir a conta?"]
              [Exemplos.pontos "Pelo aplicativo. Ou na agencia."]
              [Exemplos.pontos "banco"] [[3; 4]]
    = dados_faq perguntas respostas fontes
                (map Exemplos.encode_fixo respostas)
    /\ length respostas = length perguntas.
Proof.
  destruct (processar_faqs_dados ExemplosConversor.digito_ascii
              Exemplos.encode_fixo
              ExemplosConversor.listar_dados ExemplosConversor.ler_pdf_dados
              ExemplosConversor.json_dump_ok
              "dados/faq" "embeddings/faq/faq_embeddings.json"
              (dados_faq [Exemplos.pontos "1. Como abrir a conta?"]
                 [Exemplos.pontos "Pelo aplicativo. Ou na agencia."]
                 [Exemplos.pontos "banco"] [[3; 4]])
              "embeddings/faq/faq_embeddings.json")
    as (_ & perguntas & respostas & fontes & H1 & _ & H2 & _).
  - vm_compute. do 6 right. left. reflexivity.
  - exists perguntas, respostas, fontes. split; assumption.
Defined.

(** ** From the converter to the search *)

Lemma criar_indice_faiss_sucesso (embeddings : matriz) (dimensao : nat) :
  embeddings <> [] ->
  Forall (fun v => length v = dimensao) embeddings ->
  snd (criar_indice_faiss embeddings)
  = Retorna {| Faiss.d := dimensao;
               Faiss.xb := map (fun v => div_escalar v (norm v))
                               embeddings |}.
Proof.
  intros Hne Hreg. unfold criar_indice_faiss.
  rewrite normalizar_embeddings_linhas by exact Hne.
  destruct embeddings as [|v m]; [congruence|].
  inversion Hreg as [|? ? Hv Hm]; subst.
  unfold pliga, eleva, emite, shape1, Faiss.add, Faiss.novo.
  cbn [fst snd Faiss.d Faiss.xb app hd].
  assert (Hok : Faiss.dimensao_ok (length v)
                  (map (fun w => div_escalar w (norm w)) (v :: m)) = true).
  { unfold Faiss.dimensao_ok. apply forallb_forall. intros w Hw.
    apply in_map_iff in Hw. destruct Hw as (u & <- & Hu).
    rewrite length_div_escalar. apply Nat.eqb_eq.
    rewrite Forall_forall in Hreg. now apply Hreg. }
  rewrite Hok. reflexivity.
Qed.

Lemma dimensao_ok_encode (encode : texto -> vetor) (dimensao : nat)
  (textos : list texto) :
  (forall t, length (encode t) = dimensao) ->
  Faiss.dimensao_ok (length (hd [] (map encode textos))) (map encode textos)
  = true.
Proof.
  intros Hd. unfold Faiss.dimensao_ok. apply forallb_forall.
  intros w Hw. apply in_map_iff in Hw. destruct Hw as (u & <- & Hu).
  apply Nat.eqb_eq. rewrite Hd.
  destruct textos; [destruct Hu|simpl; now rewrite Hd].
Qed.

Lemma numeros_tolist (v : vetor) : Exemplos.numeros (map JNum v) = Some v.
Proof.
  induction v as [|x r IH]; [reflexivity|]. simpl. now rewrite IH.
Qed.

Lemma fileiras_tolist (m : matriz) :
  Exemplos.fileiras (map (fun v => JArr (map JNum v)) m) = Some m.
Proof.
  induction m as [|v r IH]; [reflexivity|].
  simpl. now rewrite numeros_tolist, IH.
Qed.

Lemma np_array_fileiras_tolist (m : matriz) :
  Faiss.dimensao_ok (length (hd [] m)) m = true ->
  Exemplos.np_array_fileiras (tolist m) = Retorna m.
Proof.
  intros H. unfold Exemplos.np_array_fileiras, tolist.
  now rewrite fileiras_tolist, H.
Qed.

Lemma map_snd_combine {A B : Type} (a : list A) :
  forall b : list B, length a = length b -> map snd (combine a b) = b.
Proof.
  induction a as [|x r IH]; intros [|y s] H; try discriminate;
    [reflexivity|].
  simpl. f_equal. apply IH. now inversion H.
Qed.

Lemma titulos_mostrados_app (a b : list evento) :
  titulos_mostrados (a ++ b) = titulos_mostrados a ++ titulos_mostrados b.
Proof. unfold titulos_mostrados. apply flat_map_app. Qed.

Lemma titulos_mostrados_linhas (titulos descricoes : list json)
  (l : list (R * Z)) :
  forall inicio,
    titulos_mostrados
      (flat_map (linhas_filme titulos descricoes)
                (combine (seq inicio (length l)) l))
    = map (fun idx => py_get titulos idx JNull) (map snd l).
Proof.
  induction l as [|x r IH]; intros inicio; [reflexivity|].
  cbn [length seq combine flat_map map].
  rewrite titulos_mostrados_app, IH. reflexivity.
Qed.

Section ConverterEBuscar.

Variable encode : texto -> vetor.
Variable abrir : string -> resultado string.
Variable json_load : string -> resultado json.
Variable np_array : json -> resultado matriz.
Variable dimensao : nat.

Hypothesis encode_dimensao : forall t, length (encode t) = dimensao.

Hypothesis np_array_tolist :
  forall m, Faiss.dimensao_ok (length (hd [] m)) m = true ->
            np_array (tolist m) = Retorna m.

Lemma carregar_salvo (caminho arquivo : string)
  (campos : list (string * json)) (textos : list texto) :
  abrir caminho = Retorna arquivo ->
  json_load arquivo = Retorna (JObj campos) ->
  obter "embeddings" campos = Some (tolist (map encode textos)) ->
  carregar_embeddings abrir json_load np_array caminho
  = ([], Retorna (Some {| embeddings := map encode textos;
                          outros := filter
                            (fun c => negb (String.eqb (fst c) "embeddings"))
                            campos |})).
Proof.
  intros Ha Hj Ho.
  apply (carregar_embeddings_sucesso abrir json_load np_array
           caminho arquivo campos (tolist (map encode textos)));
    try assumption.
  apply np_array_tolist. now apply (dimensao_ok_encode encode dimensao).
Qed.

Lemma indice_dos_textos (textos : list texto) :
  textos <> [] ->
  snd (criar_indice_faiss (map encode textos))
  = Retorna {| Faiss.d := dimensao;
               Faiss.xb := map (fun v => div_escalar v (norm v))
                               (map encode textos) |}.
Proof.
  intros Hne. apply criar_indice_faiss_sucesso.
  - destruct textos; [congruence|discriminate].
  - apply Forall_forall. intros v Hv. apply in_map_iff in Hv.
    destruct Hv as (t & <- & _). apply encode_dimensao.
Qed.

End ConverterEBuscar.

(** The file of films the converter writes is one the search reads: it
    is loaded without a message, its embeddings are the embeddings of the
    descriptions, and on every line that is not blank the film mode returns
    after showing the titles that were saved, each once.  The encoder
    gives vectors that are [nao_degenerado], so that every score is a
    number. *)
Theorem processar_filmes_modo_filmes
  (encode : texto -> vetor) (ordena : list (R * Z) -> list (R * Z))
  (listar : string -> string -> list Path)
  (ler_txt : string -> resultado texto)
  (json_dump : json -> string -> resultado unit)
  (abrir : string -> resultado string)
  (json_load : string -> resultado json)
  (np_array : json -> resultado matriz)
  (dimensao : nat) (diretorio_entrada caminho_saida caminho arquivo : string)
  (dados : json) (digitado : texto) :
  (forall t, length (encode t) = dimensao) ->
  (forall t, nao_degenerado (encode t)) ->
  (forall m, Faiss.dimensao_ok (length (hd [] m)) m = true ->
             np_array (tolist m) = Retorna m) ->
  Faiss.ordenacao_decrescente ordena ->
  In (EfDump dados caminho_saida)
     (fst (processar_filmes encode listar ler_txt json_dump
             diretorio_entrada caminho_saida)) ->
  abrir caminho = Retorna arquivo ->
  json_load arquivo = Retorna dados ->
  strip digitado <> [] ->
  exists carregado titulos descricoes,
    dados = dados_filmes titulos descricoes (map encode descricoes)
    /\ carregar_embeddings abrir json_load np_array caminho
       = ([], Retorna (Some carregado))
    /\ embeddings carregado = map encode descricoes
    /\ snd (modo_filmes encode ordena carregado digitado) = Retorna tt
    /\ Permutation
         (titulos_mostrados
            (fst (modo_filmes encode ordena carregado digitado)))
         (map JStr titulos).
Proof.
  intros Hdim _ Hnp Hord Hdump Ha Hj Hq.
  apply processar_filmes_salva in Hdump.
  destruct Hdump as (_ & titulos & descricoes & -> & Hne & Hlen & _).
  pose proof (carregar_salvo encode abrir json_load np_array dimensao
                Hdim Hnp caminho arquivo _ descricoes Ha Hj eq_refl)
    as Hcarga.
  cbn [filter fst negb String.eqb Ascii.eqb Bool.eqb] in Hcarga.
  match type of Hcarga with
  | _ = (_, Retorna (Some ?c)) => set (carregado := c) in *
  end.
  exists carregado, titulos, descricoes.
  split; [reflexivity|]. split; [exact Hcarga|]. split; [reflexivity|].
  pose proof (indice_dos_textos encode dimensao Hdim descricoes Hne)
    as Hidx.
  destruct (modo_filmes_execucao encode ordena carregado digitado _
              (map JStr titulos) (map JStr descricoes)
              Hord Hq Hidx (Hdim _) eq_refl eq_refl)
    as (scores & indices & Hrun & Hmodo & Hperm & Hls).
  - cbn [embeddings carregado]. now rewrite !length_map.
  - cbn [embeddings carregado]. now rewrite !length_map.
  - apply Forall_forall. intros j Hin. apply in_map_iff in Hin.
    destruct Hin as (s & <- & _). exact I.
  - rewrite Hmodo. cbn [fst snd]. split; [reflexivity|].
    rewrite titulos_mostrados_app. cbn [titulos_mostrados flat_map app].
    unfold enumerate1. rewrite titulos_mostrados_linhas.
    rewrite map_snd_combine by exact Hls. exact Hperm.
Qed.

Lemma processar_filmes_modo_filmes_witness :
  exists carregado,
    carregar_embeddings ExemplosConversor.abrir_filmes
      ExemplosConversor.json_load_filmes Exemplos.np_array_fileiras
      "embeddings/filmes/filmes_embeddings.json"
    = ([], Retorna (Some carregado))
    /\ snd (modo_filmes Exemplos.encode_fixo Faiss.ordena_estavel carregado
              (Exemplos.pontos "uma nave"))
       = Retorna tt.
Proof.
  destruct (processar_filmes_modo_filmes Exemplos.encode_fixo
              Faiss.ordena_estavel ExemplosConversor.listar_dados
              ExemplosConversor.ler_txt_dados ExemplosConversor.json_dump_ok
              ExemplosConversor.abrir_filmes
              ExemplosConversor.json_load_filmes Exemplos.np_array_fileiras
              2 "dados/filmes" "embeddings/filmes/filmes_embeddings.json"
              "embeddings/filmes/filmes_embeddings.json" "filmes"
              ExemplosConversor.filmes_salvos (Exemplos.pontos "uma nave"))
    as (carregado & titulos & descricoes & _ & Hcarga & _ & Hmodo & _).
  - reflexivity.
  - intros t. exact nao_degenerado_34.
  - exact np_array_fileiras_tolist.
  - exact ordena_estavel_ok.
  - vm_compute. do 7 right. left. reflexivity.
  - reflexivity.
  - reflexivity.
  - vm_compute. discriminate.
  - exists carregado. split; assumption.
Defined.

(** The file of the FAQ the converter writes is one the search reads: it
    is loaded without a message, the vectors that are searched are the
    embeddings of the answers, and on every line that is not blank the FAQ
    mode returns. *)
Theorem processar_faqs_modo_faq
  (digito : N -> bool)
  (encode : texto -> vetor) (ordena : list (R * Z) -> list (R * Z))
  (listar : string -> string -> list Path)
  (ler_pdf : string -> resultado (list texto))
  (json_dump : json -> string -> resultado unit)
  (abrir : string -> resultado string)
  (json_load : string -> resultado json)
  (np_array : json -> resultado matriz)
  (dimensao : nat) (diretorio_entrada caminho_saida caminho arquivo : string)
  (dados : json) (digitado : texto) :
  (forall t, length (encode t) = dimensao) ->
  (forall m, Faiss.dimensao_ok (length (hd [] m)) m = true ->
             np_array (tolist m) = Retorna m) ->
  Faiss.ordenacao_decrescente ordena ->
  In (EfDump dados caminho_saida)
     (fst (processar_faqs digito encode listar ler_pdf json_dump
             diretorio_entrada caminho_saida)) ->
  abrir caminho = Retorna arquivo ->
  json_load arquivo = Retorna dados ->
  strip digitado <> [] ->
  exists carregado perguntas respostas fontes,
    dados = dados_faq perguntas respostas fontes (map encode respostas)
    /\ carregar_embeddings abrir json_load np_array caminho
       = ([], Retorna (Some carregado))
    /\ embeddings carregado = map encode respostas
    /\ snd (modo_faq encode ordena carregado digitado) = Retorna tt.
Proof.
  intros Hdim Hnp Hord Hdump Ha Hj Hq.
  apply processar_faqs_salva in Hdump.
  destruct Hdump
    as (_ & perguntas & respostas & fontes & -> & Hne & Hlr & Hlf & _).
  pose proof (carregar_salvo encode abrir json_load np_array dimensao
                Hdim Hnp caminho arquivo _ respostas Ha Hj eq_refl)
    as Hcarga.
  cbn [filter fst negb String.eqb Ascii.eqb Bool.eqb] in Hcarga.
  match type of Hcarga with
  | _ = (_, Retorna (Some ?c)) => set (carregado := c) in *
  end.
  exists carregado, perguntas, respostas, fontes.
  split; [reflexivity|]. split; [exact Hcarga|]. split; [reflexivity|].
  assert (Hrne : respostas <> []).
  { destruct respostas; [|discriminate].
    destruct perguntas; [congruence|discriminate]. }
  pose proof (indice_dos_textos encode dimensao Hdim respostas Hrne)
    as Hidx.
  destruct (modo_faq_execucao encode ordena carregado digitado _
              (map JStr perguntas) (map JStr respostas) (map JStr fontes)
              Hord Hq Hidx (Hdim _) eq_refl eq_refl eq_refl)
    as (scores & indices & _ & _ & Hmodo & _).
  - cbn [embeddings carregado]. rewrite !length_map. now symmetry.
  - cbn [embeddings carregado]. now rewrite !length_map.
  - cbn [embeddings carregado]. rewrite !length_map. congruence.
  - apply Forall_forall. intros j Hin. apply in_map_iff in Hin.
    destruct Hin as (s & <- & _). exact I.
  - rewrite Hmodo. reflexivity.
Qed.

Lemma processar_faqs_modo_faq_witness :
  exists carregado,
    carregar_embeddings (fun _ => Retorna "faq"%string)
      (fun _ =>
         Retorna
           (dados_faq [Exemplos.pontos "1. Como abrir a conta?"]
              [Exemplos.pontos "Pelo aplicativo. Ou na agencia."]
              [Exemplos.pontos "banco"] [[3; 4]]))
      Exemplos.np_array_fileiras "embeddings/faq/faq_embeddings.json"
    = ([], Retorna (Some carregado))
    /\ snd (modo_faq Exemplos.encode_fixo Faiss.ordena_estavel carregado
              (Exemplos.pontos "conta"))
       = Retorna tt.
Proof.
  destruct (processar_faqs_modo_faq ExemplosConversor.digito_ascii
              Exemplos.encode_fixo
              Faiss.ordena_estavel ExemplosConversor.listar_dados
              ExemplosConversor.ler_pdf_dados ExemplosConversor.json_dump_ok
              (fun _ => Retorna "faq"%string)
              (fun _ =>
                 Retorna
                   (dados_faq [Exemplos.pontos "1. Como abrir a conta?"]
                      [Exemplos.pontos "Pelo aplicativo. Ou na agencia."]
                      [Exemplos.pontos "banco"] [[3; 4]]))
              Exemplos.np_array_fileiras
              2 "dados/faq" "embeddings/faq/faq_embeddings.json"
              "embeddings/faq/faq_embeddings.json" "faq"
              (dados_faq [Exemplos.pontos "1. Como abrir a conta?"]
                 [Exemplos.pontos "Pelo aplicativo. Ou na agencia."]
                 [Exemplos.pontos "banco"] [[3; 4]])
              (Exemplos.pontos "conta"))
    as (carregado & perguntas & respostas & fontes
        & Hd & Hcarga & He & Hmodo).
  - reflexivity.
  - exact np_array_fileiras_tolist.
  - exact ordena_estavel_ok.
  - vm_compute. do 6 right. left. reflexivity.
  - reflexivity.
  - reflexivity.
  - vm_compute. discriminate.
  - exists carregado. split; assumption.
Defined.
